(** * patching-tracker: the normalisation core of [script.js]

    A shallow embedding of the dashboard script: the two severity
    normalisers ([getSeverityLabel], [getNVDSeverity]), the two
    fixed-version extractors ([getFixedVersion], [getNVDFixedVersion]),
    the day count and the lifecycle status derived in [initDashboard], the
    batched aggregation loop of [initDashboard] itself, the options it
    makes for the category filter, and the three functions behind the
    controls of the page ([toggleRow], [applyFilters], [resetFilters]).

    The records handled by the script are whatever [JSON.parse] returned, so
    the embedding works on untyped JavaScript values and makes every
    [TypeError] the script can raise explicit in an error monad.  The
    network is an oracle, the clock a parameter, and the order in which the
    promises of a batch settle is an explicit schedule.  Of the markup of
    a row the model keeps the interpolated values and the start tag of
    line 232, with the way the browser reads its attributes back; the
    rest is left to the presentation.  Of the document it keeps what the
    functions of the page read and write.

    The file has three parts: the embedding; the definitions the
    properties are stated with, and example data; the properties. *)

From Stdlib Require Import ZArith QArith Qround Lqa String Ascii List Sorted Bool Lia DecimalString DecimalPos.
From stdpp Require Import base list.
From Equations Require Import Equations.
Import ListNotations.

Local Open Scope string_scope.
Local Open Scope Z_scope.
Local Set Warnings "-register-all".

(** ** The JavaScript values the script manipulates *)

Module JS.

(** A JavaScript number: the value of a double, kept as an exact rational,
    or one of the three non-finite doubles.  Negative zero is identified
    with zero (no operation of the script tells them apart). *)
Inductive number : Type :=
| NaN
| Fin (q : Q)
| PosInf
| NegInf.

(** Values: what [JSON.parse] builds, plus [undefined] (the result of
    reading a missing property) and built-in functions (reading the
    property [fixed] of a string primitive yields [String.prototype.fixed]).
    An object is the ordered list of its own properties. *)
Inductive value : Type :=
| VUndef
| VNull
| VBool (b : bool)
| VNum (n : number)
| VStr (s : string)
| VArr (elems : list value)
| VObj (fields : list (string * value))
| VFun (name : string).

(** Completion of an evaluation: a result, or a thrown [TypeError] (the
    only exception the modelled code can raise by itself). *)
Inductive result (A : Type) : Type :=
| Ok (a : A)
| TypeError.
Arguments Ok {A} a.
Arguments TypeError {A}.

Definition bind {A B : Type} (m : result A) (k : A -> result B) : result B :=
  match m with
  | Ok a => k a
  | TypeError => TypeError
  end.

Declare Scope js_scope.
Delimit Scope js_scope with js.
Notation "x <- m ;; k" := (bind m (fun x => k))
  (at level 100, m at next level, right associativity) : js_scope.
Local Open Scope js_scope.

(** *** Numbers *)

Definition numGe (x : number) (c : Q) : bool :=
  match x with
  | NaN => false
  | Fin q => Qle_bool c q
  | PosInf => true
  | NegInf => false
  end.

Definition numLe (x : number) (c : Q) : bool :=
  match x with
  | NaN => false
  | Fin q => Qle_bool q c
  | PosInf => false
  | NegInf => true
  end.

Definition isNaN (x : number) : bool :=
  match x with
  | NaN => true
  | _ => false
  end.

(** *** Truthiness and nullish values *)

Definition truthy (v : value) : bool :=
  match v with
  | VUndef | VNull => false
  | VBool b => b
  | VNum NaN => false
  | VNum (Fin q) => negb (Qeq_bool q 0)
  | VNum _ => true
  | VStr s => negb (String.eqb s "")
  | VArr _ | VObj _ | VFun _ => true
  end.

Definition nullish (v : value) : bool :=
  match v with
  | VUndef | VNull => true
  | _ => false
  end.

(** [a || b] on values.  Every right operand of [||] in the script is a
    literal or a property read that cannot throw where it stands, so it is
    passed already evaluated. *)
Definition orElse (a b : value) : value := if truthy a then a else b.

(** *** Property access *)

Fixpoint assoc (k : string) (fs : list (string * value)) : option value :=
  match fs with
  | [] => None
  | (k', v) :: rest => if String.eqb k k' then Some v else assoc k rest
  end.

(** [v.k] for a value that is neither [undefined] nor [null], and for the
    property names the script reads as data.  None of those names is defined
    on [Object.prototype], [Array.prototype], [Number.prototype] or
    [Boolean.prototype]; on [String.prototype] only [fixed] is, and a
    function has a [name]. *)
Definition prop (v : value) (k : string) : value :=
  match v with
  | VObj fs => match assoc k fs with Some x => x | None => VUndef end
  | VStr _ => if String.eqb k "fixed" then VFun "fixed" else VUndef
  | VFun n => if String.eqb k "name" then VStr n else VUndef
  | _ => VUndef
  end.

(** [v.k]: reading a property of [undefined] or [null] throws. *)
Definition get (v : value) (k : string) : result value :=
  if nullish v then TypeError else Ok (prop v k).

(** [v?.k] *)
Definition optGet (v : value) (k : string) : value :=
  if nullish v then VUndef else prop v k.

(** [v?.[0]] *)
Definition optIndex0 (v : value) : value :=
  match v with
  | VArr (x :: _) => x
  | VStr (String c _) => VStr (String c "")
  | VObj fs => match assoc "0" fs with Some x => x | None => VUndef end
  | _ => VUndef
  end.

(** The values a [for (const x of v)] loop visits: the elements of an array,
    the characters of a string; anything else is not iterable. *)
Fixpoint chars (s : string) : list value :=
  match s with
  | EmptyString => []
  | String c r => VStr (String c "") :: chars r
  end.

Definition iterate (v : value) : result (list value) :=
  match v with
  | VArr l => Ok l
  | VStr s => Ok (chars s)
  | _ => TypeError
  end.

(** [Array.prototype.find] with a callback that may throw. *)
Fixpoint findM (p : value -> result bool) (l : list value) : result value :=
  match l with
  | [] => Ok VUndef
  | x :: rest =>
      b <- p x ;;
      if b then Ok x else findM p rest
  end.

(** [v?.find(cb)]: [undefined] for a nullish receiver; only arrays have a
    callable [find]. *)
Definition optFind (v : value) (p : value -> result bool) : result value :=
  match v with
  | VUndef | VNull => Ok VUndef
  | VArr l => findM p l
  | _ => TypeError
  end.

(** [v.find(cb)] *)
Definition callFind (v : value) (p : value -> result bool) : result value :=
  match v with
  | VArr l => findM p l
  | _ => TypeError
  end.

(** [a === b] where [b] is a string. *)
Definition strictEqStr (a : value) (s : string) : bool :=
  match a with
  | VStr s' => String.eqb s' s
  | _ => false
  end.

(** *** Strings

    A string is the sequence of its code units; the model keeps the code
    units below 256 (Latin-1), on which white space and case conversion are
    as follows.  The capitals of code units 181 and 255 lie outside this
    range and are left out: [toUpperCase] keeps those two unchanged. *)

(** White space and line terminators: TAB, LF, VT, FF, CR, space, NBSP. *)
Definition isWhite (c : ascii) : bool :=
  let n := nat_of_ascii c in
  ((9 <=? n)%nat && (n <=? 13)%nat) || (n =? 32)%nat || (n =? 160)%nat.

Definition lowerChar (c : ascii) : ascii :=
  let n := nat_of_ascii c in
  if ((65 <=? n)%nat && (n <=? 90)%nat)
     || ((192 <=? n)%nat && (n <=? 222)%nat && negb (n =? 215)%nat)
  then ascii_of_nat (n + 32) else c.

Definition upperChar (c : ascii) : ascii :=
  let n := nat_of_ascii c in
  if ((97 <=? n)%nat && (n <=? 122)%nat)
     || ((224 <=? n)%nat && (n <=? 254)%nat && negb (n =? 247)%nat)
  then ascii_of_nat (n - 32) else c.

Fixpoint toLowerCase (s : string) : string :=
  match s with
  | EmptyString => EmptyString
  | String c r => String (lowerChar c) (toLowerCase r)
  end.

(** The capital of the sharp s (code unit 223) is the two letters SS. *)
Fixpoint toUpperCase (s : string) : string :=
  match s with
  | EmptyString => EmptyString
  | String c r =>
      if (nat_of_ascii c =? 223)%nat then String "S" (String "S" (toUpperCase r))
      else String (upperChar c) (toUpperCase r)
  end.

Fixpoint trimStart (s : string) : string :=
  match s with
  | EmptyString => EmptyString
  | String c r => if isWhite c then trimStart r else s
  end.

Fixpoint trimEnd (s : string) : string :=
  match s with
  | EmptyString => EmptyString
  | String c r =>
      let r' := trimEnd r in
      if isWhite c && String.eqb r' "" then EmptyString else String c r'
  end.

Definition trim (s : string) : string := trimEnd (trimStart s).

(** [hay.includes(needle)] *)
Fixpoint includes (needle hay : string) : bool :=
  if String.prefix needle hay then true
  else match hay with
       | EmptyString => false
       | String _ r => includes needle r
       end.

(** [s.charAt(0)] and [s.slice(1)] *)
Definition charAt0 (s : string) : string :=
  match s with
  | EmptyString => EmptyString
  | String c _ => String c EmptyString
  end.

Definition slice1 (s : string) : string :=
  match s with
  | EmptyString => EmptyString
  | String _ r => r
  end.

Fixpoint dropChars (n : nat) (s : string) : string :=
  match n, s with
  | O, _ => s
  | S n', String _ r => dropChars n' r
  | S _, EmptyString => EmptyString
  end.

(** [s.substring(0, n)] *)
Fixpoint takeChars (n : nat) (s : string) : string :=
  match n, s with
  | S n', String c r => String c (takeChars n' r)
  | _, _ => EmptyString
  end.

(** *** Converting between numbers and strings

    Three things are left to the host and taken as parameters: how a
    decimal literal is rounded to a double ([roundDouble], which may
    overflow to an infinity), how a finite number is printed when it is not
    an integer of magnitude at most 2^53 ([fracToString]) and how a date
    string is read ([Date_parse], the time value in milliseconds, [None]
    for an invalid date). *)

Section Conversions.

Variable roundDouble : Q -> number.
Variable fracToString : Q -> string.

Definition digitOf (base : nat) (c : ascii) : option Z :=
  let n := nat_of_ascii c in
  let d :=
    if ((48 <=? n)%nat && (n <=? 57)%nat) then Some (n - 48)%nat
    else if ((97 <=? n)%nat && (n <=? 102)%nat) then Some (n - 87)%nat
    else if ((65 <=? n)%nat && (n <=? 70)%nat) then Some (n - 55)%nat
    else None in
  match d with
  | Some k => if (k <? base)%nat then Some (Z.of_nat k) else None
  | None => None
  end.

(** The longest run of digits at the head of a string, and what follows. *)
Fixpoint spanDigits (base : nat) (s : string) : list Z * string :=
  match s with
  | EmptyString => ([], s)
  | String c r =>
      match digitOf base c with
      | Some d => let '(ds, rest) := spanDigits base r in (d :: ds, rest)
      | None => ([], s)
      end
  end.

Definition digitsValue (base : Z) (ds : list Z) : Z :=
  fold_left (fun acc d => base * acc + d) ds 0.

Definition isE (c : ascii) : bool :=
  let n := nat_of_ascii c in (n =? 101)%nat || (n =? 69)%nat.

(** An optional exponent part; without digits after the [e] nothing is
    consumed. *)
Definition scanExponent (s : string) : Z * string :=
  match s with
  | String c r =>
      if isE c then
        let '(neg, r1) :=
          match r with
          | String "+" r' => (false, r')
          | String "-" r' => (true, r')
          | _ => (false, r)
          end in
        let '(ds, r2) := spanDigits 10 r1 in
        match ds with
        | [] => (0, s)
        | _ => ((if neg then - digitsValue 10 ds else digitsValue 10 ds), r2)
        end
      else (0, s)
  | EmptyString => (0, s)
  end.

Inductive magnitude : Type :=
| Infinite
| Finite (q : Q).

(** The longest prefix that is an unsigned [StrDecimalLiteral]:
    [Infinity], [d+ . d* exp?], [. d+ exp?] or [d+ exp?]. *)
Definition scanUnsigned (s : string) : option (magnitude * string) :=
  if String.prefix "Infinity" s then Some (Infinite, dropChars 8 s)
  else
    let '(d1, r1) := spanDigits 10 s in
    match r1 with
    | String "." r2 =>
        let '(d2, r3) := spanDigits 10 r2 in
        match d1, d2 with
        | [], [] => None
        | _, _ =>
            let '(e, r4) := scanExponent r3 in
            Some (Finite (inject_Z (digitsValue 10 (d1 ++ d2))
                          * Qpower (10 # 1) (e - Z.of_nat (length d2))), r4)
        end
    | _ =>
        match d1 with
        | [] => None
        | _ =>
            let '(e, r4) := scanExponent r1 in
            Some (Finite (inject_Z (digitsValue 10 d1) * Qpower (10 # 1) e), r4)
        end
    end.

Definition scanSigned (s : string) : option (bool * magnitude * string) :=
  let '(neg, r) :=
    match s with
    | String "+" r' => (false, r')
    | String "-" r' => (true, r')
    | _ => (false, s)
    end in
  match scanUnsigned r with
  | Some (m, rest) => Some (neg, m, rest)
  | None => None
  end.

Definition signedNumber (neg : bool) (m : magnitude) : number :=
  match m with
  | Infinite => if neg then NegInf else PosInf
  | Finite q => roundDouble (if neg then - q else q)%Q
  end.

(** [parseFloat] on a string: leading white space is skipped, the longest
    numeric prefix is read, what follows is ignored. *)
Definition parseFloatString (s : string) : number :=
  match scanSigned (trimStart s) with
  | Some (neg, m, _) => signedNumber neg m
  | None => NaN
  end.

(** [ToNumber] on a string: the whole trimmed string must be a numeric
    literal; the empty string is 0; [0x], [0o] and [0b] literals are read. *)
Definition radixLiteral (s : string) : option (nat * string) :=
  match s with
  | String "0" (String c r) =>
      let n := nat_of_ascii c in
      if (n =? 120)%nat || (n =? 88)%nat then Some (16%nat, r)
      else if (n =? 111)%nat || (n =? 79)%nat then Some (8%nat, r)
      else if (n =? 98)%nat || (n =? 66)%nat then Some (2%nat, r)
      else None
  | _ => None
  end.

Definition stringToNumber (s : string) : number :=
  let t := trim s in
  if String.eqb t "" then Fin 0
  else
    match radixLiteral t with
    | Some (base, r) =>
        match spanDigits base r with
        | (d :: ds, EmptyString) =>
            roundDouble (inject_Z (digitsValue (Z.of_nat base) (d :: ds)))
        | _ => NaN
        end
    | None =>
        match scanSigned t with
        | Some (neg, m, EmptyString) => signedNumber neg m
        | _ => NaN
        end
    end.

(** Decimal digits of an integer. *)
Definition Z_to_string (z : Z) : string :=
  NilZero.string_of_int (Z.to_int z).

Definition isInteger (q : Q) : bool :=
  (Qnum q mod Zpos (Qden q) =? 0).

(** [Number.prototype.toString] prints the shortest digits that read back
    as the same double.  For an integer of magnitude at most 2^53 these are
    all its decimal digits, since every integer of that range is a double
    of its own; any other number is printed by the host. *)
Definition numberToString (n : number) : string :=
  match n with
  | NaN => "NaN"
  | PosInf => "Infinity"
  | NegInf => "-Infinity"
  | Fin q =>
      if isInteger q && (Z.abs (Qnum q / Zpos (Qden q)) <=? 2 ^ 53)
      then Z_to_string (Qnum q / Zpos (Qden q))
      else fracToString q
  end.

(** [ToString], which is also what [v.toString()] returns on a value that
    is not nullish.  An object carrying an own property [toString] (never
    callable in parsed JSON) cannot be converted; an array is the join of
    its elements, with [null] and [undefined] printed as nothing. *)
Fixpoint toStringV (v : value) : result string :=
  match v with
  | VUndef => Ok "undefined"
  | VNull => Ok "null"
  | VBool b => Ok (if b then "true" else "false")
  | VNum n => Ok (numberToString n)
  | VStr s => Ok s
  | VArr l =>
      (fix join (first : bool) (l : list value) : result string :=
         match l with
         | [] => Ok ""
         | x :: rest =>
             sx <- (if nullish x then Ok "" else toStringV x) ;;
             srest <- join false rest ;;
             Ok ((if first then "" else ",") ++ sx ++ srest)
         end) true l
  | VObj fs =>
      match assoc "toString" fs with
      | Some _ => TypeError
      | None => Ok "[object Object]"
      end
  | VFun n => Ok ("function " ++ n ++ "() { [native code] }")
  end.

(** [v.toString()] *)
Definition callToString (v : value) : result string :=
  if nullish v then TypeError else toStringV v.

(** [parseFloat(v)] converts its argument to a string first. *)
Definition parseFloat (v : value) : result number :=
  s <- toStringV v ;;
  Ok (parseFloatString s).

(** [ToNumber], as applied by the relational operators. *)
Definition toNumber (v : value) : result number :=
  match v with
  | VUndef => Ok NaN
  | VNull => Ok (Fin 0)
  | VBool b => Ok (Fin (if b then 1 else 0))
  | VNum n => Ok n
  | VStr s => Ok (stringToNumber s)
  | VArr _ | VObj _ | VFun _ =>
      s <- toStringV v ;;
      Ok (stringToNumber s)
  end.

(** *** Dates *)

Variable Date_parse : string -> option Z.

Definition timeClip (n : number) : option Z :=
  match n with
  | Fin q =>
      let t := if Qle_bool 0 q then Qfloor q else Qceiling q in
      if Z.abs t <=? 8640000000000000 then Some t else None
  | _ => None
  end.

(** The time value of [new Date(v)]. *)
Definition newDate (v : value) : result (option Z) :=
  match v with
  | VUndef | VNull | VBool _ | VNum _ =>
      n <- toNumber v ;;
      Ok (timeClip n)
  | VStr _ | VArr _ | VObj _ | VFun _ =>
      s <- toStringV v ;;
      Ok (Date_parse s)
  end.

End Conversions.

End JS.

Import JS.
Local Open Scope js_scope.

(** ** Promises

    How a promise settles, and what awaiting one gives: its value, an
    exception, or nothing as long as it stays pending. *)

Inductive settled (A : Type) : Type :=
| Fulfilled (a : A)
| Rejected.
Arguments Fulfilled {A} a.
Arguments Rejected {A}.

Inductive awaited (A : Type) : Type :=
| Resolved (a : A)
| Thrown
| Pending.
Arguments Resolved {A} a.
Arguments Thrown {A}.
Arguments Pending {A}.

(** ** The script *)

Section Script.

Variable roundDouble : Q -> number.
Variable fracToString : Q -> string.
Variable Date_parse : string -> option Z.
(** The time value of [new Date()], in milliseconds. *)
Variable now : Z.

Definition BATCH_SIZE : nat := 5.

(** *** Severity of an OSV record (lines 12-31) *)

(** Line 14: [dbSpec.ubuntu_priority || dbSpec.priority || dbSpec.severity
    || dbSpec.level]; [dbSpec] is truthy, so no read can throw. *)
Definition vendorPriority (dbSpec : value) : value :=
  orElse (orElse (orElse (prop dbSpec "ubuntu_priority") (prop dbSpec "priority"))
                 (prop dbSpec "severity"))
         (prop dbSpec "level").

(** Lines 15-21: the label a priority yields, if any. *)
Definition labelOfPriority (priority : value) : option string :=
  if truthy priority then
    match priority with
    | VStr s =>
        let label := toLowerCase (trim s) in
        if includes "crit" label then Some "Critical"
        else if includes "high" label then Some "High"
        else if includes "med" label then Some "Medium"
        else if includes "low" label then Some "Low"
        else None
    | _ => None
    end
  else None.

(** Lines 25-28 and 47-50: the four tiers of a score. *)
Definition scoreTier (score : number) : string :=
  if numGe score 9 then "Critical"
  else if numGe score 7 then "High"
  else if numGe score 4 then "Medium"
  else "Low".

(** Line 22: the callback of [find]. *)
Definition isCvssEntry (s : value) : result bool :=
  t <- get s "type" ;;
  Ok (strictEqStr t "CVSS_V3" || strictEqStr t "CVSS_V2").

(** Lines 22-23: the score that is classified when no label was found. *)
Definition fallbackScore (vuln dbSpec : value) : result number :=
  severity <- get vuln "severity" ;;
  cvssObj <- optFind severity isCvssEntry ;;
  if truthy cvssObj
  then (sc <- get cvssObj "score" ;; parseFloat roundDouble fracToString sc)
  else parseFloat roundDouble fracToString (prop dbSpec "cvss_score").

Definition getSeverityLabel (vuln : value) : result string :=
  ds <- get vuln "database_specific" ;;
  let dbSpec := orElse ds (VObj []) in
  let priority := vendorPriority dbSpec in
  match labelOfPriority priority with
  | Some label => Ok label
  | None =>
      score <- fallbackScore vuln dbSpec ;;
      if negb (isNaN score) then Ok (scoreTier score) else Ok "Unknown"
  end.

(** *** Severity of an NVD record (lines 36-53) *)

(** Line 37 *)
Definition selectMetrics (cve : value) : result value :=
  m <- get cve "metrics" ;;
  Ok (orElse (orElse (optIndex0 (optGet m "cvssMetricV31"))
                     (optIndex0 (optGet m "cvssMetricV30")))
             (optIndex0 (optGet m "cvssMetricV2"))).

(** Line 39 *)
Definition metricsLabel (metrics : value) : value :=
  orElse (optGet (optGet metrics "cvssData") "baseSeverity")
         (optGet metrics "baseSeverity").

(** Line 45 *)
Definition metricsScore (metrics : value) : value :=
  optGet (optGet metrics "cvssData") "baseScore".

Definition getNVDSeverity (cve : value) : result string :=
  metrics <- selectMetrics cve ;;
  let label := metricsLabel metrics in
  if truthy label then
    match label with
    | VStr s =>
        let l := toLowerCase s in
        Ok (toUpperCase (charAt0 l) ++ slice1 l)
    | _ => TypeError
    end
  else
    let score := metricsScore metrics in
    if negb (nullish score) then
      (n <- toNumber roundDouble fracToString score ;; Ok (scoreTier n))
    else Ok "Unknown".

(** *** Fixed versions (lines 58-81) *)

(** A [for ... of] loop whose body either returns from the enclosing
    function ([Some]) or goes on to the next element ([None]). *)
Fixpoint forOf {A : Type} (l : list value) (body : value -> result (option A))
  : result (option A) :=
  match l with
  | [] => Ok None
  | x :: rest =>
      r <- body x ;;
      match r with
      | Some a => Ok (Some a)
      | None => forOf rest body
      end
  end.

(** Line 64 *)
Definition scanMatch (mtch : value) : result (option value) :=
  bound <- get mtch "versionEndExcluding" ;;
  if truthy bound then Ok (Some bound) else Ok None.

(** Lines 62-65: the body of the loop over nodes. *)
Definition scanNode (node : value) : result (option value) :=
  cpeMatch <- get node "cpeMatch" ;;
  if negb (truthy cpeMatch) then Ok None
  else
    matches <- iterate cpeMatch ;;
    forOf matches scanMatch.

(** Lines 61-66: the body of the loop over configurations. *)
Definition scanConfig (config : value) : result (option value) :=
  nodesV <- get config "nodes" ;;
  nodes <- iterate nodesV ;;
  forOf nodes scanNode.

Definition getNVDFixedVersion (cve : value) : result value :=
  configurations <- get cve "configurations" ;;
  if negb (truthy configurations) then Ok (VStr "Not Fixed")
  else
    configs <- iterate configurations ;;
    found <- forOf configs scanConfig ;;
    match found with
    | Some bound => Ok bound
    | None => Ok (VStr "Check NVD")
    end.

(** Line 76: the callback of [find]. *)
Definition hasFixed (e : value) : result bool :=
  f <- get e "fixed" ;;
  Ok (truthy f).

(** Lines 76-77: the body of the loop over ranges. *)
Definition scanRange (range : value) : result (option value) :=
  events <- get range "events" ;;
  fixedEvent <- optFind events hasFixed ;;
  if truthy fixedEvent
  then (f <- get fixedEvent "fixed" ;; Ok (Some f))
  else Ok None.

(** Lines 74-78: the body of the loop over affected entries. *)
Definition scanAffected (affected : value) : result (option value) :=
  rangesV <- get affected "ranges" ;;
  if negb (truthy rangesV) then Ok None
  else
    ranges <- iterate rangesV ;;
    forOf ranges scanRange.

Definition getFixedVersion (vuln : value) : result value :=
  affectedV <- get vuln "affected" ;;
  if negb (truthy affectedV) then Ok (VStr "None")
  else
    affecteds <- iterate affectedV ;;
    found <- forOf affecteds scanAffected ;;
    match found with
    | Some f => Ok f
    | None => Ok (VStr "Not Fixed")
    end.

(** *** Days remaining (lines 107-111)

    Time values are integral and below 2^53 in magnitude, so the division by
    one day and [Math.ceil] are computed exactly. *)

Definition msPerDay : Z := 1000 * 60 * 60 * 24.

Definition ceilDiv (a b : Z) : Z := - ((- a) / b).

Definition calculateDaysRemaining (dateStr : value) : result value :=
  if negb (truthy dateStr) then Ok VNull
  else
    t <- newDate roundDouble fracToString Date_parse dateStr ;;
    match t with
    | Some eol => Ok (VNum (Fin (inject_Z (ceilDiv (eol - now) msPerDay))))
    | None => Ok (VNum NaN)
    end.

(** *** Lifecycle status (lines 214-225 of [initDashboard]) *)

Record Status : Type := mkStatus {
  currentCycle : value;
  daysUntilEol : value;
  isEol : value;
  statusText : string;
  statusClass : string
}.

(** Line 214: the callback of [find]. *)
Definition isCurrent (configItem : value) (r : value) : result bool :=
  name <- get r "name" ;;
  current <- get configItem "current" ;;
  s <- callToString fracToString current ;;
  Ok (strictEqStr name s).

(** Lines 223-224: [daysUntilEol !== null && daysUntilEol <= 90]. *)
Definition withinWarning (days : value) : bool :=
  match days with
  | VNum n => numLe n 90
  | _ => false
  end.

Definition lifecycleStatus (releases configItem : value) : result Status :=
  cycle <- callFind releases (isCurrent configItem) ;;
  days <- calculateDaysRemaining (optGet cycle "eolFrom") ;;
  let eol := if truthy cycle then prop cycle "isEol" else VNull in
  let text0 :=
    if truthy cycle
    then (if truthy eol then "End of Life" else "Maintained")
    else "Version Unknown" in
  if truthy cycle then
    let cls :=
      if truthy eol then "status-eol"
      else if withinWarning days then "status-warning" else "status-active" in
    if negb (truthy eol) && withinWarning days then
      (d <- toStringV fracToString days ;;
       Ok (mkStatus cycle days eol ("EOL in " ++ d ++ " Days") cls))
    else Ok (mkStatus cycle days eol text0 cls)
  else Ok (mkStatus cycle days eol text0 "status-neutral").

(** *** Rendering one tool (lines 207-294)

    The row appended to the table is kept as the sequence of strings the
    template interpolates; the surrounding markup is constant. *)

Definition render (v : value) : result string := toStringV fracToString v.

Fixpoint mapR {A B : Type} (f : A -> result B) (l : list A) : result (list B) :=
  match l with
  | [] => Ok []
  | x :: rest =>
      y <- f x ;;
      ys <- mapR f rest ;;
      Ok (y :: ys)
  end.

Record Advisory : Type := mkAdvisory {
  adv_id : string;
  adv_severity : string;
  adv_badge : string;
  adv_fixed : string;
  adv_description : string
}.

Definition severityBadge (sev : string) : string :=
  if String.eqb sev "Critical" || String.eqb sev "High"
  then "status-eol" else "status-warning".

(** Lines 264-270 *)
Definition osvAdvisory (v : value) : result Advisory :=
  id <- get v "id" ;;
  ids <- render id ;;
  sev <- getSeverityLabel v ;;
  fixed <- getFixedVersion v ;;
  fixeds <- render fixed ;;
  summary <- get v "summary" ;;
  desc <- (if truthy summary then render summary
           else
             details <- get v "details" ;;
             if truthy details then
               match details with
               | VStr d => Ok (takeChars 100 d ++ "...")
               | _ => TypeError
               end
             else Ok "N/A") ;;
  Ok (mkAdvisory ids sev (severityBadge sev) fixeds desc).

(** Lines 280-286 *)
Definition nvdAdvisory (v : value) : result Advisory :=
  cve <- get v "cve" ;;
  id <- get cve "id" ;;
  ids <- render id ;;
  sev <- getNVDSeverity cve ;;
  fixed <- getNVDFixedVersion cve ;;
  fixeds <- render fixed ;;
  let text := optGet (optIndex0 (prop cve "descriptions")) "value" in
  desc <- (if truthy text then
             match text with
             | VStr d => Ok (takeChars 100 d ++ "...")
             | _ => TypeError
             end
           else Ok "N/A") ;;
  Ok (mkAdvisory ids sev (severityBadge sev) fixeds desc).

(** The placeholder of line 239, a dash outside the modelled alphabet, kept
    as the bytes of its UTF-8 encoding; it is only ever copied. *)
Definition emDash : string := "—".

(** Line 254 *)
Definition historyRow (r : value) : result (string * string * string) :=
  name <- get r "name" ;;
  names <- render name ;;
  released <- render (prop r "releaseDate") ;;
  eol <- render (orElse (prop r "eolFrom") (VStr "Maintained")) ;;
  Ok (names, released, eol).

(** Lines 227-228: [Array.isArray(v) && v.length > 0]. *)
Definition found (v : value) : bool :=
  match v with
  | VArr (_ :: _) => true
  | _ => false
  end.

Definition elements (v : value) : list value :=
  match v with
  | VArr l => l
  | _ => []
  end.

(** What one settled per-tool promise carries (line 204). *)
Record TaskResult : Type := mkTaskResult {
  lifecycle : value;
  osvVulns : value;
  nvdVulns : value;
  configItem : value
}.

Record Row : Type := mkRow {
  globalIndex : nat;
  dataEol : string;
  category : string;
  dataDays : string;
  hasAnyVulns : bool;
  label : string;
  currentVersion : string;
  currentReleaseDate : string;
  latestVersion : string;
  latestReleaseDate : string;
  status : Status;
  history : list (string * string * string);
  advisoriesA : list Advisory;
  advisoriesB : list Advisory
}.

(** The callback of [results.forEach]: [None] is the early [return] of a
    tool whose lifecycle carries [error]. *)
Definition processRow (i index : nat) (res : TaskResult) : result (option Row) :=
  err <- get (lifecycle res) "error" ;;
  if truthy err then Ok None
  else
    product <- get (lifecycle res) "result" ;;
    releases <- get product "releases" ;;
    st <- lifecycleStatus releases (configItem res) ;;
    let osvFound := found (osvVulns res) in
    let nvdFound := found (nvdVulns res) in
    eols <- render (isEol st) ;;
    cat <- render (prop product "category") ;;
    days <- render (if nullish (daysUntilEol st) then VNum (Fin 9999) else daysUntilEol st) ;;
    lbl <- render (prop product "label") ;;
    current <- get (configItem res) "current" ;;
    cur <- render current ;;
    curDate <- render (orElse (optGet (currentCycle st) "releaseDate") (VStr emDash)) ;;
    latest <- get (optIndex0 releases) "name" ;;
    latests <- render latest ;;
    latestDate <- render (prop (optIndex0 releases) "releaseDate") ;;
    hist <- mapR historyRow (take 10 (elements releases)) ;;
    advA <- (if osvFound then mapR osvAdvisory (elements (osvVulns res)) else Ok []) ;;
    advB <- (if nvdFound then mapR nvdAdvisory (elements (nvdVulns res)) else Ok []) ;;
    Ok (Some (mkRow (i + index) eols cat days (osvFound || nvdFound) lbl cur curDate
                    latests latestDate st hist advA advB)).

(** *** Fetching (lines 83-105 and 200-205)

    The network is an oracle: what each of the three requests of the tool at
    a given position of the configuration is answered. *)

Inductive response : Type :=
| NetworkError
| Response (ok : bool) (body : option value).

Record World : Type := mkWorld {
  lifecycleResponse : nat -> response;
  osvResponse : nat -> response;
  nvdResponse : nat -> response
}.

Variable world : World.

(** Line 201: a response that is not [ok] becomes [{ error: true }]; a
    failed request or an undecodable body rejects. *)
Definition fetchLifecycle (g : nat) (item : value) : settled value :=
  match (name <- get item "name" ;; render name) with
  | TypeError => Rejected
  | Ok _ =>
      match lifecycleResponse world g with
      | NetworkError => Rejected
      | Response false _ => Fulfilled (VObj [("error", VBool true)])
      | Response true (Some body) => Fulfilled body
      | Response true None => Rejected
      end
  end.

Definition fetchOSVVulnerabilities (g : nat) (packageName version : value) : value :=
  if negb (truthy version) then VArr []
  else
    match callToString fracToString version with
    | TypeError => VStr "Err"
    | Ok _ =>
        match osvResponse world g with
        | Response _ (Some data) =>
            match get data "vulns" with
            | Ok vulns => orElse vulns (VArr [])
            | TypeError => VStr "Err"
            end
        | _ => VStr "Err"
        end
    end.

Definition fetchNVDVulnerabilities (g : nat) (productName version : value) : value :=
  if negb (truthy version) then VArr []
  else
    match (_ <- render productName ;; render version) with
    | TypeError => VStr "Err"
    | Ok _ =>
        match nvdResponse world g with
        | Response true (Some data) =>
            match get data "vulnerabilities" with
            | Ok vulns => orElse vulns (VArr [])
            | TypeError => VStr "Err"
            end
        | _ => VStr "Err"
        end
    end.

(** Lines 200-205: the three awaits of one tool, [g] its position. *)
Definition fetchTool (g : nat) (item : value) : settled TaskResult :=
  match fetchLifecycle g item with
  | Rejected => Rejected
  | Fulfilled lc =>
      Fulfilled (mkTaskResult lc
                   (fetchOSVVulnerabilities g (prop item "name") (prop item "current"))
                   (fetchNVDVulnerabilities g (prop item "name") (prop item "current"))
                   item)
  end.

(** *** [Promise.all]

    The promises of a batch settle in some order, given as a list of
    indices.  Each fulfilment stores its value at the promise's own index;
    the first rejection rejects the whole; the result is delivered once no
    slot is empty, and never if some promise does not settle. *)

Fixpoint settle {A : Type} (order : list nat) (promises : list (settled A))
  (values : list (option A)) : settled (list (option A)) :=
  match order with
  | [] => Fulfilled values
  | k :: rest =>
      match promises !! k with
      | Some (Fulfilled a) => settle rest promises (<[k := Some a]> values)
      | Some Rejected => Rejected
      | None => settle rest promises values
      end
  end.

Fixpoint allFilled {A : Type} (values : list (option A)) : option (list A) :=
  match values with
  | [] => Some []
  | Some a :: rest =>
      match allFilled rest with
      | Some l => Some (a :: l)
      | None => None
      end
  | None :: _ => None
  end.

Definition promiseAll {A : Type} (order : list nat) (promises : list (settled A))
  : awaited (list A) :=
  match settle order promises (replicate (length promises) None) with
  | Rejected => Thrown
  | Fulfilled values =>
      match allFilled values with
      | Some l => Resolved l
      | None => Pending
      end
  end.

(** *** The batch loop (lines 198-298) *)

Inductive phase : Type :=
| Completed
| Failed
| Stalled.

(** What a run leaves behind: the rows appended to the table, the counts
    written to the item counter after each batch (line 296; the width of
    the progress bar, line 295, is left to the presentation), the batches
    that were started, and how the run ended ([Failed]: the [catch] of
    line 298 logged an error; [Stalled]: a promise never settled). *)
Record Run : Type := mkRun {
  rows : list Row;
  progress : list (nat * nat);
  batches : list (list value);
  ending : phase
}.

(** [results.forEach]: rows are appended one by one; an exception leaves
    the rows appended so far. *)
Fixpoint forEachResult (i index : nat) (results : list TaskResult) (acc : list Row)
  : list Row * bool :=
  match results with
  | [] => (acc, false)
  | res :: rest =>
      match processRow i index res with
      | TypeError => (acc, true)
      | Ok None => forEachResult i (S index) rest acc
      | Ok (Some row) => forEachResult i (S index) rest (acc ++ [row])
      end
  end.

(** The order in which the promises of the batch starting at [i] settle. *)
Variable schedule : nat -> list nat.

Definition batchAt (config : list value) (i : nat) : list value :=
  take BATCH_SIZE (drop i config).

Definition batchPromises (i : nat) (batch : list value) : list (settled TaskResult) :=
  imap (fun k item => fetchTool (i + k) item) batch.

Equations batchLoop (config : list value) (i : nat) (st : Run) : Run
  by wf (length config - i)%nat lt :=
batchLoop config i st with decide (i < length config)%nat := {
  | right _ => st
  | left _ with promiseAll (schedule i) (batchPromises i (batchAt config i)) := {
    | Pending =>
        mkRun (rows st) (progress st) (batches st ++ [batchAt config i]) Stalled
    | Thrown =>
        mkRun (rows st) (progress st) (batches st ++ [batchAt config i]) Failed
    | Resolved results with forEachResult i 0 results (rows st) := {
      | (rows', true) =>
          mkRun rows' (progress st) (batches st ++ [batchAt config i]) Failed
      | (rows', false) =>
          batchLoop config (i + BATCH_SIZE)
            (mkRun rows'
               (progress st ++
                  [(Nat.min (i + length (batchAt config i)) (length config),
                    length config)])
               (batches st ++ [batchAt config i])
               (ending st)) } } }.
Next Obligation. unfold BATCH_SIZE. lia. Qed.

(** The part of [initDashboard] that follows the download of the
    configuration. *)
Definition initDashboard (config : list value) : Run :=
  batchLoop config 0 (mkRun [] [] [] Completed).

End Script.

(** ** The page (lines 113-178)

    [toggleRow], [applyFilters] and [resetFilters] read and write the
    document.  The model keeps the elements of the page in document order,
    each with what the three functions read or write: its id, its classes,
    its attributes, the [display] of its inline style, its text and, for a
    form control, its value.  Elements are kept flat: an element on which
    the script sets [textContent] (a button) holds text only, as the
    buttons of line 233 do. *)

Inductive Control : Type :=
| NoValue
| Expando (v : string)
| TextField (v : string)
| Select (options : list string) (selectedIndex : option nat).

Record Element : Type := mkElement {
  elementId : string;
  classList : list string;
  attributes : list (string * string);
  display : string;
  textContent : string;
  control : Control
}.

Abbreviation Document := (list Element).

(** The minus sign of line 126, a character outside the modelled alphabet,
    kept as the bytes of its UTF-8 encoding; it is only ever copied. *)
Definition minusSign : string := "−".

(** [e.value]: the value of a text field; the value of the selected option
    of a select, empty when none is selected; [undefined] ([None]) on an
    element that has no such property, until one is assigned. *)
Definition valueOf (c : Control) : option string :=
  match c with
  | NoValue => None
  | Expando v => Some v
  | TextField v => Some v
  | Select options (Some k) =>
      Some (match options !! k with Some v => v | None => "" end)
  | Select _ None => Some ""
  end.

Fixpoint indexOf (v : string) (options : list string) : option nat :=
  match options with
  | [] => None
  | o :: rest =>
      if String.eqb o v then Some 0%nat
      else match indexOf v rest with
           | Some k => Some (S k)
           | None => None
           end
  end.

(** [e.value = v]: a select takes its first option of that value and is
    left without a selection when there is none. *)
Definition assign (v : string) (c : Control) : Control :=
  match c with
  | NoValue | Expando _ => Expando v
  | TextField _ => TextField v
  | Select options _ => Select options (indexOf v options)
  end.

Definition setValue (v : string) (e : Element) : Element :=
  mkElement (elementId e) (classList e) (attributes e) (display e) (textContent e)
            (assign v (control e)).

Definition setDisplay (d : string) (e : Element) : Element :=
  mkElement (elementId e) (classList e) (attributes e) d (textContent e) (control e).

Definition setTextContent (t : string) (e : Element) : Element :=
  mkElement (elementId e) (classList e) (attributes e) (display e) t (control e).

(** [e.getAttribute(name)], [null] ([None]) for a missing attribute. *)
Fixpoint lookupAttribute (name : string) (attrs : list (string * string))
  : option string :=
  match attrs with
  | [] => None
  | (n, v) :: rest => if String.eqb n name then Some v else lookupAttribute name rest
  end.

Definition getAttribute (e : Element) (name : string) : option string :=
  lookupAttribute name (attributes e).

Definition hasClass (cls : string) (e : Element) : bool :=
  existsb (String.eqb cls) (classList e).

(** [document.getElementById(id)]: the position of the first element with
    that id, [None] for [null]. *)
Fixpoint firstWithId (id : string) (k : nat) (doc : Document) : option nat :=
  match doc with
  | [] => None
  | e :: rest =>
      if String.eqb (elementId e) id then Some k else firstWithId id (S k) rest
  end.

Definition getElementById (doc : Document) (id : string) : option nat :=
  if String.eqb id "" then None else firstWithId id 0 doc.

(** [document.querySelectorAll('.cls')]: the positions of the elements of
    that class, in document order. *)
Definition querySelectorAll (doc : Document) (cls : string) : list nat :=
  List.filter
    (fun k => match doc !! k with Some e => hasClass cls e | None => false end)
    (seq 0 (length doc)).

(** [nodes.forEach(f)] *)
Definition forEach (f : nat -> Document -> Document) (nodes : list nat)
  (doc : Document) : Document :=
  fold_left (fun d k => f k d) nodes doc.

Definition update (k : nat) (f : Element -> Element) (doc : Document) : Document :=
  alter f k doc.

(** Lines 117-119, repeated at lines 136 and 170-172. *)
Definition hideDetails (doc : Document) : Document :=
  forEach (fun r d => update r (setDisplay "none") d)
          (querySelectorAll doc "details-row") doc.

(** Lines 120-122, repeated at lines 137-139 and 173-175. *)
Definition resetButtons (doc : Document) : Document :=
  forEach (fun b d =>
             match d !! b with
             | Some e =>
                 if negb (String.eqb (elementId e) "resetFilters")
                 then update b (setTextContent "+") d else d
             | None => d
             end)
          (querySelectorAll doc "expand-btn") doc.

(** [toggleRow(id, btn)], the button being given by its position (a
    position outside the page stands for an element that is not part of
    it).  The outcome is the page afterwards and whether the call returned
    or threw. *)
Definition toggleRow (id : string) (btn : nat) (doc : Document)
  : Document * result unit :=
  match getElementById doc id with
  | None => (doc, TypeError)
  | Some row =>
      let isOpen :=
        match doc !! row with
        | Some e => String.eqb (display e) "table-row"
        | None => false
        end in
      let doc := resetButtons (hideDetails doc) in
      if negb isOpen then
        (update btn (setTextContent minusSign) (update row (setDisplay "table-row") doc),
         Ok tt)
      else (doc, Ok tt)
  end.

(** [a === b] on strings that may be [null] or [undefined]. *)
Definition isStr (a : option string) (s : string) : bool :=
  match a with
  | Some x => String.eqb x s
  | None => false
  end.

Section Page.

Variable roundDouble : Q -> number.

(** The text the browser reports as [innerText] for the element at a
    position of a page; it depends on how the page is rendered. *)
Variable innerText : Document -> nat -> string.

(** [parseInt(s)] without a radix: leading white space is skipped, a sign
    is read, [0x] announces hexadecimal digits, and the longest run of
    digits is the value; what follows is ignored. *)
Definition radixPrefix (r : string) : nat * string :=
  match r with
  | String "0" (String c r') =>
      let n := nat_of_ascii c in
      if (n =? 120)%nat || (n =? 88)%nat then (16%nat, r') else (10%nat, r)
  | _ => (10%nat, r)
  end.

Definition parseIntDigits (neg : bool) (r : string) : number :=
  let '(base, body) := radixPrefix r in
  match spanDigits base body with
  | ([], _) => NaN
  | (ds, _) =>
      let v := digitsValue (Z.of_nat base) ds in
      roundDouble (inject_Z (if neg then - v else v))
  end.

Definition parseIntString (s : string) : number :=
  match trimStart s with
  | String "+" r => parseIntDigits false r
  | String "-" r => parseIntDigits true r
  | t => parseIntDigits false t
  end.

(** [parseInt(e.getAttribute(name))]: [null] is read as the string
    "null". *)
Definition parseInt (a : option string) : number :=
  parseIntString (match a with Some s => s | None => "null" end).

(** Lines 150-154 *)
Definition matchesMaintenance (m : option string) (isEol : bool) (days : number) : bool :=
  if isStr m "eol" then isEol
  else if isStr m "30" then negb isEol && numLe days 30
  else if isStr m "60" then negb isEol && numLe days 60
  else if isStr m "90" then negb isEol && numLe days 90
  else true.

(** Lines 156-158 *)
Definition matchesSecurity (sec : option string) (hasVulns : bool) : bool :=
  if isStr sec "vulnerable" then hasVulns
  else if isStr sec "secure" then negb hasVulns
  else true.

(** Line 148 *)
Definition matchesCategory (c rowCat : option string) : bool :=
  isStr c "all" ||
  match rowCat, c with
  | Some x, Some y => String.eqb x y
  | _, _ => false
  end.

(** Lines 142-160: whether a tool row stays visible, [text] being its
    [innerText]. *)
Definition rowMatches (s : string) (c m sec : option string) (row : Element)
  (text : string) : bool :=
  let isEol := isStr (getAttribute row "data-eol") "true" in
  let days := parseInt (getAttribute row "data-days") in
  let rowCat := getAttribute row "data-category" in
  let hasVulns := isStr (getAttribute row "data-has-vulns") "true" in
  let matchesSearch := includes s (toUpperCase text) in
  matchesSearch && matchesCategory c rowCat
  && matchesMaintenance m isEol days && matchesSecurity sec hasVulns.

Definition filterRow (s : string) (c m sec : option string) (row : nat)
  (doc : Document) : Document :=
  match doc !! row with
  | Some e =>
      update row
        (setDisplay (if rowMatches s c m sec e (innerText doc row) then "" else "none"))
        doc
  | None => doc
  end.

(** [document.getElementById(id).value] *)
Definition controlValue (doc : Document) (id : string) : result (option string) :=
  match getElementById doc id with
  | Some k =>
      match doc !! k with
      | Some e => Ok (valueOf (control e))
      | None => TypeError
      end
  | None => TypeError
  end.

(** Lines 131-134 *)
Definition readFilters (doc : Document)
  : result (string * option string * option string * option string) :=
  search <- controlValue doc "toolSearch" ;;
  s <- match search with
       | Some v => Ok (toUpperCase v)
       | None => TypeError
       end ;;
  c <- controlValue doc "categoryFilter" ;;
  m <- controlValue doc "maintenanceFilter" ;;
  sec <- controlValue doc "securityFilter" ;;
  Ok (s, c, m, sec).

Definition applyFilters (doc : Document) : Document * result unit :=
  match readFilters doc with
  | TypeError => (doc, TypeError)
  | Ok (s, c, m, sec) =>
      let doc := resetButtons (hideDetails doc) in
      (forEach (filterRow s c m sec) (querySelectorAll doc "row-tool") doc, Ok tt)
  end.

(** [document.getElementById(id).value = v] *)
Definition assignValue (id v : string) (doc : Document) : Document * result unit :=
  match getElementById doc id with
  | Some k => (update k (setValue v) doc, Ok tt)
  | None => (doc, TypeError)
  end.

(** Statements in sequence: the first one that throws ends the call and
    leaves the page as it was then. *)
Definition andThen (m : Document * result unit)
  (k : Document -> Document * result unit) : Document * result unit :=
  match m with
  | (doc, Ok _) => k doc
  | (doc, TypeError) => (doc, TypeError)
  end.

Definition resetFilters (doc : Document) : Document * result unit :=
  andThen (assignValue "toolSearch" "" doc) (fun doc =>
  andThen (assignValue "categoryFilter" "all" doc) (fun doc =>
  andThen (assignValue "maintenanceFilter" "all" doc) (fun doc =>
  andThen (assignValue "securityFilter" "all" doc) (fun doc =>
  applyFilters (resetButtons (hideDetails doc)))))).

End Page.

(** ** The category filter (lines 186-193 of [initDashboard]) *)

(** Membership in a [Set]: primitives by value, an object or an array only
    with itself, and every object of a parsed body is a different one. *)
Definition sameNumber (a b : number) : bool :=
  match a, b with
  | NaN, NaN | PosInf, PosInf | NegInf, NegInf => true
  | Fin p, Fin q => Qeq_bool p q
  | _, _ => false
  end.

Definition sameValueZero (a b : value) : bool :=
  match a, b with
  | VUndef, VUndef | VNull, VNull => true
  | VBool x, VBool y => Bool.eqb x y
  | VNum x, VNum y => sameNumber x y
  | VStr x, VStr y => String.eqb x y
  | VFun x, VFun y => String.eqb x y
  | _, _ => false
  end.

(** [[...new Set(l)]]: the first occurrence of each value, in order. *)
Definition newSet (l : list value) : list value :=
  fold_left (fun seen x =>
               if existsb (sameValueZero x) seen then seen else (seen ++ [x])%list)
            l [].

Fixpoint insertByKey (x : string * value) (l : list (string * value))
  : list (string * value) :=
  match l with
  | [] => [x]
  | y :: rest =>
      if String.leb (fst x) (fst y) then x :: y :: rest
      else y :: insertByKey x rest
  end.

Section Categories.

Variable fracToString : Q -> string.

(** [l.sort()]: [undefined] goes last; the other values are ordered by
    their string forms, code unit by code unit, equal ones keeping their
    order.  With fewer than two such values nothing is compared and no
    string form is computed. *)
Definition isUndef (v : value) : bool :=
  match v with
  | VUndef => true
  | _ => false
  end.

Definition sort (l : list value) : result (list value) :=
  let defined := List.filter (fun v => negb (isUndef v)) l in
  let undefs := List.filter isUndef l in
  match defined with
  | [] | [_] => Ok (defined ++ undefs)%list
  | _ =>
      keyed <- mapR (fun v => k <- toStringV fracToString v ;; Ok (k, v)) defined ;;
      Ok (List.map snd (fold_right insertByKey [] keyed) ++ undefs)%list
  end.

(** Lines 190-191: the value and the text of the option made for a
    category; as text, [null] and [undefined] are the empty string. *)
Definition categoryOption (cat : value) : result (string * string) :=
  v <- toStringV fracToString cat ;;
  Ok (v, match cat with VNull | VUndef => "" | _ => v end).

(** Lines 188-193: the options appended to the category filter, from the
    decoded list of products.  When anything throws, it does so before the
    first option is appended. *)
Definition categoryOptions (productsList : value) : result (list (string * string)) :=
  products <- get productsList "result" ;;
  cats <- match products with
          | VArr ps => mapR (fun p => get p "category") ps
          | _ => TypeError
          end ;;
  categories <- sort (newSet cats) ;;
  mapR categoryOption categories.

End Categories.

(** ** The start tag of a tool row (line 232)

    The template of line 232 writes the class and the four [data-]
    attributes of a tool row between double quotes and does not escape
    what it interpolates.  What [getAttribute] returns afterwards is what
    the parser called by [insertAdjacentHTML] (line 293) made of that
    text: the element of the row carries the attributes of the start tag
    the tokenizer read.  The tokenizer of HTML is modelled for a start
    tag, from its angle bracket on: its name, its attributes and its end.
    What an ampersand stands for in a value is left to the host. *)

Definition doubleQuote : ascii := "034"%char.

Definition quoted (s : string) : string :=
  String doubleQuote (s ++ String doubleQuote "").

(** Line 232 *)
Definition rowStartTag (row : Row) : string :=
  "<tr class=" ++ quoted "row-tool" ++
  " data-eol=" ++ quoted (dataEol row) ++
  " data-category=" ++ quoted (category row) ++
  " data-days=" ++ quoted (dataDays row) ++
  " data-has-vulns=" ++ quoted (if hasAnyVulns row then "true" else "false") ++
  ">".

Record Tag : Type := mkTag {
  tagName : string;
  tagAttributes : list (string * string);
  selfClosing : bool
}.

(** The states of the tokenizer inside a tag; [InReference n st] skips the
    [n] characters of a character reference and goes back to [st]. *)
Inductive TagState : Type :=
| InTagName
| BeforeAttributeName
| InAttributeName
| AfterAttributeName
| BeforeAttributeValue
| InDoubleQuoted
| InSingleQuoted
| InUnquoted
| AfterQuotedValue
| InSelfClosing
| InReference (n : nat) (returnState : TagState).

(** The tag being read: its name, its complete attributes and the
    attribute being read. *)
Record Draft : Type := mkDraft {
  draftName : string;
  complete : list (string * string);
  reading : option (string * string)
}.

Inductive Outcome : Type :=
| Emitted (t : Tag)
| Goes (st : TagState) (p : Draft).

Definition isCode (c : ascii) (n : nat) : bool := (nat_of_ascii c =? n)%nat.

(** Tab, line feed, form feed and space; a carriage return never reaches
    the tokenizer. *)
Definition isTagSpace (c : ascii) : bool :=
  isCode c 9 || isCode c 10 || isCode c 12 || isCode c 32.

Definition isAsciiAlpha (c : ascii) : bool :=
  let n := nat_of_ascii c in
  ((65 <=? n)%nat && (n <=? 90)%nat) || ((97 <=? n)%nat && (n <=? 122)%nat).

Definition asciiLower (c : ascii) : ascii :=
  let n := nat_of_ascii c in
  if (65 <=? n)%nat && (n <=? 90)%nat then ascii_of_nat (n + 32) else c.

(** U+FFFD, a character outside the modelled alphabet, kept as the bytes
    of its UTF-8 encoding. *)
Definition replacementCharacter : string := "�".

(** What a character adds to a name and to a value: in a name capitals
    are lowered; NUL is replaced in both. *)
Definition nameText (c : ascii) : string :=
  if isCode c 0 then replacementCharacter else String (asciiLower c) "".

Definition valueText (c : ascii) : string :=
  if isCode c 0 then replacementCharacter else String c "".

(** The attribute being read is complete; it is dropped when the tag has
    an attribute of that name already. *)
Definition closeAttribute (p : Draft) : Draft :=
  match reading p with
  | None => p
  | Some (n, v) =>
      mkDraft (draftName p)
        (if existsb (String.eqb n) (List.map fst (complete p))
         then complete p else (complete p ++ [(n, v)])%list)
        None
  end.

Definition startAttribute (n : string) (p : Draft) : Draft :=
  mkDraft (draftName p) (complete (closeAttribute p)) (Some (n, "")).

Definition toTagName (s : string) (p : Draft) : Draft :=
  mkDraft (draftName p ++ s) (complete p) (reading p).

Definition toName (s : string) (p : Draft) : Draft :=
  match reading p with
  | Some (n, v) => mkDraft (draftName p) (complete p) (Some (n ++ s, v))
  | None => p
  end.

Definition toValue (s : string) (p : Draft) : Draft :=
  match reading p with
  | Some (n, v) => mkDraft (draftName p) (complete p) (Some (n, v ++ s))
  | None => p
  end.

Definition emit (selfClose : bool) (p : Draft) : Tag :=
  mkTag (draftName p) (complete (closeAttribute p)) selfClose.

Definition afterSkipping (n : nat) (st : TagState) : TagState :=
  match n with
  | O => st
  | S _ => InReference n st
  end.

Section Markup.

(** What an ampersand in an attribute value stands for, given the text
    that follows it: the characters it adds to the value and how many of
    the following characters belong to the reference (an ampersand that
    starts no reference adds itself and takes none). *)
Variable characterReference : string -> string * nat.

Definition inTagName (c : ascii) (p : Draft) : Outcome :=
  if isTagSpace c then Goes BeforeAttributeName p
  else if isCode c 47 then Goes InSelfClosing p
  else if isCode c 62 then Emitted (emit false p)
  else Goes InTagName (toTagName (nameText c) p).

Definition inAttributeName (c : ascii) (p : Draft) : Outcome :=
  if isCode c 61 then Goes BeforeAttributeValue p
  else Goes InAttributeName (toName (nameText c) p).

Definition afterAttributeName (c : ascii) (p : Draft) : Outcome :=
  if isTagSpace c then Goes AfterAttributeName p
  else if isCode c 47 then Goes InSelfClosing p
  else if isCode c 61 then Goes BeforeAttributeValue p
  else if isCode c 62 then Emitted (emit false p)
  else inAttributeName c (startAttribute "" p).

(** A space, a slash or the closing bracket ends a name and is read again
    as what follows a name. *)
Definition endsName (c : ascii) : bool :=
  isTagSpace c || isCode c 47 || isCode c 62.

Definition beforeAttributeName (c : ascii) (p : Draft) : Outcome :=
  if isTagSpace c then Goes BeforeAttributeName p
  else if endsName c then afterAttributeName c p
  else if isCode c 61 then Goes InAttributeName (startAttribute "=" p)
  else inAttributeName c (startAttribute "" p).

Definition reference (st : TagState) (rest : string) (p : Draft) : Outcome :=
  let '(text, n) := characterReference rest in
  Goes (afterSkipping n st) (toValue text p).

Definition inQuoted (st : TagState) (closing : nat) (c : ascii) (rest : string)
  (p : Draft) : Outcome :=
  if isCode c closing then Goes AfterQuotedValue p
  else if isCode c 38 then reference st rest p
  else Goes st (toValue (valueText c) p).

Definition inUnquoted (c : ascii) (rest : string) (p : Draft) : Outcome :=
  if isTagSpace c then Goes BeforeAttributeName p
  else if isCode c 38 then reference InUnquoted rest p
  else if isCode c 62 then Emitted (emit false p)
  else Goes InUnquoted (toValue (valueText c) p).

Definition beforeAttributeValue (c : ascii) (rest : string) (p : Draft) : Outcome :=
  if isTagSpace c then Goes BeforeAttributeValue p
  else if isCode c 34 then Goes InDoubleQuoted p
  else if isCode c 39 then Goes InSingleQuoted p
  else if isCode c 62 then Emitted (emit false p)
  else inUnquoted c rest p.

Definition afterQuotedValue (c : ascii) (p : Draft) : Outcome :=
  if isTagSpace c then Goes BeforeAttributeName p
  else if isCode c 47 then Goes InSelfClosing p
  else if isCode c 62 then Emitted (emit false p)
  else beforeAttributeName c p.

Definition inSelfClosing (c : ascii) (p : Draft) : Outcome :=
  if isCode c 62 then Emitted (emit true p) else beforeAttributeName c p.

(** One character, [rest] being the text after it. *)
Definition step (st : TagState) (c : ascii) (rest : string) (p : Draft) : Outcome :=
  match st with
  | InTagName => inTagName c p
  | BeforeAttributeName => beforeAttributeName c p
  | InAttributeName =>
      if endsName c then afterAttributeName c p else inAttributeName c p
  | AfterAttributeName => afterAttributeName c p
  | BeforeAttributeValue => beforeAttributeValue c rest p
  | InDoubleQuoted => inQuoted InDoubleQuoted 34 c rest p
  | InSingleQuoted => inQuoted InSingleQuoted 39 c rest p
  | InUnquoted => inUnquoted c rest p
  | AfterQuotedValue => afterQuotedValue c p
  | InSelfClosing => inSelfClosing c p
  | InReference n st' => Goes (afterSkipping (Nat.pred n) st') p
  end.

(** The tag, when the text holds its closing bracket; none ([None]) when
    the text ends inside the tag. *)
Fixpoint tokenizeTag (st : TagState) (p : Draft) (input : string) : option Tag :=
  match input with
  | EmptyString => None
  | String c rest =>
      match step st c rest p with
      | Emitted t => Some t
      | Goes st' p' => tokenizeTag st' p' rest
      end
  end.

(** Before the tokenizer reads it, every line break of the text becomes a
    line feed: a carriage return before a line feed is dropped, any other
    becomes one. *)
Fixpoint normalizeNewlines (s : string) : string :=
  match s with
  | EmptyString => EmptyString
  | String c rest =>
      if isCode c 13 then
        match rest with
        | String c' _ =>
            if isCode c' 10 then normalizeNewlines rest
            else String "010" (normalizeNewlines rest)
        | EmptyString => String "010" EmptyString
        end
      else String c (normalizeNewlines rest)
  end.

(** The start tag a text opens with: an angle bracket, a letter, and the
    rest of the tag. *)
Definition startTag (html : string) : option Tag :=
  match normalizeNewlines html with
  | String c (String c' rest) =>
      if isCode c 60 && isAsciiAlpha c'
      then tokenizeTag InTagName (mkDraft "" [] None) (String c' rest)
      else None
  | _ => None
  end.

End Markup.

(** ** Specification-level definitions *)

(** *** Severity *)

(** Line 13: the vendor map of a record, empty when absent. *)
Definition databaseSpecific (vuln : value) : value :=
  orElse (prop vuln "database_specific") (VObj []).

(** The four vendor fields, in their order of precedence. *)
Definition vendorFields : list string :=
  ["ubuntu_priority"; "priority"; "severity"; "level"].

(** The first of the vendor fields that is present, i.e. holds a truthy
    value (a missing field, [null] and the empty string are not). *)
Definition firstPresent (dbSpec : value) : option value :=
  List.find truthy (List.map (prop dbSpec) vendorFields).

(** The classification of a vendor string as the specification words it:
    lowercase, trim, and look for the four keywords in turn. *)
Definition classify (s : string) : option string :=
  let l := trim (toLowerCase s) in
  if includes "crit" l then Some "Critical"
  else if includes "high" l then Some "High"
  else if includes "med" l then Some "Medium"
  else if includes "low" l then Some "Low"
  else None.

(** The label the vendor fields of a record yield, if any. *)
Definition vendorLabel (vuln : value) : option string :=
  match firstPresent (databaseSpecific vuln) with
  | Some (VStr s) => classify s
  | _ => None
  end.

(** The choice as the specification words it: the first vendor field, in
    precedence order, that holds a string (an empty string counting as a
    field that is not present). *)
Definition isPresentString (v : value) : bool :=
  match v with
  | VStr s => negb (String.eqb s "")
  | _ => false
  end.

Definition firstStringField (dbSpec : value) : option string :=
  match List.find isPresentString (List.map (prop dbSpec) vendorFields) with
  | Some (VStr s) => Some s
  | _ => None
  end.

(** The entries [find] accepts on line 22, as a pure test. *)
Definition cvssTyped (e : value) : bool :=
  strictEqStr (prop e "type") "CVSS_V3" || strictEqStr (prop e "type") "CVSS_V2".

(** The severity list of a record conforms to the data model: it is
    absent, or a sequence of entries none of which is [null]. *)
Definition wellFormedSeverity (vuln : value) : Prop :=
  nullish (prop vuln "severity") = true \/
  exists sev, prop vuln "severity" = VArr sev /\
              Forall (fun e => nullish e = false) sev.

(** The first entry of the severity list, in list order, whose type is
    CVSS_V3 or CVSS_V2. *)
Definition cvssEntry (vuln : value) : option value :=
  List.find cvssTyped (elements (prop vuln "severity")).

(** The raw score the record offers: that of its [cvssEntry]; the vendor
    field [cvss_score] when the list has no such entry. *)
Definition scoreField (vuln : value) : value :=
  match cvssEntry vuln with
  | Some e => prop e "score"
  | None => prop (databaseSpecific vuln) "cvss_score"
  end.

(** Lines 24-30: the label of a parsed score. *)
Definition scoreLabel (score : number) : string :=
  if isNaN score then "Unknown" else scoreTier score.

(** What counts as no parseable score: an absent value, or a string in
    which [parseFloat] finds no number. *)
Definition unparseable (roundDouble : Q -> number) (v : value) : Prop :=
  nullish v = true \/
  exists str, v = VStr str /\ parseFloatString roundDouble str = NaN.

(** The four tiers as the specification states them. *)
Definition tierOf (s : Q) (lab : string) : Prop :=
  ((9 <= s)%Q -> lab = "Critical") /\
  ((7 <= s)%Q /\ (s < 9)%Q -> lab = "High") /\
  ((4 <= s)%Q /\ (s < 7)%Q -> lab = "Medium") /\
  ((s < 4)%Q -> lab = "Low").

(** The score of the CVSS v3 entry of a record, if its list has one. *)
Definition v3Score (vuln : value) : option value :=
  option_map (fun e => prop e "score")
    (List.find (fun e => strictEqStr (prop e "type") "CVSS_V3")
       (elements (prop vuln "severity"))).

(** *** Fixed versions *)

Definition isObject (v : value) : bool :=
  match v with
  | VObj _ => true
  | _ => false
  end.

(** The data model of the [affected] part of an OSV record: a sequence of
    objects, each with [ranges] absent or a sequence of objects, each with
    [events] absent or a sequence of objects. *)
Definition okEvents (events : value) : bool :=
  nullish events ||
  match events with
  | VArr es => forallb isObject es
  | _ => false
  end.

Definition okRange (range : value) : bool :=
  isObject range && okEvents (prop range "events").

Definition okRanges (ranges : value) : bool :=
  negb (truthy ranges) ||
  match ranges with
  | VArr rs => forallb okRange rs
  | _ => false
  end.

Definition okAffected (affected : value) : bool :=
  isObject affected && okRanges (prop affected "ranges").

(** All events of an [affected] sequence, in nested scan order, and the
    fix carried by the first event that has one. *)
Definition eventsOf (range : value) : list value :=
  elements (prop range "events").

Definition rangesOf (affected : value) : list value :=
  elements (prop affected "ranges").

Definition allEvents (affected : list value) : list value :=
  flat_map (fun a => flat_map eventsOf (rangesOf a)) affected.

Definition carriesFix (e : value) : bool := truthy (prop e "fixed").

Definition fixOf (e : value) : value := prop e "fixed".

Definition firstFixed (affected : list value) : option value :=
  option_map fixOf (List.find carriesFix (allEvents affected)).

(** The data model of the [configurations] part of an NVD record: a
    sequence of objects, each with a sequence [nodes] of objects, each with
    [cpeMatch] absent or a sequence of objects. *)
Definition okMatches (cpeMatch : value) : bool :=
  negb (truthy cpeMatch) ||
  match cpeMatch with
  | VArr ms => forallb isObject ms
  | _ => false
  end.

Definition okNode (node : value) : bool :=
  isObject node && okMatches (prop node "cpeMatch").

Definition okConfig (config : value) : bool :=
  isObject config &&
  match prop config "nodes" with
  | VArr ns => forallb okNode ns
  | _ => false
  end.

Definition matchesOf (node : value) : list value :=
  elements (prop node "cpeMatch").

Definition nodesOf (config : value) : list value :=
  elements (prop config "nodes").

Definition allMatches (configs : list value) : list value :=
  flat_map (fun c => flat_map matchesOf (nodesOf c)) configs.

Definition carriesBound (m : value) : bool :=
  truthy (prop m "versionEndExcluding").

Definition boundOf (m : value) : value := prop m "versionEndExcluding".

Definition firstBound (configs : list value) : option value :=
  option_map boundOf (List.find carriesBound (allMatches configs)).

(** *** Lifecycle status *)


(** *** Runs of the batch loop *)

(** What the run makes of one tool, taken alone: its promise settles and,
    when fulfilled, its result is rendered.  [Ok None] is a tool skipped
    for a lifecycle carrying [error]; [TypeError] stands for any failure,
    rejection included. *)
Definition toolOutcome (roundDouble : Q -> number) (fracToString : Q -> string)
  (Date_parse : string -> option Z) (now : Z) (world : World)
  (g : nat) (item : value) : result (option Row) :=
  match fetchTool fracToString world g item with
  | Rejected => TypeError
  | Fulfilled res => processRow roundDouble fracToString Date_parse now g 0 res
  end.

(** The rows of a sequence of tools in configuration order, the first tool
    being at position [g]. *)
Fixpoint rowsFrom (roundDouble : Q -> number) (fracToString : Q -> string)
  (Date_parse : string -> option Z) (now : Z) (world : World)
  (g : nat) (items : list value) : list Row :=
  match items with
  | [] => []
  | item :: rest =>
      match toolOutcome roundDouble fracToString Date_parse now world g item with
      | Ok (Some row) => [row]
      | _ => []
      end ++ rowsFrom roundDouble fracToString Date_parse now world (S g) rest
  end.




(** Every promise of every batch settles. *)
Definition everySettles (schedule : nat -> list nat) (config : list value) : Prop :=
  forall i k, (k < length (batchAt config i))%nat -> In k (schedule i).

(** No tool fails in a way the script does not handle: no request rejects
    and no row raises while it is rendered. *)
Definition noUnexpectedError (roundDouble : Q -> number) (fracToString : Q -> string)
  (Date_parse : string -> option Z) (now : Z) (world : World)
  (config : list value) : Prop :=
  forall g item,
    config !! g = Some item ->
    exists r, toolOutcome roundDouble fracToString Date_parse now world g item = Ok r.

(** The address of the lifecycle request of a tool can be built. *)
Definition requestBuilt (fracToString : Q -> string) (item : value) : Prop :=
  exists url, (name <- get item "name" ;; render fracToString name) = Ok url.

(** *** Example data *)

(** A host for closed examples: every literal used below is a double, so
    rounding returns it unchanged; fractions are never printed; one date
    is known. *)
Definition exampleRound (q : Q) : number := Fin (Qred q).
Definition exampleFrac (q : Q) : string := "?".
Definition exampleDate (s : string) : option Z :=
  if String.eqb s "2030-01-01" then Some 1893456000000 else None.

(** An OSV record with a vendor label and a low score. *)
Definition highLabelLowScore : value :=
  VObj [("database_specific", VObj [("priority", VStr " HIGH ")]);
        ("severity", VArr [VObj [("type", VStr "CVSS_V3"); ("score", VStr "2.0")]])].

(** An OSV record whose first vendor field is a number and whose second
    is a label. *)
Definition numberBeforeLabel : value :=
  VObj [("database_specific",
         VObj [("ubuntu_priority", VNum (Fin 5)); ("priority", VStr "high")])].

(** Records with a score and no label. *)
Definition osvScore95 : value :=
  VObj [("severity", VArr [VObj [("type", VStr "CVSS_V3"); ("score", VStr "9.5")]])].

Definition nvdScore7 : value :=
  VObj [("metrics",
         VObj [("cvssMetricV31",
                VArr [VObj [("cvssData", VObj [("baseScore", VNum (Fin 7))])]])])].

(** A severity list whose CVSS v2 entry comes first. *)
Definition v2ThenV3 : value :=
  VObj [("severity",
         VArr [VObj [("type", VStr "CVSS_V2"); ("score", VStr "3.0")];
               VObj [("type", VStr "CVSS_V3"); ("score", VStr "9.5")]])].

(** An NVD record whose base score is a string that is not a number. *)
Definition nvdTextScore : value :=
  VObj [("metrics",
         VObj [("cvssMetricV31",
                VArr [VObj [("cvssData", VObj [("baseScore", VStr "n/a")])]])])].

(** An OSV record whose score is a CVSS vector, not a number. *)
Definition osvVectorScore : value :=
  VObj [("severity",
         VArr [VObj [("type", VStr "CVSS_V3");
                     ("score", VStr "CVSS:3.1/AV:N/AC:L/PR:N/UI:N/S:U/C:H/I:H/A:H")]])].

(** An NVD record with a configuration entry that has no nodes. *)
Definition configWithoutNodes : value :=
  VObj [("configurations", VArr [VObj []])].

(** Records whose first fix, or bound, is found after a few empty turns. *)
Definition osvFixedInSecondRange : value :=
  VObj [("affected",
         VArr [VObj [("package", VStr "p")];
               VObj [("ranges",
                      VArr [VObj [("events", VArr [VObj [("introduced", VStr "0")]])];
                            VObj [("events",
                                   VArr [VObj [("introduced", VStr "1.0")];
                                         VObj [("fixed", VStr "1.4.2")];
                                         VObj [("fixed", VStr "2.0.0")]])]])]])].

Definition nvdBoundInSecondNode : value :=
  VObj [("configurations",
         VArr [VObj [("nodes",
                      VArr [VObj [("operator", VStr "OR")];
                            VObj [("cpeMatch",
                                   VArr [VObj [("vulnerable", VBool true)];
                                         VObj [("versionEndExcluding", VStr "3.1.4")]])]])]])].

(** The release list of the specification's example, 45 days before the end
    of life of release 5.1. *)
Definition exampleReleases : list value :=
  [VObj [("name", VStr "5.2"); ("isEol", VBool true); ("eolFrom", VStr "2030-01-01")];
   VObj [("name", VStr "5.1"); ("isEol", VBool false); ("eolFrom", VStr "2030-01-01")];
   VObj [("name", VStr "5.0"); ("isEol", VBool false); ("eolFrom", VNull)]].

Definition exampleNow : Z := 1893456000000 - 45 * msPerDay + 1000.

(** A lifecycle record, a configured tool and a configuration of [n] such
    tools. *)
Definition exampleLifecycle : value :=
  VObj [("result",
         VObj [("label", VStr "Tool"); ("category", VStr "lang");
               ("releases", VArr exampleReleases)])].

Definition exampleTool : value :=
  VObj [("name", VStr "tool"); ("current", VStr "5.1")].

Definition exampleConfig (n : nat) : list value := replicate n exampleTool.

Definition nvdOneCve : value :=
  VObj [("vulnerabilities", VArr [VObj [("cve", VObj [("id", VStr "CVE-1")])]])].

(** The OSV service cannot be reached, the lifecycle of the tool at
    position 1 is not found (a response that is not a success), and NVD
    knows one CVE for every tool. *)
Definition worldOsvDown : World :=
  mkWorld
    (fun g => if Nat.eqb g 1 then Response false None
              else Response true (Some exampleLifecycle))
    (fun _ => NetworkError)
    (fun _ => Response true (Some nvdOneCve)).



(** The lifecycle response of the tool at position 0 is a success whose
    body cannot be decoded; every other request succeeds. *)
Definition worldUndecodable : World :=
  mkWorld
    (fun g => if Nat.eqb g 0 then Response true None
              else Response true (Some exampleLifecycle))
    (fun _ => Response true (Some (VObj [])))
    (fun _ => Response true (Some (VObj []))).

(** The promises of every batch settle last first. *)
Definition lastFirst (i : nat) : list nat := [4; 3; 2; 1; 0]%nat.

(** Whether a tool, taken alone, renders a row. *)
Definition rendersRow (world : World) (g : nat) : bool :=
  match toolOutcome exampleRound exampleFrac exampleDate exampleNow world g exampleTool with
  | Ok (Some _) => true
  | _ => false
  end.

(** ** Further specification-level definitions *)

(** The five labels of a normalised severity. *)
Definition severityLabels : list string :=
  ["Critical"; "High"; "Medium"; "Low"; "Unknown"].

(** The severity names of the NVD, in lower case. *)
Definition nvdSeverityNames : list string :=
  ["critical"; "high"; "medium"; "low"; "none"].

(** A string with its first character in upper case. *)
Definition capitalised (name : string) : string :=
  toUpperCase (charAt0 name) ++ slice1 name.

(** An NVD record that carries nothing but one entry of the newest
    scheme. *)
Definition onlyV31 (entry : value) : value :=
  VObj [("metrics", VObj [("cvssMetricV31", VArr [entry])])].

(** *** The page *)

(** What no function of the script changes in an element: its id, its
    classes and its attributes. *)
Definition sameElement (e e' : Element) : Prop :=
  elementId e' = elementId e /\ classList e' = classList e /\
  attributes e' = attributes e.

(** An element as the three loops over the details rows and the buttons
    leave it (lines 117-122). *)
Definition collapsed (e : Element) : Element :=
  let e1 := if hasClass "details-row" e then setDisplay "none" e else e in
  if hasClass "expand-btn" e1 && negb (String.eqb (elementId e1) "resetFilters")
  then setTextContent "+" e1 else e1.

(** A control that takes the value [v] when it is assigned: any control
    but a select without such an option. *)
Definition accepts (v : string) (c : Control) : Prop :=
  valueOf (assign v c) = Some v.

(** The element with a given id is a control that accepts [v]. *)
Definition controlAccepts (doc : Document) (id v : string) : Prop :=
  exists k e, getElementById doc id = Some k /\ doc !! k = Some e /\
              accepts v (control e).

(** A page for closed examples: the four controls, the reset button, and
    two tools, each with its row, its expand button and its details row;
    the details of the first tool are open. *)
Definition toolRow (eol cat days vulns : string) : Element :=
  mkElement "" ["row-tool"]
            [("data-eol", eol); ("data-category", cat); ("data-days", days);
             ("data-has-vulns", vulns)]
            "" "" NoValue.

Definition examplePage : Document :=
  [ mkElement "toolSearch" [] [] "" "" (TextField "redis");
    mkElement "categoryFilter" [] [] "" "" (Select ["all"; "db"; "lang"] (Some 1%nat));
    mkElement "maintenanceFilter" [] [] "" ""
              (Select ["all"; "eol"; "30"; "60"; "90"] (Some 2%nat));
    mkElement "securityFilter" [] [] "" ""
              (Select ["all"; "vulnerable"; "secure"] (Some 0%nat));
    mkElement "resetFilters" ["expand-btn"] [] "" "Reset" NoValue;
    toolRow "false" "db" "12" "true";
    mkElement "" ["expand-btn"] [] "" minusSign NoValue;
    mkElement "details-0" ["details-row"] [] "table-row" "" NoValue;
    toolRow "true" "lang" "-40" "false";
    mkElement "" ["expand-btn"] [] "" "+" NoValue;
    mkElement "details-1" ["details-row"] [] "none" "" NoValue ].

(** The text the two tool rows display. *)
Definition exampleInnerText (doc : Document) (k : nat) : string :=
  if Nat.eqb k 5 then "Redis db 7.0"
  else if Nat.eqb k 8 then "Python lang 3.12"
  else "".

(** The digits of a decimal numeral, most significant first. *)
Fixpoint uintDigits (u : Decimal.uint) : list Z :=
  match u with
  | Decimal.Nil => []
  | Decimal.D0 u => 0 :: uintDigits u
  | Decimal.D1 u => 1 :: uintDigits u
  | Decimal.D2 u => 2 :: uintDigits u
  | Decimal.D3 u => 3 :: uintDigits u
  | Decimal.D4 u => 4 :: uintDigits u
  | Decimal.D5 u => 5 :: uintDigits u
  | Decimal.D6 u => 6 :: uintDigits u
  | Decimal.D7 u => 7 :: uintDigits u
  | Decimal.D8 u => 8 :: uintDigits u
  | Decimal.D9 u => 9 :: uintDigits u
  end.

(** A host that rounds no integer a double holds exactly. *)
Definition exactOnIntegers (roundDouble : Q -> number) : Prop :=
  forall z, Z.abs z <= 2 ^ 53 -> roundDouble (inject_Z z) = Fin (inject_Z z).

(** *** The category filter *)

(** The names of a list, each once, in the order of their first
    occurrence; and a list of names put in order. *)
Definition distinctStrings (l : list string) : list string :=
  fold_left (fun seen x => if existsb (String.eqb x) seen then seen else (seen ++ [x])%list)
            l [].

Definition sortStrings (l : list string) : list string :=
  List.map fst (fold_right insertByKey [] (List.map (fun s => (s, VStr s)) l)).

(** The category of a product is the string [s]. *)
Definition hasCategory (s : string) (p : value) : Prop :=
  get p "category" = Ok (VStr s).

(** *** Further example data *)

(** An NVD record whose newest metrics carry a label in capitals and a
    low score. *)
Definition nvdLabelHigh : value :=
  VObj [("metrics",
         VObj [("cvssMetricV31",
                VArr [VObj [("cvssData",
                             VObj [("baseSeverity", VStr "HIGH");
                                   ("baseScore", VNum (Fin 2))])]])])].

(** An NVD record whose newest metrics are an empty entry, next to older
    metrics with a label. *)
Definition nvdEmptyNewest : value :=
  VObj [("metrics",
         VObj [("cvssMetricV31", VArr [VObj []]);
               ("cvssMetricV2", VArr [VObj [("baseSeverity", VStr "HIGH")]])])].

(** Every request succeeds, except that the lifecycle request of the tool
    at position 6 fails. *)
Definition worldSeventhDown : World :=
  mkWorld
    (fun g => if Nat.eqb g 6 then NetworkError
              else Response true (Some exampleLifecycle))
    (fun _ => Response true (Some (VObj [])))
    (fun _ => Response true (Some (VObj []))).

(** Every request succeeds, but the product of the tool at position 6 has
    no release. *)
Definition noReleases : value :=
  VObj [("result",
         VObj [("label", VStr "Tool"); ("category", VStr "lang");
               ("releases", VArr [])])].

Definition worldSeventhEmpty : World :=
  mkWorld
    (fun g => if Nat.eqb g 6 then Response true (Some noReleases)
              else Response true (Some exampleLifecycle))
    (fun _ => Response true (Some (VObj [])))
    (fun _ => Response true (Some (VObj []))).

(** A tool configured without a version. *)
Definition unversionedTool : value :=
  VObj [("name", VStr "tool"); ("current", VStr "")].

(** What the requests of the first tool of [worldOsvDown] deliver. *)
Definition exampleResult : TaskResult :=
  mkTaskResult exampleLifecycle (VStr "Err")
               (VArr [VObj [("cve", VObj [("id", VStr "CVE-1")])]])
               exampleTool.

(** A list of products with three categories, one of them twice. *)
Definition exampleProducts : value :=
  VObj [("result",
         VArr [VObj [("name", VStr "python"); ("category", VStr "lang")];
               VObj [("name", VStr "redis"); ("category", VStr "db")];
               VObj [("name", VStr "go"); ("category", VStr "lang")];
               VObj [("name", VStr "nginx"); ("category", VStr "app")]])].

(** The third promise of every batch never settles. *)
Definition thirdNeverSettles (i : nat) : list nat := [0; 1; 3; 4]%nat.

(** *** The markup of a row *)

Fixpoint allChars (ok : ascii -> bool) (s : string) : bool :=
  match s with
  | EmptyString => true
  | String c rest => ok c && allChars ok rest
  end.

(** A text a double-quoted attribute value holds as it is: it has no
    double quote, no ampersand, no NUL and no carriage return. *)
Definition plainChar (c : ascii) : bool :=
  negb (isCode c 34 || isCode c 38 || isCode c 0 || isCode c 13).

Definition plain (s : string) : bool := allChars plainChar s.

Definition noReturn (s : string) : bool :=
  allChars (fun c => negb (isCode c 13)) s.

(** A host on which no ampersand starts a character reference. *)
Definition noReference (rest : string) : string * nat := ("&", 0%nat).

(** What the requests deliver for a tool on release 5.0, which has no
    end-of-life date, when the category of the product closes its own
    attribute and writes a day count of its own. *)
Definition quoteInCategory : TaskResult :=
  mkTaskResult
    (VObj [("result",
            VObj [("label", VStr "Tool");
                  ("category",
                   VStr ("lang" ++ String doubleQuote
                           (" data-days=" ++ String doubleQuote "5")));
                  ("releases", VArr exampleReleases)])])
    (VArr []) (VArr [])
    (VObj [("name", VStr "tool"); ("current", VStr "5.0")]).

(** ** Properties *)

(** *** Strings *)

Lemma isWhite_lowerChar (c : ascii) : isWhite (lowerChar c) = isWhite c.
Proof. destruct c as [[] [] [] [] [] [] [] []]; reflexivity. Qed.

Lemma toLowerCase_empty (s : string) :
  String.eqb (toLowerCase s) "" = String.eqb s "".
Proof. destruct s; reflexivity. Qed.

Lemma toLowerCase_trimStart (s : string) :
  toLowerCase (trimStart s) = trimStart (toLowerCase s).
Proof.
  induction s as [|c r IH]; simpl; [reflexivity|].
  rewrite isWhite_lowerChar. destruct (isWhite c); [exact IH | reflexivity].
Qed.

Lemma toLowerCase_trimEnd (s : string) :
  toLowerCase (trimEnd s) = trimEnd (toLowerCase s).
Proof.
  induction s as [|c r IH]; simpl; [reflexivity|].
  rewrite isWhite_lowerChar, <- IH, toLowerCase_empty.
  destruct (isWhite c && String.eqb (trimEnd r) ""); reflexivity.
Qed.

Lemma toLowerCase_trim (s : string) :
  toLowerCase (trim s) = trim (toLowerCase s).
Proof. unfold trim. now rewrite toLowerCase_trimEnd, toLowerCase_trimStart. Qed.

(** *** Severity labels of OSV records *)

Ltac split_vendor_fields dbSpec :=
  unfold firstPresent, vendorPriority, orElse, vendorFields; simpl;
  destruct (truthy (prop dbSpec "ubuntu_priority")) eqn:E1;
  destruct (truthy (prop dbSpec "priority")) eqn:E2;
  destruct (truthy (prop dbSpec "severity")) eqn:E3;
  destruct (truthy (prop dbSpec "level")) eqn:E4;
  rewrite ?E1, ?E2, ?E3, ?E4.

Lemma find_narrow {A : Type} (p q : A -> bool) (l : list A) (x : A) :
  (forall y, q y = true -> p y = true) ->
  List.find p l = Some x -> q x = true -> List.find q l = Some x.
Proof.
  intros Hqp. induction l as [|y l IH]; simpl; [discriminate|].
  destruct (p y) eqn:Hp.
  - intros [= ->] Hq. now rewrite Hq.
  - intros Hfind Hq. destruct (q y) eqn:Hqy; [|now apply IH].
    apply Hqp in Hqy. congruence.
Qed.

Lemma find_agree {A : Type} (p q : A -> bool) (l : list A) :
  Forall (fun y => p y = q y) l -> List.find p l = List.find q l.
Proof.
  induction 1 as [|y l Hy _ IH]; simpl; [reflexivity|].
  rewrite Hy. destruct (q y); [reflexivity | exact IH].
Qed.

Lemma isPresentString_truthy (v : value) :
  isPresentString v = true -> truthy v = true.
Proof. destruct v; simpl; congruence. Qed.

Lemma firstPresent_string (dbSpec : value) (s : string) :
  firstPresent dbSpec = Some (VStr s) -> firstStringField dbSpec = Some s.
Proof.
  intros Hfirst. unfold firstStringField.
  assert (Ht : truthy (VStr s) = true).
  { unfold firstPresent in Hfirst. now apply find_some in Hfirst as [_ Ht]. }
  now rewrite (find_narrow truthy isPresentString _ _ isPresentString_truthy Hfirst Ht).
Qed.

Lemma firstStringField_present (dbSpec : value) (s : string) :
  Forall (fun v => truthy v = true -> exists t, v = VStr t)
         (List.map (prop dbSpec) vendorFields) ->
  firstStringField dbSpec = Some s -> firstPresent dbSpec = Some (VStr s).
Proof.
  intros Hall Hs. unfold firstStringField in Hs. unfold firstPresent.
  rewrite (find_agree truthy isPresentString).
  - destruct (List.find isPresentString _) as [[]|]; congruence.
  - eapply Forall_impl; [exact Hall|]. intros v Hv. simpl in Hv.
    destruct (truthy v) eqn:Ht.
    + destruct (Hv eq_refl) as (t & ->). symmetry. exact Ht.
    + destruct (isPresentString v) eqn:Hp; [|reflexivity].
      apply isPresentString_truthy in Hp. congruence.
Qed.

Lemma vendorPriority_firstPresent (dbSpec v : value) :
  firstPresent dbSpec = Some v -> vendorPriority dbSpec = v /\ truthy v = true.
Proof.
  split_vendor_fields dbSpec; try discriminate;
    intros [= <-]; rewrite ?E1, ?E2, ?E3, ?E4; auto.
Qed.

Lemma vendorPriority_absent (dbSpec : value) :
  firstPresent dbSpec = None -> truthy (vendorPriority dbSpec) = false.
Proof.
  split_vendor_fields dbSpec; try discriminate; intros _;
    rewrite ?E1, ?E2, ?E3, ?E4; auto.
Qed.

Lemma labelOfPriority_classify (s : string) :
  truthy (VStr s) = true -> labelOfPriority (VStr s) = classify s.
Proof.
  intros H. unfold labelOfPriority, classify. rewrite H.
  now rewrite toLowerCase_trim.
Qed.

Lemma labelOfPriority_vendorLabel (vuln : value) :
  labelOfPriority (vendorPriority (databaseSpecific vuln)) = vendorLabel vuln.
Proof.
  unfold vendorLabel.
  destruct (firstPresent (databaseSpecific vuln)) as [v|] eqn:Hfirst.
  - apply vendorPriority_firstPresent in Hfirst as [-> Ht].
    destruct v; try (unfold labelOfPriority; rewrite Ht; reflexivity).
    now apply labelOfPriority_classify.
  - apply vendorPriority_absent in Hfirst.
    unfold labelOfPriority. now rewrite Hfirst.
Qed.

Lemma get_not_nullish (v : value) (k : string) :
  nullish v = false -> get v k = Ok (prop v k).
Proof. intros H. unfold get. now rewrite H. Qed.

Lemma Qle_bool_false (a b : Q) : Qle_bool a b = false -> (b < a)%Q.
Proof.
  intros H. apply Qnot_le_lt. intros Hle.
  apply Qle_bool_iff in Hle. congruence.
Qed.

Lemma scoreTier_tierOf (s : Q) : tierOf s (scoreTier (Fin s)).
Proof.
  unfold tierOf, scoreTier, numGe.
  destruct (Qle_bool 9 s) eqn:E9;
    [apply Qle_bool_iff in E9 | apply Qle_bool_false in E9];
  (destruct (Qle_bool 7 s) eqn:E7;
    [apply Qle_bool_iff in E7 | apply Qle_bool_false in E7]);
  (destruct (Qle_bool 4 s) eqn:E4;
    [apply Qle_bool_iff in E4 | apply Qle_bool_false in E4]);
  repeat split; intros; try reflexivity; exfalso; lra.
Qed.

Lemma cvssTyped_object (e : value) :
  cvssTyped e = true -> truthy e = true /\ nullish e = false.
Proof. destruct e; simpl; intros H; try discriminate; auto. Qed.

Lemma isCvssEntry_cvssTyped (e : value) :
  nullish e = false -> isCvssEntry e = Ok (cvssTyped e).
Proof. intros H. unfold isCvssEntry, get. now rewrite H. Qed.

Lemma findM_isCvssEntry (sev : list value) :
  Forall (fun e => nullish e = false) sev ->
  findM isCvssEntry sev =
  Ok (match List.find cvssTyped sev with Some e => e | None => VUndef end).
Proof.
  induction 1 as [|e sev He _ IH]; simpl; [reflexivity|].
  rewrite (isCvssEntry_cvssTyped _ He). simpl.
  destruct (cvssTyped e); [reflexivity | exact IH].
Qed.

Section SeverityProperties.

Variable roundDouble : Q -> number.
Variable fracToString : Q -> string.

Lemma fallbackScore_scoreField (vuln : value) :
  nullish vuln = false ->
  wellFormedSeverity vuln ->
  fallbackScore roundDouble fracToString vuln (databaseSpecific vuln) =
  parseFloat roundDouble fracToString (scoreField vuln).
Proof.
  intros Hv Hwf. unfold fallbackScore, scoreField, cvssEntry.
  rewrite (get_not_nullish _ _ Hv). simpl.
  destruct Hwf as [Hnull | (sev & Hsev & Hall)].
  - destruct (prop vuln "severity"); try discriminate; reflexivity.
  - rewrite Hsev. simpl. rewrite (findM_isCvssEntry _ Hall). simpl.
    destruct (List.find cvssTyped sev) as [e|] eqn:Hfind; [|reflexivity].
    apply find_some in Hfind as [_ He].
    apply cvssTyped_object in He as [Ht Hn].
    rewrite Ht. now rewrite (get_not_nullish _ _ Hn).
Qed.

(** Without a vendor label the record is classified by the score it
    offers. *)
Lemma getSeverityLabel_without_label (vuln : value) :
  nullish vuln = false ->
  vendorLabel vuln = None ->
  wellFormedSeverity vuln ->
  getSeverityLabel roundDouble fracToString vuln =
  (score <- parseFloat roundDouble fracToString (scoreField vuln) ;;
   Ok (scoreLabel score)).
Proof.
  intros Hv Hlab Hwf. unfold getSeverityLabel.
  rewrite (get_not_nullish _ _ Hv). simpl.
  fold (databaseSpecific vuln).
  rewrite labelOfPriority_vendorLabel, Hlab.
  rewrite (fallbackScore_scoreField _ Hv Hwf).
  destruct (parseFloat _ _ _) as [score|]; [|reflexivity].
  simpl. unfold scoreLabel. destruct (isNaN score); reflexivity.
Qed.

(** C1, as amended.  For every OSV record, the vendor fields are
    inspected in the order ubuntu_priority, priority, severity, level, and
    the first one that is present (holds a truthy value) is taken, whatever
    its type.  When it is a string, and that string, lowercased and
    trimmed, contains one of "crit", "high", "med", "low" (looked for in
    that order), the normaliser returns the corresponding label; nothing is
    assumed about the severity list or the numeric score fields of the
    record, so the label wins over any score, well formed or not.  Such a
    string is also the first vendor field that holds a string.  When the
    first present field is not a string, no later field is consulted: the
    record gets no vendor label and is classified by its score.  On
    records whose present vendor fields are all strings, the first string
    field is the one that is classified. *)
Theorem C1_vendor_label_precedence (vuln : value) :
  nullish vuln = false ->
  (forall s lab,
      firstPresent (databaseSpecific vuln) = Some (VStr s) ->
      classify s = Some lab ->
      getSeverityLabel roundDouble fracToString vuln = Ok lab) /\
  (forall s,
      firstPresent (databaseSpecific vuln) = Some (VStr s) ->
      firstStringField (databaseSpecific vuln) = Some s) /\
  (forall v,
      firstPresent (databaseSpecific vuln) = Some v ->
      (forall s, v <> VStr s) ->
      vendorLabel vuln = None /\
      (wellFormedSeverity vuln ->
       getSeverityLabel roundDouble fracToString vuln =
       (score <- parseFloat roundDouble fracToString (scoreField vuln) ;;
        Ok (scoreLabel score)))) /\
  (forall s lab,
      Forall (fun v => truthy v = true -> exists t, v = VStr t)
             (List.map (prop (databaseSpecific vuln)) vendorFields) ->
      firstStringField (databaseSpecific vuln) = Some s ->
      classify s = Some lab ->
      getSeverityLabel roundDouble fracToString vuln = Ok lab).
Proof.
  intros Hv.
  assert (Hlabel : forall s lab,
             firstPresent (databaseSpecific vuln) = Some (VStr s) ->
             classify s = Some lab ->
             getSeverityLabel roundDouble fracToString vuln = Ok lab).
  { intros s lab Hfirst Hlab.
    unfold getSeverityLabel. rewrite (get_not_nullish _ _ Hv). simpl.
    fold (databaseSpecific vuln).
    rewrite labelOfPriority_vendorLabel. unfold vendorLabel.
    now rewrite Hfirst, Hlab. }
  split; [exact Hlabel|]. split; [|split].
  - intros s. apply firstPresent_string.
  - intros v Hfirst Hnot.
    assert (Hnone : vendorLabel vuln = None).
    { unfold vendorLabel. rewrite Hfirst.
      destruct v; try reflexivity. now destruct (Hnot s). }
    split; [exact Hnone|]. intros Hwf.
    exact (getSeverityLabel_without_label _ Hv Hnone Hwf).
  - intros s lab Hall Hs Hlab.
    apply (Hlabel s lab); [|exact Hlab].
    now apply firstStringField_present.
Qed.

(** C4.  Without a usable label, a record whose score is the number [s] is
    classified by tiers, each including its lower bound: Critical from 9,
    High from 7 up to 9, Medium from 4 up to 7, Low below 4.  This holds for
    OSV records (first part) and for NVD records (second part); the third
    part evaluates the boundary examples 9.5, 9.0, 7.0, 4.0 and 3.9. *)
Theorem C4_score_tiers (s : Q) :
  (forall vuln,
      nullish vuln = false ->
      vendorLabel vuln = None ->
      wellFormedSeverity vuln ->
      parseFloat roundDouble fracToString (scoreField vuln) = Ok (Fin s) ->
      exists lab,
        getSeverityLabel roundDouble fracToString vuln = Ok lab /\ tierOf s lab) /\
  (forall cve metrics,
      selectMetrics cve = Ok metrics ->
      truthy (metricsLabel metrics) = false ->
      metricsScore metrics = VNum (Fin s) ->
      exists lab,
        getNVDSeverity roundDouble fracToString cve = Ok lab /\ tierOf s lab) /\
  (scoreTier (Fin (95 # 10)) = "Critical" /\ scoreTier (Fin 9) = "Critical" /\
   scoreTier (Fin 7) = "High" /\ scoreTier (Fin 4) = "Medium" /\
   scoreTier (Fin (39 # 10)) = "Low").
Proof.
  split; [|split].
  - intros vuln Hv Hlab Hwf Hscore.
    exists (scoreTier (Fin s)). split.
    + rewrite (getSeverityLabel_without_label _ Hv Hlab Hwf), Hscore.
      reflexivity.
    + apply scoreTier_tierOf.
  - intros cve metrics Hm Hlab Hscore. exists (scoreTier (Fin s)). split.
    + unfold getNVDSeverity. rewrite Hm. simpl. rewrite Hlab, Hscore.
      reflexivity.
    + apply scoreTier_tierOf.
  - repeat split; reflexivity.
Qed.

(** C5, as amended.  Without a usable label, and with a severity list that
    conforms to the data model, the score classified is that of the first
    entry in list order whose type is CVSS_V3 or CVSS_V2, whichever of the
    two versions it is; the vendor field cvss_score is used only when the
    list has no such entry (or is absent). *)
Theorem C5_first_cvss_entry_wins (vuln : value) :
  nullish vuln = false ->
  vendorLabel vuln = None ->
  wellFormedSeverity vuln ->
  match cvssEntry vuln with
  | Some e =>
      getSeverityLabel roundDouble fracToString vuln =
      (score <- parseFloat roundDouble fracToString (prop e "score") ;;
       Ok (scoreLabel score))
  | None =>
      getSeverityLabel roundDouble fracToString vuln =
      (score <- parseFloat roundDouble fracToString
                  (prop (databaseSpecific vuln) "cvss_score") ;;
       Ok (scoreLabel score))
  end.
Proof.
  intros Hv Hlab Hwf.
  rewrite (getSeverityLabel_without_label _ Hv Hlab Hwf).
  unfold scoreField. destruct (cvssEntry vuln); reflexivity.
Qed.

Lemma parseFloat_unparseable (v : value) :
  unparseable roundDouble v -> parseFloat roundDouble fracToString v = Ok NaN.
Proof.
  intros [Hn | (str & -> & Hs)].
  - destruct v; try discriminate; reflexivity.
  - unfold parseFloat. simpl. now rewrite Hs.
Qed.

(** C6, as amended.  An OSV record with no usable label whose score is
    absent or is a string that does not parse as a number is classified
    Unknown, without any exception.  An NVD record whose selected metrics
    entry has no label and no base score (absent or null) is classified
    Unknown.  An NVD record whose selected entry has no label and a base
    score that is a string never raises either: the string is converted
    to a number and the record is classified by the tiers of that number,
    which gives Low, not Unknown, for a string that is not a number. *)
Theorem C6_unknown_without_label_and_score :
  (forall vuln,
      nullish vuln = false ->
      vendorLabel vuln = None ->
      wellFormedSeverity vuln ->
      unparseable roundDouble (scoreField vuln) ->
      getSeverityLabel roundDouble fracToString vuln = Ok "Unknown") /\
  (forall cve metrics,
      selectMetrics cve = Ok metrics ->
      truthy (metricsLabel metrics) = false ->
      nullish (metricsScore metrics) = true ->
      getNVDSeverity roundDouble fracToString cve = Ok "Unknown") /\
  (forall cve metrics str,
      selectMetrics cve = Ok metrics ->
      truthy (metricsLabel metrics) = false ->
      metricsScore metrics = VStr str ->
      getNVDSeverity roundDouble fracToString cve =
        Ok (scoreTier (stringToNumber roundDouble str)) /\
      (stringToNumber roundDouble str = NaN ->
       getNVDSeverity roundDouble fracToString cve = Ok "Low")).
Proof.
  split; [|split].
  - intros vuln Hv Hlab Hwf Hun.
    rewrite (getSeverityLabel_without_label _ Hv Hlab Hwf).
    now rewrite (parseFloat_unparseable _ Hun).
  - intros cve metrics Hm Hlab Hscore.
    unfold getNVDSeverity. rewrite Hm. simpl. now rewrite Hlab, Hscore.
  - intros cve metrics str Hm Hlab Hscore.
    assert (Hres : getNVDSeverity roundDouble fracToString cve =
                   Ok (scoreTier (stringToNumber roundDouble str))).
    { unfold getNVDSeverity. rewrite Hm. simpl. now rewrite Hlab, Hscore. }
    split; [exact Hres|]. intros Hnan. now rewrite Hres, Hnan.
Qed.

End SeverityProperties.

(** *** Examples for the severity normalisers *)

(** C1 as stated fails: the first vendor field that holds a string is
    "high", which classifies as High, but the field before it holds a
    number; that number is what the normaliser takes, so the record gets
    no label and, having no score either, is classified Unknown. *)
Lemma C1_counterexample :
  firstStringField (databaseSpecific numberBeforeLabel) = Some "high" /\
  classify "high" = Some "High" /\
  firstPresent (databaseSpecific numberBeforeLabel) = Some (VNum (Fin 5)) /\
  getSeverityLabel exampleRound exampleFrac numberBeforeLabel = Ok "Unknown" /\
  getSeverityLabel exampleRound exampleFrac numberBeforeLabel <> Ok "High".
Proof. repeat split; try reflexivity. discriminate. Qed.

Lemma C1_witness :
  getSeverityLabel exampleRound exampleFrac highLabelLowScore = Ok "High" /\
  firstStringField (databaseSpecific highLabelLowScore) = Some " HIGH " /\
  vendorLabel numberBeforeLabel = None /\
  getSeverityLabel exampleRound exampleFrac numberBeforeLabel =
    (score <- parseFloat exampleRound exampleFrac (scoreField numberBeforeLabel) ;;
     Ok (scoreLabel score)).
Proof.
  destruct (C1_vendor_label_precedence exampleRound exampleFrac highLabelLowScore
              eq_refl) as (Hlabel & Hstring & _).
  destruct (C1_vendor_label_precedence exampleRound exampleFrac numberBeforeLabel
              eq_refl) as (_ & _ & Hmasked & _).
  split; [apply (Hlabel " HIGH " "High"); reflexivity|].
  split; [apply (Hstring " HIGH "); reflexivity|].
  destruct (Hmasked (VNum (Fin 5)) eq_refl) as [Hnone Hscore];
    [intros s; discriminate|].
  split; [exact Hnone|]. apply Hscore. left. reflexivity.
Defined.

Lemma C4_witness :
  (exists lab, getSeverityLabel exampleRound exampleFrac osvScore95 = Ok lab /\
               tierOf (19 # 2) lab) /\
  (exists lab, getNVDSeverity exampleRound exampleFrac nvdScore7 = Ok lab /\
               tierOf 7 lab).
Proof.
  split.
  - apply (proj1 (C4_score_tiers exampleRound exampleFrac (19 # 2)) osvScore95);
      try reflexivity.
    right. eexists. split; [reflexivity|]. repeat constructor.
  - apply (proj1 (proj2 (C4_score_tiers exampleRound exampleFrac 7))
             nvdScore7
             (VObj [("cvssData", VObj [("baseScore", VNum (Fin 7))])]));
      reflexivity.
Defined.

(** C5 as stated fails: the list holds a v3 entry scored 9.5 (Critical) and
    a v2 entry scored 3.0; no vendor field yields a label; the v2 entry
    comes first and its score is the one classified. *)
Lemma C5_counterexample :
  vendorLabel v2ThenV3 = None /\
  v3Score v2ThenV3 = Some (VStr "9.5") /\
  (score <- parseFloat exampleRound exampleFrac (VStr "9.5") ;;
   Ok (scoreLabel score)) = Ok "Critical" /\
  getSeverityLabel exampleRound exampleFrac v2ThenV3 = Ok "Low".
Proof. repeat split; reflexivity. Qed.

Lemma C5_witness :
  getSeverityLabel exampleRound exampleFrac v2ThenV3 =
  (score <- parseFloat exampleRound exampleFrac (VStr "3.0") ;;
   Ok (scoreLabel score)).
Proof.
  apply (C5_first_cvss_entry_wins exampleRound exampleFrac v2ThenV3);
    try reflexivity.
  right. eexists. split; [reflexivity|]. repeat constructor.
Defined.

(** C6 as stated fails on NVD records: the record has no label and its
    score, the string "n/a", is no number, yet it is classified Low. *)
Lemma C6_counterexample :
  selectMetrics nvdTextScore =
    Ok (VObj [("cvssData", VObj [("baseScore", VStr "n/a")])]) /\
  truthy (metricsLabel (VObj [("cvssData", VObj [("baseScore", VStr "n/a")])])) = false /\
  parseFloatString exampleRound "n/a" = NaN /\
  stringToNumber exampleRound "n/a" = NaN /\
  getNVDSeverity exampleRound exampleFrac nvdTextScore = Ok "Low" /\
  getNVDSeverity exampleRound exampleFrac nvdTextScore <> Ok "Unknown".
Proof. repeat split; try reflexivity. discriminate. Qed.

Lemma C6_witness :
  getSeverityLabel exampleRound exampleFrac osvVectorScore = Ok "Unknown" /\
  getNVDSeverity exampleRound exampleFrac (VObj []) = Ok "Unknown" /\
  getNVDSeverity exampleRound exampleFrac nvdTextScore = Ok "Low".
Proof.
  destruct (C6_unknown_without_label_and_score exampleRound exampleFrac)
    as (Hosv & Hnvd & Htext).
  split; [|split].
  - apply (Hosv osvVectorScore); try reflexivity.
    + right. eexists. split; [reflexivity|]. repeat constructor.
    + right. eexists. split; reflexivity.
  - apply (Hnvd (VObj []) VUndef); reflexivity.
  - apply (Htext nvdTextScore
             (VObj [("cvssData", VObj [("baseScore", VStr "n/a")])]) "n/a");
      reflexivity.
Defined.

(** *** Records that make the functions raise *)

(** C7, evaluated at a failing input.  An NVD record one of whose
    configuration entries has no nodes field makes the fixed-version
    extractor raise a TypeError (the loop of line 61 iterates over
    [undefined]) instead of returning a sentinel; likewise a label that is
    not a string, a severity list that is not an array and an events field
    that is not an array make the other three functions raise. *)
Theorem C7_missing_nodes_raises :
  getNVDFixedVersion configWithoutNodes = TypeError /\
  getNVDSeverity exampleRound exampleFrac
    (VObj [("metrics", VObj [("cvssMetricV2", VArr [VObj [("baseSeverity", VNum (Fin 5))]])])])
    = TypeError /\
  getSeverityLabel exampleRound exampleFrac (VObj [("severity", VStr "HIGH")]) = TypeError /\
  getFixedVersion
    (VObj [("affected", VArr [VObj [("ranges", VArr [VObj [("events", VObj [])]])]])])
    = TypeError.
Proof. repeat split; reflexivity. Qed.

(** *** Fixed versions *)

Lemma find_app_first {A : Type} (p : A -> bool) (l1 l2 : list A) :
  List.find p (l1 ++ l2) =
  match List.find p l1 with
  | Some x => Some x
  | None => List.find p l2
  end.
Proof.
  induction l1 as [|x l1 IH]; simpl; [reflexivity|].
  destruct (p x); [reflexivity | exact IH].
Qed.

(** A loop whose body returns the first hit among the sub-items of each
    item returns the first hit of the flattened sequence. *)
Lemma forOf_flat_map (items : list value) (body : value -> result (option value))
  (sub : value -> list value) (p : value -> bool) (h : value -> value) :
  Forall (fun x => body x = Ok (option_map h (List.find p (sub x)))) items ->
  forOf items body = Ok (option_map h (List.find p (flat_map sub items))).
Proof.
  induction 1 as [|x items Hx _ IH]; simpl; [reflexivity|].
  rewrite Hx, find_app_first. simpl.
  destruct (List.find p (sub x)); simpl; [reflexivity | exact IH].
Qed.

Lemma isObject_not_nullish (v : value) : isObject v = true -> nullish v = false.
Proof. destruct v; simpl; congruence. Qed.

Lemma isObject_truthy (v : value) : isObject v = true -> truthy v = true.
Proof. destruct v; simpl; congruence. Qed.

Lemma get_object (v : value) (k : string) :
  isObject v = true -> get v k = Ok (prop v k).
Proof. intros H. unfold get. now rewrite (isObject_not_nullish _ H). Qed.

Lemma findM_hasFixed (es : list value) :
  forallb isObject es = true ->
  findM hasFixed es =
  Ok (match List.find carriesFix es with Some e => e | None => VUndef end).
Proof.
  induction es as [|e es IH]; simpl; [reflexivity|].
  intros [He Hes]%andb_prop. unfold hasFixed at 1.
  rewrite (get_object _ _ He). simpl. unfold carriesFix at 1.
  destruct (truthy (prop e "fixed")); [reflexivity | exact (IH Hes)].
Qed.

Lemma scanRange_first (range : value) :
  okRange range = true ->
  scanRange range = Ok (option_map fixOf (List.find carriesFix (eventsOf range))).
Proof.
  intros [Hobj Hev]%andb_prop. unfold scanRange, eventsOf.
  rewrite (get_object _ _ Hobj). simpl.
  destruct (prop range "events") as [| | | | |es| |] eqn:E; try discriminate;
    try reflexivity.
  simpl in Hev |- *. rewrite (findM_hasFixed _ Hev). simpl.
  destruct (List.find carriesFix es) as [e|] eqn:Hfind; [|reflexivity].
  apply find_some in Hfind as [Hin _].
  assert (He : isObject e = true).
  { exact (proj1 (forallb_forall isObject es) Hev e Hin). }
  rewrite (isObject_truthy _ He), (get_object _ _ He). reflexivity.
Qed.

Lemma scanAffected_first (affected : value) :
  okAffected affected = true ->
  scanAffected affected =
  Ok (option_map fixOf (List.find carriesFix (flat_map eventsOf (rangesOf affected)))).
Proof.
  intros [Hobj Hr]%andb_prop. unfold scanAffected, rangesOf.
  rewrite (get_object _ _ Hobj). simpl.
  unfold okRanges in Hr.
  destruct (truthy (prop affected "ranges")) eqn:Ht; simpl in Hr |- *.
  - destruct (prop affected "ranges") as [| | | | |rs| |]; try discriminate.
    simpl. apply forOf_flat_map.
    rewrite forallb_forall in Hr. apply List.Forall_forall.
    intros r Hin. apply scanRange_first. now apply Hr.
  - destruct (prop affected "ranges") as [| | | | |rs| |]; try discriminate;
      reflexivity.
Qed.

Lemma forOf_scanMatch (ms : list value) :
  forallb isObject ms = true ->
  forOf ms scanMatch = Ok (option_map boundOf (List.find carriesBound ms)).
Proof.
  induction ms as [|m ms IH]; simpl; [reflexivity|].
  intros [Hm Hms]%andb_prop. unfold scanMatch at 1.
  rewrite (get_object _ _ Hm). simpl. unfold carriesBound at 1.
  destruct (truthy (prop m "versionEndExcluding")); [reflexivity | exact (IH Hms)].
Qed.

Lemma scanNode_first (node : value) :
  okNode node = true ->
  scanNode node = Ok (option_map boundOf (List.find carriesBound (matchesOf node))).
Proof.
  intros [Hobj Hm]%andb_prop. unfold scanNode, matchesOf.
  rewrite (get_object _ _ Hobj). simpl.
  unfold okMatches in Hm.
  destruct (truthy (prop node "cpeMatch")) eqn:Ht; simpl in Hm |- *.
  - destruct (prop node "cpeMatch") as [| | | | |ms| |]; try discriminate.
    simpl. now apply forOf_scanMatch.
  - destruct (prop node "cpeMatch") as [| | | | |ms| |]; try discriminate;
      reflexivity.
Qed.

Lemma scanConfig_first (config : value) :
  okConfig config = true ->
  scanConfig config =
  Ok (option_map boundOf (List.find carriesBound (flat_map matchesOf (nodesOf config)))).
Proof.
  intros [Hobj Hn]%andb_prop. unfold scanConfig, nodesOf.
  rewrite (get_object _ _ Hobj). simpl.
  destruct (prop config "nodes") as [| | | | |ns| |]; try discriminate.
  simpl. apply forOf_flat_map.
  rewrite forallb_forall in Hn. apply List.Forall_forall.
  intros n Hin. apply scanNode_first. now apply Hn.
Qed.

(** C2, as amended.  On an OSV record the extractor returns "None" when
    [affected] is absent; on an NVD record it returns "Not Fixed" (not
    "None") when [configurations] is absent.  When the data is present and
    conforms to the data model, the result is the value carried by the
    first event with a fix (first match with an upper bound) in nested scan
    order, and "Not Fixed" (OSV) or "Check NVD" (NVD) when there is none.
    The result is a function of the record alone. *)
Theorem C2_fixed_version_sentinels :
  (forall vuln,
      nullish vuln = false ->
      truthy (prop vuln "affected") = false ->
      getFixedVersion vuln = Ok (VStr "None")) /\
  (forall vuln affected,
      nullish vuln = false ->
      prop vuln "affected" = VArr affected ->
      forallb okAffected affected = true ->
      getFixedVersion vuln =
      Ok (match firstFixed affected with
          | Some f => f
          | None => VStr "Not Fixed"
          end)) /\
  (forall cve,
      nullish cve = false ->
      truthy (prop cve "configurations") = false ->
      getNVDFixedVersion cve = Ok (VStr "Not Fixed")) /\
  (forall cve configs,
      nullish cve = false ->
      prop cve "configurations" = VArr configs ->
      forallb okConfig configs = true ->
      getNVDFixedVersion cve =
      Ok (match firstBound configs with
          | Some b => b
          | None => VStr "Check NVD"
          end)) /\
  (forall record,
      getFixedVersion record = getFixedVersion record /\
      getNVDFixedVersion record = getNVDFixedVersion record).
Proof.
  split; [|split; [|split; [|split]]].
  - intros vuln Hv Ht. unfold getFixedVersion.
    rewrite (get_not_nullish _ _ Hv). simpl. now rewrite Ht.
  - intros vuln affected Hv Ha Hok. unfold getFixedVersion.
    rewrite (get_not_nullish _ _ Hv), Ha. simpl.
    unfold firstFixed, allEvents.
    rewrite (forOf_flat_map affected scanAffected
               (fun a => flat_map eventsOf (rangesOf a)) carriesFix fixOf).
    + simpl. now destruct (List.find carriesFix _).
    + rewrite forallb_forall in Hok. apply List.Forall_forall.
      intros a Hin. apply scanAffected_first. now apply Hok.
  - intros cve Hv Ht. unfold getNVDFixedVersion.
    rewrite (get_not_nullish _ _ Hv). simpl. now rewrite Ht.
  - intros cve configs Hv Hc Hok. unfold getNVDFixedVersion.
    rewrite (get_not_nullish _ _ Hv), Hc. simpl.
    unfold firstBound, allMatches.
    rewrite (forOf_flat_map configs scanConfig
               (fun c => flat_map matchesOf (nodesOf c)) carriesBound boundOf).
    + simpl. now destruct (List.find carriesBound _).
    + rewrite forallb_forall in Hok. apply List.Forall_forall.
      intros c Hin. apply scanConfig_first. now apply Hok.
  - intros record. split; reflexivity.
Qed.

(** C2 as stated fails on NVD records: with [configurations] entirely
    absent the extractor returns "Not Fixed", not "None". *)
Lemma C2_counterexample :
  prop (VObj []) "configurations" = VUndef /\
  getNVDFixedVersion (VObj []) = Ok (VStr "Not Fixed") /\
  getNVDFixedVersion (VObj []) <> Ok (VStr "None").
Proof. repeat split; try reflexivity. discriminate. Qed.

Lemma C2_witness :
  getFixedVersion (VObj [("id", VStr "OSV-1")]) = Ok (VStr "None") /\
  getFixedVersion osvFixedInSecondRange = Ok (VStr "1.4.2") /\
  getNVDFixedVersion (VObj [("id", VStr "CVE-1")]) = Ok (VStr "Not Fixed") /\
  getNVDFixedVersion nvdBoundInSecondNode = Ok (VStr "3.1.4").
Proof.
  destruct C2_fixed_version_sentinels as (HA0 & HA1 & HB0 & HB1 & _).
  split; [|split; [|split]].
  - apply HA0; reflexivity.
  - apply (HA1 osvFixedInSecondRange (elements (prop osvFixedInSecondRange "affected")));
      reflexivity.
  - apply HB0; reflexivity.
  - apply (HB1 nvdBoundInSecondNode (elements (prop nvdBoundInSecondNode "configurations")));
      reflexivity.
Defined.

(** *** Lifecycle status *)

Lemma ceilDiv_ceiling (a b : Z) :
  0 < b -> (ceilDiv a b - 1) * b < a <= ceilDiv a b * b.
Proof.
  intros Hb. unfold ceilDiv.
  pose proof (Z.div_mod (- a) b ltac:(lia)) as Hdm.
  pose proof (Z.mod_pos_bound (- a) b Hb) as Hmod.
  nia.
Qed.

Lemma numberToString_integer (fracToString : Q -> string) (d : Z) :
  Z.abs d <= 2 ^ 53 ->
  numberToString fracToString (Fin (inject_Z d)) = Z_to_string d.
Proof.
  intros Hd. unfold numberToString, isInteger, inject_Z. simpl Qnum. simpl Qden.
  rewrite Z.mod_1_r, Z.div_1_r. simpl.
  apply Z.leb_le in Hd. now rewrite Hd.
Qed.

Section LifecycleProperties.

Variable roundDouble : Q -> number.
Variable fracToString : Q -> string.
Variable Date_parse : string -> option Z.
Variable now : Z.



End LifecycleProperties.


(** *** [Promise.all] delivers the values in the order of the promises *)

Lemma allFilled_Some {A : Type} (vals : list A) :
  allFilled (map Some vals) = Some vals.
Proof. induction vals as [|a vals IH]; simpl; [reflexivity | now rewrite IH]. Qed.

Lemma settle_fulfilled {A : Type} (vals : list A) (order : list nat) :
  forall acc : list (option A),
    length acc = length vals ->
    (forall k a, acc !! k = Some (Some a) -> vals !! k = Some a) ->
    exists acc',
      settle order (map Fulfilled vals) acc = Fulfilled acc' /\
      length acc' = length vals /\
      (forall k a, acc' !! k = Some (Some a) -> vals !! k = Some a) /\
      (forall k, (k < length vals)%nat ->
                 In k order \/ (exists a, acc !! k = Some (Some a)) ->
                 exists a, acc' !! k = Some (Some a)).
Proof.
  induction order as [|k order IH]; intros acc Hlen Hagree.
  - exists acc. simpl. repeat split; auto.
    intros j _ [[] | H]. exact H.
  - simpl. change (map Fulfilled vals) with (Fulfilled <$> vals).
    rewrite list_lookup_fmap.
    destruct (vals !! k) as [a|] eqn:Hk; simpl.
    + assert (Hklt : (k < length acc)%nat).
      { rewrite Hlen. eapply lookup_lt_Some. exact Hk. }
      destruct (IH (<[k := Some a]> acc)) as (acc' & Hs & Hl & Ha & Hf).
      * now rewrite length_insert.
      * intros j b Hj. destruct (decide (k = j)) as [<- | Hne].
        -- rewrite list_lookup_insert_eq in Hj by exact Hklt. congruence.
        -- rewrite list_lookup_insert_ne in Hj by exact Hne. now apply Hagree.
      * exists acc'. repeat split; auto.
        intros j Hj Hcase. apply Hf; [exact Hj|].
        destruct (decide (k = j)) as [<- | Hne].
        -- right. exists a. now apply list_lookup_insert_eq.
        -- destruct Hcase as [[Heq | Hin] | (b & Hb)].
           ++ contradiction.
           ++ now left.
           ++ right. exists b. now rewrite list_lookup_insert_ne.
    + destruct (IH acc Hlen Hagree) as (acc' & Hs & Hl & Ha & Hf).
      exists acc'. repeat split; auto.
      intros j Hj Hcase. apply Hf; [exact Hj|].
      destruct Hcase as [[Heq | Hin] | Hb]; [|now left|now right].
      subst j. apply lookup_ge_None in Hk. lia.
Qed.

Lemma promiseAll_resolved {A : Type} (vals : list A) (order : list nat) :
  (forall k, (k < length vals)%nat -> In k order) ->
  promiseAll order (map Fulfilled vals) = Resolved vals.
Proof.
  intros Hcover. unfold promiseAll. rewrite length_map.
  destruct (settle_fulfilled vals order (replicate (length vals) None))
    as (acc' & Hs & Hl & Ha & Hf).
  - apply length_replicate.
  - intros k a Hk. apply lookup_replicate in Hk as [Hk _]. discriminate.
  - rewrite Hs.
    assert (Heq : acc' = map Some vals).
    { apply list_eq. intros j.
      change (map Some vals) with (Some <$> vals). rewrite list_lookup_fmap.
      destruct (decide (j < length vals)%nat) as [Hlt | Hge].
      - destruct (Hf j Hlt (or_introl (Hcover j Hlt))) as (a & Hj).
        rewrite Hj, (Ha _ _ Hj). reflexivity.
      - rewrite (proj2 (lookup_ge_None acc' j)) by lia.
        rewrite (proj2 (lookup_ge_None vals j)) by lia. reflexivity. }
    rewrite Heq, allFilled_Some. reflexivity.
Qed.

Lemma allFilled_inv {A : Type} (values : list (option A)) (l : list A) :
  allFilled values = Some l -> values = map Some l.
Proof.
  revert l. induction values as [|[a|] values IH]; intros l; simpl.
  - now intros [= <-].
  - destruct (allFilled values) as [l'|]; [|discriminate].
    intros [= <-]. simpl. now rewrite (IH l' eq_refl).
  - discriminate.
Qed.

Lemma settle_sound {A : Type} (promises : list (settled A)) (order : list nat) :
  forall acc acc' : list (option A),
    (forall k a, acc !! k = Some (Some a) -> promises !! k = Some (Fulfilled a)) ->
    settle order promises acc = Fulfilled acc' ->
    (forall k a, acc' !! k = Some (Some a) -> promises !! k = Some (Fulfilled a)) /\
    length acc' = length acc.
Proof.
  induction order as [|k order IH]; intros acc acc' Hacc; simpl.
  - intros [= <-]. auto.
  - destruct (promises !! k) as [[a|]|] eqn:Hk; [|discriminate|now apply IH].
    intros Hs. apply IH in Hs as [Hs Hl].
    + split; [exact Hs|]. now rewrite Hl, length_insert.
    + intros j b Hj. apply list_lookup_insert_Some in Hj
        as [(<- & [= <-] & _) | (_ & Hj)]; auto.
Qed.

(** Whenever [Promise.all] delivers an array, every promise was fulfilled
    and the array lists their values in the order of the promises, not in
    the order in which they settled. *)
Lemma promiseAll_resolved_inv {A : Type} (promises : list (settled A))
  (order : list nat) (l : list A) :
  promiseAll order promises = Resolved l -> promises = map Fulfilled l.
Proof.
  unfold promiseAll.
  destruct (settle order promises (replicate (length promises) None))
    as [values|] eqn:Hs; [|discriminate].
  destruct (allFilled values) as [l'|] eqn:Hf; [|discriminate].
  intros [= <-]. apply allFilled_inv in Hf. subst values.
  apply settle_sound in Hs as [Hsound Hlen].
  - rewrite length_map, length_replicate in Hlen.
    apply list_eq. intros k.
    change (map Fulfilled l') with (Fulfilled <$> l'). rewrite list_lookup_fmap.
    destruct (l' !! k) as [a|] eqn:Hk; simpl.
    + apply Hsound. change (map Some l') with (Some <$> l').
      now rewrite list_lookup_fmap, Hk.
    + apply lookup_ge_None. apply lookup_ge_None in Hk. lia.
  - intros k a Hk. apply lookup_replicate in Hk as [Hk _]. discriminate.
Qed.

(** Two orders in which the same fulfilled promises settle give the same
    array. *)
Lemma promiseAll_order_irrelevant {A : Type} (vals : list A) (order1 order2 : list nat) :
  (forall k, (k < length vals)%nat -> In k order1) ->
  (forall k, (k < length vals)%nat -> In k order2) ->
  promiseAll order1 (map Fulfilled vals) = promiseAll order2 (map Fulfilled vals).
Proof. intros H1 H2. now rewrite !promiseAll_resolved. Qed.

(** *** Rows *)

Ltac head_bind x E :=
  lazymatch goal with
  | |- bind ?m _ = _ -> _ => destruct m as [x|] eqn:E; [cbn [bind] | discriminate]
  end.

Lemma mapR_length {A B : Type} (f : A -> result B) (l : list A) :
  forall l', mapR f l = Ok l' -> length l' = length l.
Proof.
  induction l as [|x l IH]; intros l'; simpl.
  - now intros [= <-].
  - destruct (f x); simpl; [|discriminate].
    destruct (mapR f l) as [ys|]; simpl; [|discriminate].
    intros [= <-]. simpl. now rewrite (IH ys eq_refl).
Qed.

Lemma mapR_lookup {A B : Type} (f : A -> result B) (l : list A) :
  forall l' j x,
    mapR f l = Ok l' -> l !! j = Some x ->
    exists y, l' !! j = Some y /\ f x = Ok y.
Proof.
  induction l as [|a l IH]; intros l' j x; simpl; [discriminate|].
  destruct (f a) as [b|] eqn:Hb; simpl; [|discriminate].
  destruct (mapR f l) as [ys|]; simpl; [|discriminate].
  intros [= <-]. destruct j as [|j]; simpl.
  - intros [= <-]. eauto.
  - intros Hx. exact (IH ys j x eq_refl Hx).
Qed.

Lemma get_prop (v w : value) (k : string) : get v k = Ok w -> w = prop v k.
Proof. unfold get. destruct (nullish v); [discriminate|]. now intros [= <-]. Qed.





Section DriverProperties.

Variable roundDouble : Q -> number.
Variable fracToString : Q -> string.
Variable Date_parse : string -> option Z.
Variable now : Z.
Variable world : World.

Ltac step_row H :=
  match type of H with
  | context [bind ?m _] =>
      let E := fresh "E" in
      destruct m eqn:E; simpl in H; [|discriminate H]
  | context [if ?b then _ else _] =>
      let E := fresh "E" in
      destruct b eqn:E; simpl in H
  end.

(** What a rendered row records of its tool. *)
Lemma processRow_row (i index : nat) (res : TaskResult) (row : Row) :
  processRow roundDouble fracToString Date_parse now i index res = Ok (Some row) ->
  globalIndex row = (i + index)%nat /\
  truthy (prop (lifecycle res) "error") = false /\
  hasAnyVulns row = found (osvVulns res) || found (nvdVulns res) /\
  (found (osvVulns res) = false -> advisoriesA row = []) /\
  (found (nvdVulns res) = false -> advisoriesB row = []).
Proof.
  intros H. unfold processRow in H.
  destruct (get (lifecycle res) "error") as [err|] eqn:Eerr; simpl in H;
    [|discriminate H].
  assert (Herr : err = prop (lifecycle res) "error").
  { unfold get in Eerr. destruct (nullish (lifecycle res)); congruence. }
  subst err.
  destruct (truthy (prop (lifecycle res) "error")) eqn:Et; [discriminate H|].
  repeat step_row H. inversion H; subst; clear H. simpl.
  split; [reflexivity|]. split; [reflexivity|]. split; [reflexivity|].
  split; intros Hf;
    match goal with
    | E : (if found _ then _ else _) = Ok ?a |- ?a = [] =>
        rewrite Hf in E; congruence
    end.
Qed.


Lemma processRow_index (i index : nat) (res : TaskResult) :
  processRow roundDouble fracToString Date_parse now i index res =
  processRow roundDouble fracToString Date_parse now (i + index) 0 res.
Proof. unfold processRow. now rewrite Nat.add_0_r. Qed.

Local Abbreviation outcomeOf := (toolOutcome roundDouble fracToString Date_parse now world).
Local Abbreviation rowsOf := (rowsFrom roundDouble fracToString Date_parse now world).

Lemma toolOutcome_row (g : nat) (item : value) (row : Row) :
  outcomeOf g item = Ok (Some row) ->
  exists lc,
    fetchLifecycle fracToString world g item = Fulfilled lc /\
    truthy (prop lc "error") = false /\
    globalIndex row = g /\
    hasAnyVulns row =
      found (fetchOSVVulnerabilities fracToString world g (prop item "name") (prop item "current"))
      || found (fetchNVDVulnerabilities fracToString world g (prop item "name") (prop item "current")) /\
    (found (fetchOSVVulnerabilities fracToString world g (prop item "name") (prop item "current")) = false ->
     advisoriesA row = []).
Proof.
  unfold toolOutcome, fetchTool.
  destruct (fetchLifecycle fracToString world g item) as [lc|]; [|discriminate].
  intros H. apply processRow_row in H as (Hg & He & Hv & Ha & _).
  exists lc. simpl in *. rewrite Nat.add_0_r in Hg. auto.
Qed.





Lemma rowsFrom_app (g : nat) (l1 l2 : list value) :
  rowsOf g (l1 ++ l2)%list = (rowsOf g l1 ++ rowsOf (g + length l1) l2)%list.
Proof.
  revert g. induction l1 as [|x l1 IH]; intros g; simpl.
  - now rewrite Nat.add_0_r.
  - rewrite IH, <- app_assoc. now rewrite Nat.add_succ_r.
Qed.

Lemma rowsFrom_In (row : Row) (items : list value) :
  forall g,
    In row (rowsOf g items) <->
    exists k item, items !! k = Some item /\
                   outcomeOf (g + k) item = Ok (Some row).
Proof.
  induction items as [|x items IH]; intros g; simpl.
  - split; [intros [] | intros (k & item & H & _); discriminate].
  - rewrite in_app_iff, IH. split.
    + intros [H | (k & item & Hk & Hrow)].
      * exists 0%nat, x. rewrite Nat.add_0_r. split; [reflexivity|].
        destruct (outcomeOf g x) as [[r|]|]; try contradiction.
        destruct H as [<- | []]. reflexivity.
      * exists (S k), item. split; [exact Hk|]. now rewrite Nat.add_succ_r.
    + intros (k & item & Hk & Hrow). destruct k as [|k].
      * left. injection Hk as <-. rewrite Nat.add_0_r in Hrow.
        rewrite Hrow. now left.
      * right. exists k, item. split; [exact Hk|]. now rewrite Nat.add_succ_r in Hrow.
Qed.

(** The promises of a batch whose tools do not fail are all fulfilled, and
    the loop over their results appends the rows of the batch in order. *)
Lemma batch_results (batch : list value) :
  forall g,
    (forall k item, batch !! k = Some item ->
                    exists r, outcomeOf (g + k) item = Ok r) ->
    exists results,
      batchPromises fracToString world g batch = map Fulfilled results /\
      forall i index acc,
        (i + index = g)%nat ->
        forEachResult roundDouble fracToString Date_parse now i index results acc =
        ((acc ++ rowsOf g batch)%list, false).
Proof.
  unfold batchPromises.
  induction batch as [|item batch IH]; intros g Hok.
  - exists []. split; [reflexivity|]. intros. simpl. now rewrite app_nil_r.
  - destruct (Hok 0%nat item eq_refl) as (r & Hr).
    rewrite Nat.add_0_r in Hr.
    destruct (IH (S g)) as (results & Hp & Hrows).
    { intros k it Hk. destruct (Hok (S k) it Hk) as (r' & Hr').
      exists r'. now rewrite Nat.add_succ_r in Hr'. }
    pose proof Hr as Hr0. unfold toolOutcome in Hr0.
    destruct (fetchTool fracToString world g item) as [res|] eqn:Hres;
      [|discriminate Hr0].
    exists (res :: results). split.
    + rewrite imap_cons. simpl. rewrite Nat.add_0_r, Hres. f_equal.
      rewrite <- Hp. apply imap_ext. intros k it _. simpl.
      now rewrite Nat.add_succ_r.
    + intros i index acc Hg. simpl.
      rewrite processRow_index, Hg, Hr0, Hr.
      destruct r as [row|].
      * rewrite (Hrows i (S index) (acc ++ [row])%list) by lia.
        now rewrite <- app_assoc.
      * now rewrite (Hrows i (S index) acc) by lia.
Qed.

(** Conversely: when the promises of a batch are all fulfilled and the
    loop over their results raises nothing, no tool of the batch failed and
    the rows appended are those of the batch in order. *)
Lemma batch_completed (batch : list value) :
  forall g results,
    batchPromises fracToString world g batch = map Fulfilled results ->
    forall i index acc rows',
      (i + index = g)%nat ->
      forEachResult roundDouble fracToString Date_parse now i index results acc
        = (rows', false) ->
      rows' = (acc ++ rowsOf g batch)%list /\
      (forall k item, batch !! k = Some item ->
                      exists r, outcomeOf (g + k) item = Ok r).
Proof.
  unfold batchPromises.
  induction batch as [|item batch IH]; intros g results Hp i index acc rows' Hg Hrows.
  - destruct results; [|discriminate Hp]. simpl in Hrows.
    injection Hrows as <-. simpl. rewrite app_nil_r. split; [reflexivity|].
    intros k item Hk. discriminate Hk.
  - rewrite imap_cons in Hp. destruct results as [|res results]; [discriminate Hp|].
    simpl in Hp. injection Hp as Hres Hp. rewrite Nat.add_0_r in Hres.
    assert (Hp' : imap (fun k it => fetchTool fracToString world (S g + k) it) batch
                  = map Fulfilled results).
    { rewrite <- Hp. apply imap_ext. intros k it _. simpl.
      now rewrite Nat.add_succ_r. }
    simpl in Hrows. rewrite processRow_index, Hg in Hrows.
    assert (Hout : outcomeOf g item =
                   processRow roundDouble fracToString Date_parse now g 0 res).
    { unfold toolOutcome. now rewrite Hres. }
    simpl. rewrite Hout.
    destruct (processRow roundDouble fracToString Date_parse now g 0 res)
      as [[row|]|] eqn:Hrow; [| |discriminate Hrows].
    + destruct (IH (S g) results Hp' i (S index) (acc ++ [row])%list rows')
        as [Hr Hall]; [lia | exact Hrows |].
      split; [now rewrite Hr, <- app_assoc|].
      intros [|k] it Hk.
      * injection Hk as <-. rewrite Nat.add_0_r, Hout. eauto.
      * rewrite Nat.add_succ_r. now apply Hall.
    + destruct (IH (S g) results Hp' i (S index) acc rows')
        as [Hr Hall]; [lia | exact Hrows |].
      split; [exact Hr|].
      intros [|k] it Hk.
      * injection Hk as <-. rewrite Nat.add_0_r, Hout. eauto.
      * rewrite Nat.add_succ_r. now apply Hall.
Qed.

(** *** The batch loop *)

Variable schedule : nat -> list nat.

Local Abbreviation loop :=
  (batchLoop roundDouble fracToString Date_parse now world schedule).

Lemma batchAt_lookup (config : list value) (i k : nat) (item : value) :
  batchAt config i !! k = Some item -> config !! (i + k)%nat = Some item.
Proof.
  unfold batchAt. intros H.
  apply lookup_take_Some in H as [H _]. now rewrite lookup_drop in H.
Qed.

Lemma loop_end (config : list value) (i : nat) (st : Run) :
  (length config <= i)%nat -> loop config i st = st.
Proof.
  intros Hge. rewrite batchLoop_equation_1.
  destruct (decide (i < length config)%nat); [lia | reflexivity].
Qed.

Lemma loop_step (config : list value) (i : nat) (st : Run) :
  (i < length config)%nat ->
  everySettles schedule config ->
  noUnexpectedError roundDouble fracToString Date_parse now world config ->
  loop config i st =
  loop config (i + BATCH_SIZE)
    (mkRun (rows st ++ rowsOf i (batchAt config i))%list
           (progress st ++
              [(Nat.min (i + length (batchAt config i)) (length config),
                length config)])%list
           (batches st ++ [batchAt config i])%list
           (ending st)).
Proof.
  intros Hlt Hsettle Hok.
  destruct (batch_results (batchAt config i) i) as (results & Hp & Hrows).
  { intros k item Hk. apply (Hok (i + k)%nat). now apply batchAt_lookup. }
  assert (Hlen : length results = length (batchAt config i)).
  { apply (f_equal (@length _)) in Hp.
    unfold batchPromises in Hp. now rewrite length_imap, length_map in Hp. }
  rewrite batchLoop_equation_1.
  destruct (decide (i < length config)%nat) as [Hi|]; [|lia].
  simpl. rewrite Hp, promiseAll_resolved.
  - simpl. rewrite (Hrows i 0%nat (rows st)) by lia. reflexivity.
  - intros k Hk. apply Hsettle. lia.
Qed.

Lemma loop_rows (config : list value) :
  everySettles schedule config ->
  noUnexpectedError roundDouble fracToString Date_parse now world config ->
  forall m i st,
    (length config - i <= m)%nat ->
    rows (loop config i st) = (rows st ++ rowsOf i (drop i config))%list /\
    ending (loop config i st) = ending st.
Proof.
  intros Hsettle Hok. induction m as [|m IH]; intros i st Hm.
  - rewrite loop_end by lia. rewrite drop_ge by lia. simpl.
    now rewrite app_nil_r.
  - destruct (decide (i < length config)%nat) as [Hlt | Hge].
    + rewrite (loop_step _ _ _ Hlt Hsettle Hok).
      destruct (IH (i + BATCH_SIZE)%nat
                  (mkRun (rows st ++ rowsOf i (batchAt config i))%list
                     (progress st ++
                        [(Nat.min (i + length (batchAt config i)) (length config),
                          length config)])%list
                     (batches st ++ [batchAt config i])%list
                     (ending st))) as [Hr He].
      { unfold BATCH_SIZE. lia. }
      rewrite Hr, He. simpl. split; [|reflexivity].
      rewrite <- app_assoc. f_equal.
      transitivity (rowsOf i (take BATCH_SIZE (drop i config) ++
                              drop BATCH_SIZE (drop i config))%list);
        [|now rewrite take_drop].
      rewrite rowsFrom_app. unfold batchAt. f_equal. rewrite drop_drop.
      destruct (decide (BATCH_SIZE <= length (drop i config))%nat) as [Hfull | Hshort].
      * now rewrite length_take_le by exact Hfull.
      * rewrite (drop_ge config (i + BATCH_SIZE)).
        -- reflexivity.
        -- rewrite length_drop in Hshort. lia.
    + rewrite loop_end by lia. rewrite drop_ge by lia. simpl.
      now rewrite app_nil_r.
Qed.

(** A run in which every promise settles and no tool fails completes, and
    its rows are those of the tools in configuration order, whatever the
    order in which the promises settled. *)
Lemma run_rows (config : list value) :
  everySettles schedule config ->
  noUnexpectedError roundDouble fracToString Date_parse now world config ->
  rows (initDashboard roundDouble fracToString Date_parse now world schedule config)
    = rowsOf 0 config /\
  ending (initDashboard roundDouble fracToString Date_parse now world schedule config)
    = Completed.
Proof.
  intros Hsettle Hok. unfold initDashboard.
  destruct (loop_rows config Hsettle Hok (length config) 0%nat
              (mkRun [] [] [] Completed)) as [Hr He]; [lia|].
  rewrite Hr, He. simpl. now rewrite drop_0.
Qed.

Local Abbreviation run :=
  (initDashboard roundDouble fracToString Date_parse now world schedule).

(** One turn of the loop in a run that completes. *)
Lemma loop_step_completed (config : list value) (i : nat) (st : Run) :
  (i < length config)%nat ->
  ending (loop config i st) = Completed ->
  loop config i st =
  loop config (i + BATCH_SIZE)
    (mkRun (rows st ++ rowsOf i (batchAt config i))%list
           (progress st ++
              [(Nat.min (i + length (batchAt config i)) (length config),
                length config)])%list
           (batches st ++ [batchAt config i])%list
           (ending st)) /\
  (forall k item, batchAt config i !! k = Some item ->
                  exists r, outcomeOf (i + k) item = Ok r).
Proof.
  intros Hlt. rewrite batchLoop_equation_1.
  destruct (decide (i < length config)%nat) as [Hi|]; [|lia]. simpl.
  destruct (promiseAll (schedule i) (batchPromises fracToString world i (batchAt config i)))
    as [results| |] eqn:Hp; simpl; try discriminate.
  apply promiseAll_resolved_inv in Hp.
  destruct (forEachResult roundDouble fracToString Date_parse now i 0 results (rows st))
    as [rows' [|]] eqn:Hrows; simpl; try discriminate.
  intros _.
  destruct (batch_completed _ _ _ Hp i 0%nat (rows st) rows') as [-> Hall];
    [lia | exact Hrows |].
  split; [reflexivity | exact Hall].
Qed.

Lemma loop_completed (config : list value) :
  forall m i st,
    (length config - i <= m)%nat ->
    ending (loop config i st) = Completed ->
    ending st = Completed /\
    rows (loop config i st) = (rows st ++ rowsOf i (drop i config))%list /\
    (forall k item, drop i config !! k = Some item ->
                    exists r, outcomeOf (i + k) item = Ok r).
Proof.
  induction m as [|m IH]; intros i st Hm Hend.
  - rewrite loop_end in Hend |- * by lia. rewrite drop_ge by lia. simpl.
    rewrite app_nil_r. repeat split; auto. intros k item Hk. discriminate Hk.
  - destruct (decide (i < length config)%nat) as [Hlt | Hge].
    + destruct (loop_step_completed _ _ _ Hlt Hend) as [Hstep Hbatch].
      rewrite Hstep in Hend |- *.
      apply IH in Hend as (He & Hr & Hall); [|unfold BATCH_SIZE; lia].
      simpl in He, Hr. split; [exact He|].
      assert (Hsplit : drop i config =
                       (batchAt config i ++ drop (i + BATCH_SIZE) config)%list).
      { unfold batchAt. now rewrite <- drop_drop, take_drop. }
      split.
      * rewrite Hr, <- app_assoc. f_equal.
        transitivity (rowsOf i (batchAt config i ++ drop (i + BATCH_SIZE) config)%list);
          [|now rewrite <- Hsplit].
        rewrite rowsFrom_app. f_equal.
        destruct (decide (BATCH_SIZE <= length (drop i config))%nat) as [Hfull | Hshort].
        -- unfold batchAt. now rewrite length_take_le by exact Hfull.
        -- rewrite (drop_ge config (i + BATCH_SIZE)); [reflexivity|].
           rewrite length_drop in Hshort. lia.
      * intros k item Hk. rewrite Hsplit in Hk.
        apply lookup_app_Some in Hk as [Hk | [Hlen Hk]].
        -- now apply Hbatch.
        -- destruct (Hall _ _ Hk) as (r & Hrk). exists r.
           assert (Hfull : length (batchAt config i) = BATCH_SIZE).
           { unfold batchAt. apply length_take_le.
             apply lookup_lt_Some in Hk. rewrite length_drop in Hk |- *. lia. }
           rewrite Hfull in Hlen, Hrk.
           replace (i + k)%nat with (i + BATCH_SIZE + (k - BATCH_SIZE))%nat by lia.
           exact Hrk.
    + rewrite loop_end in Hend |- * by lia. rewrite drop_ge by lia. simpl.
      rewrite app_nil_r. repeat split; auto. intros k item Hk. discriminate Hk.
Qed.

(** A run that completes has the rows of its tools in configuration order,
    whatever the order in which the promises settled, and none of its tools
    failed. *)
Lemma run_completed (config : list value) :
  ending (run config) = Completed ->
  rows (run config) = rowsOf 0 config /\
  noUnexpectedError roundDouble fracToString Date_parse now world config.
Proof.
  intros Hend. unfold initDashboard in *.
  destruct (loop_completed config (length config) 0%nat _ ltac:(lia) Hend)
    as (_ & Hr & Hall).
  rewrite drop_0 in Hr, Hall. split; [exact Hr|].
  intros g item Hitem. exact (Hall g item Hitem).
Qed.

Lemma rowsFrom_sorted (items : list value) :
  forall g,
    StronglySorted lt (map globalIndex (rowsOf g items)) /\
    Forall (fun j => (g <= j)%nat) (map globalIndex (rowsOf g items)).
Proof.
  induction items as [|item items IH]; intros g; simpl.
  - split; constructor.
  - destruct (IH (S g)) as [Hs Hf].
    assert (Hf' : Forall (fun j => (g <= j)%nat)
                    (map globalIndex (rowsOf (S g) items))).
    { eapply List.Forall_impl; [|exact Hf]. simpl. intros; lia. }
    destruct (outcomeOf g item) as [[row|]|] eqn:Hrow; simpl; auto.
    apply toolOutcome_row in Hrow as (_ & _ & _ & Hg & _). rewrite Hg.
    split; constructor; auto.
Qed.

(** A lifecycle response that is not a success makes the tool skipped,
    provided its request could be issued at all. *)
Lemma non_success_outcome (g : nat) (item : value) (body : option value) :
  lifecycleResponse world g = Response false body ->
  (requestBuilt fracToString item -> outcomeOf g item = Ok None) /\
  (forall r, outcomeOf g item = Ok r -> r = None).
Proof.
  intros Hresp. unfold toolOutcome, fetchTool, fetchLifecycle, requestBuilt.
  rewrite Hresp.
  destruct (name <- get item "name" ;; render fracToString name) as [url|].
  - split; [reflexivity|]. intros r Hr. unfold processRow in Hr. simpl in Hr.
    congruence.
  - split; [intros (url & Hurl); discriminate Hurl | intros r Hr; discriminate Hr].
Qed.


(** C9, as amended.  In a run in which every promise settles and every
    tool either gets a lifecycle response that is not a success or is
    handled without failure, the run completes; a tool whose lifecycle
    response is not a success has no row; every other tool that renders a
    row has it in the output, in whatever batch it is. *)
Theorem C9_non_success_lifecycle_skips_only_that_tool (config : list value) :
  everySettles schedule config ->
  (forall g item,
      config !! g = Some item ->
      (requestBuilt fracToString item /\
       exists body, lifecycleResponse world g = Response false body) \/
      (exists r, outcomeOf g item = Ok r)) ->
  ending (run config) = Completed /\
  (forall g item body,
      config !! g = Some item ->
      lifecycleResponse world g = Response false body ->
      forall row, In row (rows (run config)) -> globalIndex row <> g) /\
  (forall g item row,
      config !! g = Some item ->
      outcomeOf g item = Ok (Some row) ->
      In row (rows (run config))).
Proof.
  intros Hsettle Hcases.
  assert (Hok : noUnexpectedError roundDouble fracToString Date_parse now world config).
  { intros g item Hitem.
    destruct (Hcases g item Hitem) as [[Hbuilt (body & Hresp)] | Hr]; [|exact Hr].
    exists None. now apply (non_success_outcome g item body Hresp). }
  destruct (run_rows config Hsettle Hok) as [Hrows Hend].
  split; [exact Hend|]. split.
  - intros g item body Hitem Hresp row Hin Hg.
    rewrite Hrows in Hin.
    apply rowsFrom_In in Hin as (k & item' & Hitem' & Hr). simpl in Hr.
    destruct (toolOutcome_row _ _ _ Hr) as (_ & _ & _ & Hk & _).
    assert (k = g) by congruence. subst k.
    rewrite Hg in Hitem', Hr.
    assert (item' = item) by congruence. subst item'.
    pose proof (proj2 (non_success_outcome g item body Hresp) _ Hr) as Hnone.
    discriminate Hnone.
  - intros g item row Hitem Hr. rewrite Hrows.
    apply rowsFrom_In. exists g, item. auto.
Qed.

(** C10.  With 12 configured tools (the batch size being 5), every run
    that completes started exactly three batches, of 5, 5 and 2 tools, one
    after the other; the counts reported after them are (5,12), (10,12),
    (12,12); and the rows are those of the tools in configuration order
    (increasing positions), for every order in which the promises of a
    batch settle. *)
Theorem C10_twelve_tools_three_batches (config : list value) :
  length config = 12%nat ->
  ending (run config) = Completed ->
  batches (run config) = [take 5 config; take 5 (drop 5 config); drop 10 config] /\
  map length (batches (run config)) = [5; 5; 2]%nat /\
  progress (run config) = [(5, 12); (10, 12); (12, 12)]%nat /\
  rows (run config) = rowsOf 0 config /\
  StronglySorted lt (map globalIndex (rows (run config))).
Proof.
  intros Hlen Hend.
  destruct (run_completed config Hend) as [Hrows _].
  assert (Hshape :
    batches (run config) = [take 5 config; take 5 (drop 5 config); drop 10 config] /\
    progress (run config) = [(5, 12); (10, 12); (12, 12)]%nat).
  { unfold initDashboard in Hend |- *.
    destruct (loop_step_completed config 0 _ ltac:(lia) Hend) as [H1 _].
    rewrite H1 in Hend |- *.
    destruct (loop_step_completed config (0 + BATCH_SIZE) _
                ltac:(unfold BATCH_SIZE; lia) Hend) as [H2 _].
    rewrite H2 in Hend |- *.
    destruct (loop_step_completed config (0 + BATCH_SIZE + BATCH_SIZE) _
                ltac:(unfold BATCH_SIZE; lia) Hend) as [H3 _].
    rewrite H3.
    rewrite loop_end by (unfold BATCH_SIZE; lia).
    unfold batchAt, BATCH_SIZE. simpl batches. simpl progress.
    rewrite !length_take, !length_drop, Hlen. simpl.
    rewrite drop_0. split; [|reflexivity].
    do 2 f_equal. f_equal. apply take_ge. rewrite length_drop. lia. }
  destruct Hshape as [Hb Hp].
  split; [exact Hb|]. split.
  - rewrite Hb. simpl. rewrite !length_take, !length_drop, Hlen. reflexivity.
  - split; [exact Hp|]. split; [exact Hrows|].
    rewrite Hrows. apply rowsFrom_sorted.
Qed.

End DriverProperties.

(** *** Example runs *)

Lemma everySettles_lastFirst (config : list value) :
  everySettles lastFirst config.
Proof.
  intros i k Hk. unfold batchAt, BATCH_SIZE in Hk.
  rewrite length_take in Hk. unfold lastFirst.
  do 5 (destruct k as [|k]; [simpl; tauto|]). lia.
Qed.

Lemma exampleConfig_handled (n : nat) :
  noUnexpectedError exampleRound exampleFrac exampleDate exampleNow worldOsvDown
    (exampleConfig n).
Proof.
  intros g item Hitem. unfold exampleConfig in Hitem.
  apply lookup_replicate in Hitem as [-> _].
  unfold toolOutcome, fetchTool, fetchLifecycle. simpl.
  destruct (Nat.eqb g 1); eexists; vm_compute; reflexivity.
Qed.


Lemma C9_witness :
  ending (initDashboard exampleRound exampleFrac exampleDate exampleNow
            worldOsvDown lastFirst (exampleConfig 7)) = Completed /\
  rendersRow worldOsvDown 6 = true /\
  exists row,
    toolOutcome exampleRound exampleFrac exampleDate exampleNow worldOsvDown 6
      exampleTool = Ok (Some row) /\
    In row (rows (initDashboard exampleRound exampleFrac exampleDate exampleNow
                    worldOsvDown lastFirst (exampleConfig 7))).
Proof.
  destruct (C9_non_success_lifecycle_skips_only_that_tool exampleRound exampleFrac
              exampleDate exampleNow worldOsvDown lastFirst (exampleConfig 7)
              (everySettles_lastFirst _))
    as (Hend & _ & Hin).
  { intros g item Hitem. right. exact (exampleConfig_handled 7 g item Hitem). }
  split; [exact Hend|]. split; [reflexivity|].
  eexists. split; [vm_compute; reflexivity|].
  apply (Hin 6%nat exampleTool); reflexivity.
Defined.

(** C9 as stated fails for a decoding error: the body of the lifecycle
    response of the first of six tools cannot be decoded; each of the five
    other tools would render a row, yet the run ends in the catch clause
    with no row at all, no count reported, and the second batch never
    started. *)
Lemma C9_counterexample :
  lifecycleResponse worldUndecodable 0 = Response true None /\
  forallb (rendersRow worldUndecodable) [1; 2; 3; 4; 5]%nat = true /\
  initDashboard exampleRound exampleFrac exampleDate exampleNow
    worldUndecodable lastFirst (exampleConfig 6) =
  mkRun [] [] [exampleConfig 5] Failed.
Proof. split; [reflexivity|]. split; vm_compute; reflexivity. Qed.

Lemma C10_witness :
  map (@length value)
    (batches (initDashboard exampleRound exampleFrac exampleDate exampleNow
                worldOsvDown lastFirst (exampleConfig 12))) = [5; 5; 2]%nat /\
  progress (initDashboard exampleRound exampleFrac exampleDate exampleNow
              worldOsvDown lastFirst (exampleConfig 12)) =
    [(5, 12); (10, 12); (12, 12)]%nat.
Proof.
  assert (Hend : ending (initDashboard exampleRound exampleFrac exampleDate
                           exampleNow worldOsvDown lastFirst (exampleConfig 12))
                 = Completed) by (vm_compute; reflexivity).
  destruct (C10_twelve_tools_three_batches exampleRound exampleFrac exampleDate
              exampleNow worldOsvDown lastFirst (exampleConfig 12) eq_refl Hend)
    as (_ & Hsizes & Hprogress & _).
  split; [exact Hsizes | exact Hprogress].
Defined.

(** ** Further properties *)

(** *** Severity *)

Section MoreSeverityProperties.

Variable roundDouble : Q -> number.
Variable fracToString : Q -> string.

Lemma scoreTier_label (score : number) : In (scoreTier score) severityLabels.
Proof.
  unfold scoreTier, severityLabels.
  destruct (numGe score 9); [simpl; tauto|].
  destruct (numGe score 7); [simpl; tauto|].
  destruct (numGe score 4); simpl; tauto.
Qed.

(** X1.  Whatever the record, when [getSeverityLabel] returns, it returns one of
    the five labels. *)
Theorem getSeverityLabel_range (vuln : value) (lab : string) :
  getSeverityLabel roundDouble fracToString vuln = Ok lab ->
  In lab severityLabels.
Proof.
  unfold getSeverityLabel.
  destruct (get vuln "database_specific") as [ds|]; simpl; [|discriminate].
  destruct (labelOfPriority _) as [l|] eqn:Hl.
  - intros [= <-]. unfold labelOfPriority in Hl.
    destruct (truthy _); [|discriminate].
    destruct (vendorPriority _); try discriminate.
    unfold severityLabels.
    repeat match type of Hl with
           | (if ?b then _ else _) = _ => destruct b
           end; try discriminate; injection Hl as <-; simpl; tauto.
  - destruct (fallbackScore _ _ _ _) as [score|]; simpl; [|discriminate].
    destruct (isNaN score); simpl; intros [= <-].
    + unfold severityLabels. simpl. tauto.
    + apply scoreTier_label.
Qed.

(** X2.  A severity label of an NVD record wins over its score and is
    normalised in letter case: each of the five NVD severities, however it
    is cased, gives its capitalised name, and the score is not read. *)
Theorem getNVDSeverity_label (cve metrics : value) (s name : string) :
  selectMetrics cve = Ok metrics ->
  metricsLabel metrics = VStr s ->
  In name nvdSeverityNames ->
  toLowerCase s = name ->
  getNVDSeverity roundDouble fracToString cve = Ok (capitalised name).
Proof.
  intros Hm Hl Hin Hs. unfold getNVDSeverity. rewrite Hm. simpl. rewrite Hl.
  assert (Ht : truthy (VStr s) = true).
  { destruct s; [|reflexivity]. simpl in Hs. subst name.
    unfold nvdSeverityNames in Hin. simpl in Hin.
    repeat destruct Hin as [Hin | Hin]; try discriminate; contradiction. }
  rewrite Ht, Hs. reflexivity.
Qed.

(** X3.  Once the newest scheme has an entry, the older schemes are ignored,
    even when that entry carries neither a label nor a score. *)
Theorem getNVDSeverity_newest_scheme_only (cve entry : value) :
  nullish cve = false ->
  optIndex0 (optGet (prop cve "metrics") "cvssMetricV31") = entry ->
  truthy entry = true ->
  getNVDSeverity roundDouble fracToString cve =
  getNVDSeverity roundDouble fracToString (onlyV31 entry).
Proof.
  intros Hc He Ht.
  assert (Hor : forall b c, orElse (orElse entry b) c = entry).
  { intros b c. unfold orElse. rewrite Ht, Ht. reflexivity. }
  unfold getNVDSeverity, selectMetrics, onlyV31.
  rewrite (get_not_nullish _ _ Hc). simpl bind. rewrite He, Hor.
  simpl. rewrite Hor. reflexivity.
Qed.

End MoreSeverityProperties.

(** *** Every run of the batch loop *)

Lemma settle_rejected {A : Type} (promises : list (settled A)) (k : nat) :
  promises !! k = Some Rejected ->
  forall order values, In k order -> settle order promises values = Rejected.
Proof.
  intros Hk. induction order as [|j order IH]; intros values Hin; [contradiction|].
  simpl. destruct (decide (j = k)) as [-> | Hne].
  - now rewrite Hk.
  - destruct Hin as [Hin | Hin]; [contradiction|].
    destruct (promises !! j) as [[a|]|]; auto.
Qed.

Lemma settle_untouched {A : Type} (promises : list (settled A)) (k : nat) :
  forall order values values',
    ~ In k order ->
    settle order promises values = Fulfilled values' ->
    values' !! k = values !! k.
Proof.
  induction order as [|j order IH]; intros values values' Hnot; simpl.
  - now intros [= <-].
  - assert (Hjk : j <> k) by (intros ->; apply Hnot; now left).
    assert (Hrest : ~ In k order) by (intros Hin; apply Hnot; now right).
    destruct (promises !! j) as [[a|]|]; [|discriminate|now apply IH].
    intros Hs. rewrite (IH _ _ Hrest Hs).
    now apply list_lookup_insert_ne.
Qed.

(** [Promise.all] delivers nothing as long as one promise has not
    settled. *)
Lemma promiseAll_unsettled {A : Type} (promises : list (settled A)) (order : list nat)
  (k : nat) :
  (k < length promises)%nat -> ~ In k order ->
  forall l, promiseAll order promises <> Resolved l.
Proof.
  intros Hk Hnot l. unfold promiseAll.
  destruct (settle order promises (replicate (length promises) None))
    as [values|] eqn:Hs; [|discriminate].
  destruct (allFilled values) as [l'|] eqn:Hf; [|discriminate].
  intros _. apply allFilled_inv in Hf. subst values.
  apply (settle_untouched _ _ _ _ _ Hnot) in Hs.
  rewrite lookup_replicate_2 in Hs by exact Hk.
  change (map Some l') with (Some <$> l') in Hs.
  rewrite list_lookup_fmap in Hs. destruct (l' !! k); discriminate Hs.
Qed.

Section MoreDriverProperties.

Variable roundDouble : Q -> number.
Variable fracToString : Q -> string.
Variable Date_parse : string -> option Z.
Variable now : Z.
Variable world : World.

Local Abbreviation outcomeOf := (toolOutcome roundDouble fracToString Date_parse now world).
Local Abbreviation rowsOf := (rowsFrom roundDouble fracToString Date_parse now world).

(** The loop over the results of a batch appends the rows of the tools
    that precede the first one whose row raises. *)
Lemma forEach_prefix (batch : list value) :
  forall g results,
    batchPromises fracToString world g batch = map Fulfilled results ->
    forall i index acc,
      (i + index = g)%nat ->
      exists k,
        (k <= length batch)%nat /\
        fst (forEachResult roundDouble fracToString Date_parse now i index results acc)
          = (acc ++ rowsOf g (take k batch))%list /\
        (forall j item, take k batch !! j = Some item ->
                        exists r, outcomeOf (g + j) item = Ok r).
Proof.
  unfold batchPromises.
  induction batch as [|item batch IH]; intros g results Hp i index acc Hg.
  - destruct results; [|discriminate Hp]. exists 0%nat. simpl.
    rewrite app_nil_r. repeat split; [lia|]. intros j item Hj. discriminate Hj.
  - rewrite imap_cons in Hp. destruct results as [|res results]; [discriminate Hp|].
    simpl in Hp. injection Hp as Hres Hp. rewrite Nat.add_0_r in Hres.
    assert (Hp' : imap (fun k it => fetchTool fracToString world (S g + k) it) batch
                  = map Fulfilled results).
    { rewrite <- Hp. apply imap_ext. intros k it _. simpl.
      now rewrite Nat.add_succ_r. }
    assert (Hout : outcomeOf g item =
                   processRow roundDouble fracToString Date_parse now g 0 res).
    { unfold toolOutcome. now rewrite Hres. }
    simpl forEachResult. rewrite processRow_index, Hg.
    destruct (processRow roundDouble fracToString Date_parse now g 0 res)
      as [[row|]|] eqn:Hrow.
    + destruct (IH (S g) results Hp' i (S index) (acc ++ [row])%list)
        as (k & Hk & Hr & Hok); [lia|].
      exists (S k). split; [simpl; lia|]. split.
      * rewrite Hr. simpl. rewrite Hout. now rewrite <- app_assoc.
      * intros [|j] it Hj; simpl in Hj.
        -- injection Hj as <-. rewrite Nat.add_0_r, Hout. eauto.
        -- rewrite Nat.add_succ_r. now apply Hok.
    + destruct (IH (S g) results Hp' i (S index) acc) as (k & Hk & Hr & Hok); [lia|].
      exists (S k). split; [simpl; lia|]. split.
      * rewrite Hr. simpl. now rewrite Hout.
      * intros [|j] it Hj; simpl in Hj.
        -- injection Hj as <-. rewrite Nat.add_0_r, Hout. eauto.
        -- rewrite Nat.add_succ_r. now apply Hok.
    + exists 0%nat. split; [lia|]. simpl. rewrite app_nil_r.
      split; [reflexivity|]. intros j it Hj. discriminate Hj.
Qed.

Variable schedule : nat -> list nat.

Local Abbreviation loop :=
  (batchLoop roundDouble fracToString Date_parse now world schedule).
Local Abbreviation run :=
  (initDashboard roundDouble fracToString Date_parse now world schedule).

(** One turn of the loop: either the run ends there, with the rows of some
    first tools of the batch and no count written, or the whole batch is
    rendered and the loop goes on. *)
Lemma loop_turn (config : list value) (i : nat) (st : Run) :
  (i < length config)%nat ->
  (exists k e,
      (k <= length (batchAt config i))%nat /\ e <> Completed /\
      loop config i st =
      mkRun (rows st ++ rowsOf i (take k (batchAt config i)))%list
            (progress st) (batches st ++ [batchAt config i])%list e /\
      (forall j item, take k (batchAt config i) !! j = Some item ->
                      exists r, outcomeOf (i + j) item = Ok r)) \/
  (loop config i st =
   loop config (i + BATCH_SIZE)
     (mkRun (rows st ++ rowsOf i (batchAt config i))%list
            (progress st ++
               [(Nat.min (i + length (batchAt config i)) (length config),
                 length config)])%list
            (batches st ++ [batchAt config i])%list
            (ending st)) /\
   (forall k item, batchAt config i !! k = Some item ->
                   exists r, outcomeOf (i + k) item = Ok r)).
Proof.
  intros Hlt. rewrite batchLoop_equation_1.
  destruct (decide (i < length config)%nat) as [Hi|]; [|lia]. simpl.
  destruct (promiseAll (schedule i) (batchPromises fracToString world i (batchAt config i)))
    as [results| |] eqn:Hp; simpl.
  - apply promiseAll_resolved_inv in Hp.
    destruct (forEachResult roundDouble fracToString Date_parse now i 0 results (rows st))
      as [rows' [|]] eqn:Hrows; simpl.
    + left.
      destruct (forEach_prefix _ _ _ Hp i 0%nat (rows st)) as (k & Hk & Hr & Hok); [lia|].
      rewrite Hrows in Hr. simpl in Hr. subst rows'.
      exists k, Failed. split; [exact Hk|]. split; [discriminate|].
      split; [reflexivity | exact Hok].
    + right.
      destruct (batch_completed roundDouble fracToString Date_parse now world _ _ _ Hp
                  i 0%nat (rows st) rows') as [-> Hall];
        [lia | exact Hrows |].
      split; [reflexivity | exact Hall].
  - left. exists 0%nat, Failed. split; [lia|]. split; [discriminate|].
    simpl. rewrite app_nil_r. split; [reflexivity|]. intros j item Hj. discriminate Hj.
  - left. exists 0%nat, Stalled. split; [lia|]. split; [discriminate|].
    simpl. rewrite app_nil_r. split; [reflexivity|]. intros j item Hj. discriminate Hj.
Qed.

Lemma drop_batch (config : list value) (i : nat) :
  drop i config = (batchAt config i ++ drop (i + BATCH_SIZE) config)%list.
Proof. unfold batchAt. now rewrite <- drop_drop, take_drop. Qed.

Lemma batchAt_length (config : list value) (i : nat) :
  length (batchAt config i) = Nat.min BATCH_SIZE (length config - i).
Proof. unfold batchAt. now rewrite length_take, length_drop. Qed.

(** The rows of any run, however it ends, are those of the first tools of
    the configuration, none of which failed. *)
Lemma loop_prefix (config : list value) :
  forall m i st,
    (length config - i <= m)%nat ->
    exists k,
      rows (loop config i st) = (rows st ++ rowsOf i (take k (drop i config)))%list /\
      (forall j item, take k (drop i config) !! j = Some item ->
                      exists r, outcomeOf (i + j) item = Ok r).
Proof.
  induction m as [|m IH]; intros i st Hm.
  - exists 0%nat. rewrite loop_end by lia. simpl. rewrite app_nil_r.
    split; [reflexivity|]. intros j item Hj. discriminate Hj.
  - destruct (decide (i < length config)%nat) as [Hlt | Hge].
    + destruct (loop_turn config i st Hlt) as [(k & e & Hk & _ & -> & Hok) | [-> Hall]].
      * exists k. simpl.
        assert (Htake : take k (batchAt config i) = take k (drop i config)).
        { unfold batchAt in *. rewrite take_take. f_equal.
          rewrite length_take in Hk. lia. }
        rewrite <- Htake. split; [reflexivity | exact Hok].
      * destruct (IH (i + BATCH_SIZE)%nat
                    (mkRun (rows st ++ rowsOf i (batchAt config i))%list
                       (progress st ++
                          [(Nat.min (i + length (batchAt config i)) (length config),
                            length config)])%list
                       (batches st ++ [batchAt config i])%list
                       (ending st))) as (k & -> & Hok); [unfold BATCH_SIZE; lia|].
        simpl. exists (BATCH_SIZE + k)%nat.
        assert (Htake : take (BATCH_SIZE + k) (drop i config) =
                        (batchAt config i ++ take k (drop (i + BATCH_SIZE) config))%list).
        { rewrite (drop_batch config i).
          destruct (decide (BATCH_SIZE <= length config - i)%nat) as [Hfull | Hshort].
          - rewrite take_app_add' by (rewrite batchAt_length; lia). reflexivity.
          - rewrite (drop_ge config (i + BATCH_SIZE)) by lia.
            rewrite take_nil, !app_nil_r.
            now rewrite take_ge by (rewrite batchAt_length; lia). }
        rewrite Htake. split.
        -- rewrite <- app_assoc. f_equal. rewrite rowsFrom_app. f_equal.
           destruct (decide (BATCH_SIZE <= length config - i)%nat) as [Hfull | Hshort].
           ++ f_equal. rewrite batchAt_length. lia.
           ++ rewrite (drop_ge config (i + BATCH_SIZE)) by lia.
              now rewrite take_nil.
        -- intros j item Hj. apply lookup_app_Some in Hj as [Hj | [Hlen Hj]].
           ++ now apply Hall.
           ++ destruct (Hok _ _ Hj) as (r & Hr). exists r.
              assert (Hfull : length (batchAt config i) = BATCH_SIZE).
              { rewrite batchAt_length. apply lookup_lt_Some in Hj.
                rewrite length_take, length_drop in Hj. lia. }
              rewrite Hfull in Hlen, Hr.
              replace (i + j)%nat with (i + BATCH_SIZE + (j - BATCH_SIZE))%nat by lia.
              exact Hr.
    + exists 0%nat. rewrite loop_end by lia. simpl. rewrite app_nil_r.
      split; [reflexivity|]. intros j item Hj. discriminate Hj.
Qed.

(** The batches a run starts and the counts it writes, from position [i]
    on: [c] batches and [p] counts, one count per batch that was handled
    to its end. *)
Lemma loop_trace (config : list value) :
  forall m i st,
    (length config - i <= m)%nat ->
    exists c p,
      batches (loop config i st) =
        (batches st ++ ((fun j => batchAt config (i + BATCH_SIZE * j)) <$> seq 0 c))%list /\
      progress (loop config i st) =
        (progress st ++
           ((fun j => (Nat.min (i + BATCH_SIZE * S j) (length config), length config))
              <$> seq 0 p))%list /\
      (forall j, (j < c)%nat -> (i + BATCH_SIZE * j < length config)%nat) /\
      ((ending (loop config i st) = ending st /\ p = c /\
        (length config <= i + BATCH_SIZE * c)%nat) \/
       (ending (loop config i st) <> Completed /\ c = S p)).
Proof.
  induction m as [|m IH]; intros i st Hm.
  - exists 0%nat, 0%nat. rewrite loop_end by lia. simpl. rewrite !app_nil_r.
    repeat split; try lia. left. repeat split; lia.
  - destruct (decide (i < length config)%nat) as [Hlt | Hge].
    + destruct (loop_turn config i st Hlt) as [(k & e & Hk & He & -> & _) | [-> _]].
      * exists 1%nat, 0%nat. simpl. rewrite app_nil_r, Nat.add_0_r.
        split; [reflexivity|]. split; [reflexivity|].
        split; [intros j Hj; unfold BATCH_SIZE; lia|]. right. auto.
      * destruct (IH (i + BATCH_SIZE)%nat
                    (mkRun (rows st ++ rowsOf i (batchAt config i))%list
                       (progress st ++
                          [(Nat.min (i + length (batchAt config i)) (length config),
                            length config)])%list
                       (batches st ++ [batchAt config i])%list
                       (ending st))) as (c & p & Hb & Hp & Hc & Hend);
          [unfold BATCH_SIZE; lia|].
        exists (S c), (S p). simpl in Hb, Hp, Hend.
        split; [|split; [|split]].
        -- rewrite Hb, <- app_assoc. f_equal. simpl. rewrite Nat.add_0_r. f_equal.
           rewrite <- seq_shift, <- list_fmap_compose.
           apply list_fmap_ext. intros _ j _. simpl. f_equal. unfold BATCH_SIZE. lia.
        -- rewrite Hp, <- app_assoc. f_equal. simpl. f_equal.
           ++ f_equal. rewrite batchAt_length. unfold BATCH_SIZE. lia.
           ++ rewrite <- seq_shift, <- list_fmap_compose.
              apply list_fmap_ext. intros _ j _. simpl. f_equal. f_equal.
              unfold BATCH_SIZE. lia.
        -- intros [|j] Hj; [lia|]. specialize (Hc j ltac:(lia)).
           unfold BATCH_SIZE in *. lia.
        -- destruct Hend as [(He & -> & Hn) | (He & ->)].
           ++ left. split; [exact He|]. split; [reflexivity|].
              unfold BATCH_SIZE in *. lia.
           ++ right. auto.
    + exists 0%nat, 0%nat. rewrite loop_end by lia. simpl. rewrite !app_nil_r.
      repeat split; try lia. left. repeat split; lia.
Qed.

Lemma run_trace (config : list value) :
  exists c p,
    batches (run config) = (fun j => batchAt config (BATCH_SIZE * j)) <$> seq 0 c /\
    progress (run config) =
      (fun j => (Nat.min (BATCH_SIZE * S j) (length config), length config)) <$> seq 0 p /\
    (forall j, (j < c)%nat -> (BATCH_SIZE * j < length config)%nat) /\
    ((ending (run config) = Completed /\ p = c /\
      (length config <= BATCH_SIZE * c)%nat) \/
     (ending (run config) <> Completed /\ c = S p)).
Proof.
  unfold initDashboard.
  destruct (loop_trace config (length config) 0%nat (mkRun [] [] [] Completed) ltac:(lia))
    as (c & p & Hb & Hp & Hc & Hend).
  exists c, p. simpl in *. auto.
Qed.

(** A batch whose promises are not all fulfilled ends the run. *)
Lemma loop_blocked (config : list value) (i : nat) (st : Run) :
  (i < length config)%nat ->
  (forall results,
      promiseAll (schedule i) (batchPromises fracToString world i (batchAt config i))
      <> Resolved results) ->
  rows (loop config i st) = rows st /\ ending (loop config i st) <> Completed.
Proof.
  intros Hlt Hblock. rewrite batchLoop_equation_1.
  destruct (decide (i < length config)%nat) as [Hi|]; [|lia]. simpl.
  destruct (promiseAll (schedule i) (batchPromises fracToString world i (batchAt config i)))
    as [results| |] eqn:Hp; simpl; [|split; [reflexivity|discriminate]..].
  exfalso. exact (Hblock results eq_refl).
Qed.

(** A request that rejects leaves its batch unfulfilled. *)
Lemma batch_rejected (config : list value) (i k : nat) (item : value) :
  batchAt config i !! k = Some item ->
  fetchTool fracToString world (i + k) item = Rejected ->
  forall results,
    promiseAll (schedule i) (batchPromises fracToString world i (batchAt config i))
    <> Resolved results.
Proof.
  intros Hk Hrej results Hp. apply promiseAll_resolved_inv in Hp.
  assert (Hl : batchPromises fracToString world i (batchAt config i) !! k = Some Rejected).
  { unfold batchPromises. rewrite list_lookup_imap, Hk. simpl. now rewrite Hrej. }
  rewrite Hp in Hl. change (map Fulfilled results) with (Fulfilled <$> results) in Hl.
  rewrite list_lookup_fmap in Hl. destruct (results !! k); discriminate Hl.
Qed.

Lemma rowsFrom_index (row : Row) (items : list value) (g : nat) :
  In row (rowsOf g items) ->
  (g <= globalIndex row < g + length items)%nat.
Proof.
  intros Hin. apply rowsFrom_In in Hin as (k & item & Hk & Hrow).
  apply lookup_lt_Some in Hk.
  apply toolOutcome_row in Hrow as (_ & _ & _ & -> & _). lia.
Qed.

Lemma loop_before_block (config : list value) (b : nat) :
  (BATCH_SIZE * b < length config)%nat ->
  (forall results,
      promiseAll (schedule (BATCH_SIZE * b))
        (batchPromises fracToString world (BATCH_SIZE * b)
           (batchAt config (BATCH_SIZE * b)))
      <> Resolved results) ->
  forall m j st,
    (b - j <= m)%nat -> (j <= b)%nat ->
    (forall row, In row (rows st) -> (globalIndex row < BATCH_SIZE * b)%nat) ->
    (forall row, In row (rows (loop config (BATCH_SIZE * j) st)) ->
                 (globalIndex row < BATCH_SIZE * b)%nat) /\
    ending (loop config (BATCH_SIZE * j) st) <> Completed.
Proof.
  intros Hn Hblock.
  induction m as [|m IH]; intros j st Hm Hj Hst.
  - assert (j = b) as -> by lia.
    destruct (loop_blocked config _ st Hn Hblock) as [-> He]. auto.
  - destruct (decide (j = b)) as [-> | Hne].
    + destruct (loop_blocked config _ st Hn Hblock) as [-> He]. auto.
    + assert (Hlt : (BATCH_SIZE * j < length config)%nat) by (unfold BATCH_SIZE in *; lia).
      destruct (loop_turn config _ st Hlt) as [(k' & e & Hk' & He & -> & _) | [-> _]].
      * simpl. split; [|exact He]. intros row Hin.
        apply in_app_or in Hin as [Hin | Hin]; [now apply Hst|].
        apply rowsFrom_index in Hin. rewrite length_take, batchAt_length in Hin.
        unfold BATCH_SIZE in *. lia.
      * replace (BATCH_SIZE * j + BATCH_SIZE)%nat with (BATCH_SIZE * S j)%nat
          by (unfold BATCH_SIZE; lia).
        apply IH; [lia | lia |]. simpl. intros row Hin.
        apply in_app_or in Hin as [Hin | Hin]; [now apply Hst|].
        apply rowsFrom_index in Hin. rewrite batchAt_length in Hin.
        unfold BATCH_SIZE in *. lia.
Qed.

Lemma run_blocked (config : list value) (b k : nat) (item : value) :
  (k < BATCH_SIZE)%nat ->
  config !! (BATCH_SIZE * b + k)%nat = Some item ->
  (forall results,
      promiseAll (schedule (BATCH_SIZE * b))
        (batchPromises fracToString world (BATCH_SIZE * b)
           (batchAt config (BATCH_SIZE * b)))
      <> Resolved results) ->
  ending (run config) <> Completed /\
  forall row, In row (rows (run config)) -> (globalIndex row < BATCH_SIZE * b)%nat.
Proof.
  intros Hk Hitem Hblock.
  assert (Hn : (BATCH_SIZE * b < length config)%nat)
    by (apply lookup_lt_Some in Hitem; lia).
  unfold initDashboard.
  destruct (loop_before_block config b Hn Hblock b 0%nat
              (mkRun [] [] [] Completed)) as [Hrows Hend]; [lia | lia | |].
  - simpl. intros row [].
  - replace (BATCH_SIZE * 0)%nat with 0%nat in * by reflexivity. auto.
Qed.

(** X4.  Whatever the network answers and however a run ends, the rows on the
    page are the rows of the first tools of the configuration: they stand
    in configuration order, each position at most once, and every row is
    the row of the tool at its own position. *)
Theorem run_rows_follow_configuration (config : list value) :
  exists k,
    rows (run config) = rowsOf 0 (take k config) /\
    StronglySorted lt (map globalIndex (rows (run config))) /\
    forall row,
      In row (rows (run config)) ->
      (globalIndex row < k)%nat /\
      exists item,
        config !! globalIndex row = Some item /\
        outcomeOf (globalIndex row) item = Ok (Some row).
Proof.
  unfold initDashboard.
  destruct (loop_prefix config (length config) 0%nat (mkRun [] [] [] Completed) ltac:(lia))
    as (k & Hk & _).
  simpl in Hk. rewrite drop_0 in Hk. exists k. rewrite Hk.
  split; [reflexivity|]. split; [apply rowsFrom_sorted|].
  intros row Hin. split.
  - apply rowsFrom_index in Hin. rewrite length_take in Hin. lia.
  - apply rowsFrom_In in Hin as (j & item & Hj & Hrow). simpl in Hrow.
    pose proof Hrow as Hrow'.
    apply toolOutcome_row in Hrow' as (_ & _ & _ & -> & _).
    exists item. split; [|exact Hrow].
    apply lookup_take_Some in Hj. tauto.
Qed.

(** X5.  The batches a run starts are consecutive slices of five tools: the
    batch started in turn [j] holds the tools at positions [5 j] to
    [5 j + 4] that exist, and is never empty. *)
Theorem run_batches_are_slices (config : list value) (j : nat) (b : list value) :
  batches (run config) !! j = Some b ->
  b = take BATCH_SIZE (drop (BATCH_SIZE * j) config) /\
  (1 <= length b <= BATCH_SIZE)%nat /\
  (forall k item, b !! k = Some item -> config !! (BATCH_SIZE * j + k)%nat = Some item).
Proof.
  destruct (run_trace config) as (c & p & Hb & _ & Hc & _).
  rewrite Hb, list_lookup_fmap. intros Hj.
  destruct (seq 0 c !! j) as [j'|] eqn:Hs; [|discriminate Hj].
  apply lookup_seq in Hs as [-> Hlt]. simpl in Hj. injection Hj as <-.
  specialize (Hc j Hlt).
  split; [reflexivity|]. split.
  - rewrite batchAt_length. unfold BATCH_SIZE in *. lia.
  - intros k item. apply batchAt_lookup.
Qed.

(** X6.  The count written after turn [j] is the number of tools handled so
    far out of the number of tools configured: five more each turn, never
    more than the total. *)
Theorem run_progress_counts (config : list value) (j a t : nat) :
  progress (run config) !! j = Some (a, t) ->
  t = length config /\
  a = Nat.min (BATCH_SIZE * (j + 1)) (length config) /\
  (0 < a <= t)%nat /\
  (j < length (batches (run config)))%nat.
Proof.
  destruct (run_trace config) as (c & p & Hb & Hp & Hc & Hend).
  rewrite Hp, list_lookup_fmap. intros Hj.
  apply fmap_Some in Hj as (j' & Hs & Heq).
  apply lookup_seq in Hs as [-> Hlt].
  pose proof (f_equal fst Heq) as Ha. pose proof (f_equal snd Heq) as Ht.
  cbn [fst snd] in Ha, Ht. subst a t. clear Heq.
  assert (Hjc : (j < c)%nat) by (destruct Hend as [(_ & -> & _) | (_ & ->)]; lia).
  specialize (Hc j Hjc).
  split; [reflexivity|]. split; [unfold BATCH_SIZE in *; lia|]. split.
  - unfold BATCH_SIZE in *. lia.
  - rewrite Hb, length_fmap, length_seq. exact Hjc.
Qed.

(** X7.  A run that completes has started one batch for every five tools and
    has written one count per batch, the last one being the total. *)
Theorem completed_run_counts (config : list value) :
  ending (run config) = Completed ->
  length (batches (run config)) = ((length config + 4) / 5)%nat /\
  length (progress (run config)) = length (batches (run config)) /\
  (config <> [] ->
   last (progress (run config)) = Some (length config, length config)).
Proof.
  intros Hend.
  destruct (run_trace config) as (c & p & Hb & Hp & Hc & [(_ & -> & Hn) | (Hne & _)]);
    [|contradiction].
  rewrite Hb, Hp, !length_fmap, !length_seq.
  assert (Hcount : c = ((length config + 4) / 5)%nat).
  { destruct c as [|c].
    - unfold BATCH_SIZE in Hn. assert (length config = 0)%nat as -> by lia. reflexivity.
    - specialize (Hc c ltac:(lia)). unfold BATCH_SIZE in *.
      apply Nat.div_unique with (r := (length config + 4 - 5 * S c)%nat); lia. }
  split; [exact Hcount|]. split; [reflexivity|].
  intros Hnil. destruct c as [|c].
  - destruct config; [contradiction|]. simpl in Hn. unfold BATCH_SIZE in Hn. lia.
  - rewrite seq_S, fmap_app. cbn [fmap list_fmap]. rewrite last_snoc. do 2 f_equal.
    unfold BATCH_SIZE in *. lia.
Qed.

(** X8.  A request that rejects discards its whole batch: when the lifecycle
    request of one tool fails or its body cannot be decoded, no tool of
    that batch or of a later one is rendered, whatever the other requests
    returned, and the run does not complete. *)
Theorem rejected_request_discards_batch (config : list value) (b k : nat) (item : value) :
  (k < BATCH_SIZE)%nat ->
  config !! (BATCH_SIZE * b + k)%nat = Some item ->
  fetchTool fracToString world (BATCH_SIZE * b + k) item = Rejected ->
  ending (run config) <> Completed /\
  forall row, In row (rows (run config)) -> (globalIndex row < BATCH_SIZE * b)%nat.
Proof.
  intros Hk Hitem Hrej.
  assert (Hb : batchAt config (BATCH_SIZE * b) !! k = Some item).
  { unfold batchAt. apply lookup_take_Some. split; [|exact Hk].
    now rewrite lookup_drop. }
  apply (run_blocked config b k item Hk Hitem).
  exact (batch_rejected config _ k item Hb Hrej).
Qed.

(** X23.  A request that never settles blocks the page: when the promise of
    one tool of a batch does not settle, the results of the batch are
    never delivered, so the run does not complete and no tool of that
    batch or of a later one is rendered. *)
Theorem unsettled_request_blocks_run (config : list value) (b k : nat) (item : value) :
  (k < BATCH_SIZE)%nat ->
  config !! (BATCH_SIZE * b + k)%nat = Some item ->
  ~ In k (schedule (BATCH_SIZE * b)) ->
  ending (run config) <> Completed /\
  forall row, In row (rows (run config)) -> (globalIndex row < BATCH_SIZE * b)%nat.
Proof.
  intros Hk Hitem Hnot.
  apply (run_blocked config b k item Hk Hitem).
  apply (promiseAll_unsettled _ _ k); [|exact Hnot].
  unfold batchPromises. rewrite length_imap, batchAt_length.
  apply lookup_lt_Some in Hitem. unfold BATCH_SIZE in *. lia.
Qed.

(** X9.  A tool that fails ends the run: when the request of a tool rejects or
    its row raises, the run does not complete and renders no tool from
    that position on, although some of them may be handled well. *)
Theorem failed_tool_ends_run (config : list value) (g : nat) (item : value) :
  config !! g = Some item ->
  outcomeOf g item = TypeError ->
  ending (run config) <> Completed /\
  forall row, In row (rows (run config)) -> (globalIndex row < g)%nat.
Proof.
  intros Hitem Hfail. split.
  - intros Hend. apply run_completed in Hend as [_ Hok].
    destruct (Hok g item Hitem) as (r & Hr). congruence.
  - unfold initDashboard.
    destruct (loop_prefix config (length config) 0%nat (mkRun [] [] [] Completed)
                ltac:(lia)) as (k & Hk & Hok).
    simpl in Hk. rewrite drop_0 in Hk, Hok. rewrite Hk.
    intros row Hin. apply rowsFrom_index in Hin. rewrite length_take in Hin.
    destruct (decide (g < k)%nat) as [Hlt | Hge]; [|lia].
    destruct (Hok g item) as (r & Hr).
    + apply lookup_take_Some. split; [exact Hitem | exact Hlt].
    + simpl in Hr. congruence.
Qed.

(** X10.  A tool configured without a version is never reported vulnerable:
    when [current] is missing or falsy no advisory source is asked, and a
    row rendered for the tool lists no advisory, whatever the sources
    would have answered. *)
Theorem no_version_no_advisories (g : nat) (item : value) (row : Row) :
  outcomeOf g item = Ok (Some row) ->
  truthy (prop item "current") = false ->
  hasAnyVulns row = false /\ advisoriesA row = [] /\ advisoriesB row = [].
Proof.
  unfold toolOutcome, fetchTool. intros Hrow Hfalsy.
  destruct (fetchLifecycle fracToString world g item) as [lc|]; [|discriminate Hrow].
  apply processRow_row in Hrow as (_ & _ & Hany & HA & HB).
  simpl in Hany, HA, HB.
  unfold fetchOSVVulnerabilities, fetchNVDVulnerabilities in *.
  rewrite Hfalsy in *. simpl in *. auto.
Qed.

End MoreDriverProperties.

(** *** The page *)

Lemma sameElement_refl (e : Element) : sameElement e e.
Proof. unfold sameElement. auto. Qed.

Lemma sameElement_trans (e1 e2 e3 : Element) :
  sameElement e1 e2 -> sameElement e2 e3 -> sameElement e1 e3.
Proof. unfold sameElement. intros (-> & -> & ->) (-> & -> & ->). auto. Qed.

(** A loop over the elements of a class whose step touches only the
    element it is called on. *)
Lemma forEach_filter_seq (P : Element -> Element -> Prop) (p : nat -> bool)
  (step : nat -> Document -> Document) :
  (forall k d e, d !! k = Some e -> exists e', step k d = <[k := e']> d /\ P e e') ->
  (forall k d, d !! k = None -> step k d = d) ->
  forall n a doc j,
    match doc !! j with
    | None => forEach step (List.filter p (seq a n)) doc !! j = None
    | Some e =>
        exists e',
          forEach step (List.filter p (seq a n)) doc !! j = Some e' /\
          (if (a <=? j)%nat && (j <? a + n)%nat && p j then P e e' else e' = e)
    end.
Proof.
  intros Hstep Hnone. induction n as [|n IH]; intros a doc j.
  - simpl. destruct (doc !! j) as [e|]; [|reflexivity].
    exists e. split; [reflexivity|].
    destruct (a <=? j)%nat eqn:H1; simpl; [|reflexivity].
    destruct (j <? a + 0)%nat eqn:H2; simpl; [|reflexivity].
    apply Nat.leb_le in H1. apply Nat.ltb_lt in H2. lia.
  - simpl seq. simpl List.filter. destruct (p a) eqn:Hp.
    + unfold forEach. simpl fold_left. fold (forEach step (List.filter p (seq (S a) n)) (step a doc)).
      specialize (IH (S a) (step a doc) j).
      destruct (decide (j = a)) as [-> | Hne].
      * destruct (doc !! a) as [e|] eqn:He.
        -- destruct (Hstep a doc e He) as (e' & Hs & HP). rewrite Hs in IH |- *.
           rewrite list_lookup_insert_eq in IH by (now apply lookup_lt_Some in He).
           destruct IH as (e'' & Hl & Hsel). exists e''. split; [exact Hl|].
           replace ((S a <=? a)%nat) with false in Hsel
             by (symmetry; apply Nat.leb_gt; lia).
           simpl in Hsel. subst e''.
           rewrite Nat.leb_refl, Hp.
           replace ((a <? a + S n)%nat) with true
             by (symmetry; apply Nat.ltb_lt; lia).
           exact HP.
        -- rewrite (Hnone a doc He) in IH |- *. now rewrite He in IH.
      * assert (Hl : step a doc !! j = doc !! j).
        { destruct (doc !! a) as [e|] eqn:He.
          - destruct (Hstep a doc e He) as (e' & -> & _).
            now rewrite list_lookup_insert_ne by congruence.
          - now rewrite (Hnone a doc He). }
        rewrite Hl in IH. destruct (doc !! j) as [e|]; [|exact IH].
        destruct IH as (e' & Hl' & Hsel). exists e'. split; [exact Hl'|].
        replace ((a <=? j)%nat && (j <? a + S n)%nat)
          with ((S a <=? j)%nat && (j <? S a + n)%nat); [exact Hsel|].
        destruct (S a <=? j)%nat eqn:H1, (a <=? j)%nat eqn:H2,
                 (j <? S a + n)%nat eqn:H3, (j <? a + S n)%nat eqn:H4;
          try reflexivity;
          rewrite ?Nat.leb_le, ?Nat.leb_gt, ?Nat.ltb_lt, ?Nat.ltb_ge in *; lia.
    + specialize (IH (S a) doc j).
      destruct (doc !! j) as [e|]; [|exact IH].
      destruct IH as (e' & Hl' & Hsel). exists e'. split; [exact Hl'|].
      destruct (decide (j = a)) as [-> | Hne].
      * rewrite Hp, andb_false_r.
        replace ((S a <=? a)%nat) with false in Hsel
          by (symmetry; apply Nat.leb_gt; lia).
        exact Hsel.
      * replace ((a <=? j)%nat && (j <? a + S n)%nat)
          with ((S a <=? j)%nat && (j <? S a + n)%nat); [exact Hsel|].
        destruct (S a <=? j)%nat eqn:H1, (a <=? j)%nat eqn:H2,
                 (j <? S a + n)%nat eqn:H3, (j <? a + S n)%nat eqn:H4;
          try reflexivity;
          rewrite ?Nat.leb_le, ?Nat.leb_gt, ?Nat.ltb_lt, ?Nat.ltb_ge in *; lia.
Qed.

Lemma forEach_class (P : Element -> Element -> Prop) (cls : string)
  (step : nat -> Document -> Document) (doc : Document) :
  (forall k d e, d !! k = Some e -> exists e', step k d = <[k := e']> d /\ P e e') ->
  (forall k d, d !! k = None -> step k d = d) ->
  forall j,
    match doc !! j with
    | None => forEach step (querySelectorAll doc cls) doc !! j = None
    | Some e =>
        exists e',
          forEach step (querySelectorAll doc cls) doc !! j = Some e' /\
          (if hasClass cls e then P e e' else e' = e)
    end.
Proof.
  intros Hstep Hnone j. unfold querySelectorAll.
  pose proof (forEach_filter_seq P
                (fun k => match doc !! k with Some e => hasClass cls e | None => false end)
                step Hstep Hnone (length doc) 0%nat doc j) as H.
  destruct (doc !! j) as [e|] eqn:He; [|exact H].
  destruct H as (e' & Hl & Hsel). exists e'. split; [exact Hl|].
  pose proof (lookup_lt_Some _ _ _ He) as Hlt.
  replace ((0 <=? j)%nat) with true in Hsel by reflexivity.
  replace ((j <? 0 + length doc)%nat) with true in Hsel
    by (symmetry; apply Nat.ltb_lt; lia).
  rewrite He in Hsel. exact Hsel.
Qed.

(** The same loop, when what the step makes of an element depends on the
    page as it is then: the elements before it are as the loop leaves
    them, the others as it found them. *)
Lemma forEach_states (G : nat -> Document -> Element -> Element) (p : nat -> bool)
  (step : nat -> Document -> Document) :
  (forall k d e, d !! k = Some e -> step k d = <[k := G k d e]> d) ->
  (forall k d, d !! k = None -> step k d = d) ->
  forall n a doc,
    length (forEach step (List.filter p (seq a n)) doc) = length doc /\
    forall j e,
      doc !! j = Some e ->
      forEach step (List.filter p (seq a n)) doc !! j =
      Some (if (a <=? j)%nat && (j <? a + n)%nat && p j
            then G j (take j (forEach step (List.filter p (seq a n)) doc) ++ drop j doc)%list e
            else e).
Proof.
  intros Hstep Hnone.
  assert (Hrange : forall a n j, j <> a ->
             ((a <=? j)%nat && (j <? a + S n)%nat) =
             ((S a <=? j)%nat && (j <? S a + n)%nat)).
  { intros a n j Hne.
    destruct (S a <=? j)%nat eqn:H1, (a <=? j)%nat eqn:H2,
             (j <? S a + n)%nat eqn:H3, (j <? a + S n)%nat eqn:H4;
      try reflexivity;
      rewrite ?Nat.leb_le, ?Nat.leb_gt, ?Nat.ltb_lt, ?Nat.ltb_ge in *; lia. }
  induction n as [|n IH]; intros a doc.
  - simpl. split; [reflexivity|]. intros j e He. rewrite He. f_equal.
    destruct (a <=? j)%nat eqn:H1; simpl; [|reflexivity].
    destruct (j <? a + 0)%nat eqn:H2; simpl; [|reflexivity].
    apply Nat.leb_le in H1. apply Nat.ltb_lt in H2. lia.
  - simpl seq. simpl List.filter. destruct (p a) eqn:Hp.
    + unfold forEach. simpl fold_left.
      fold (forEach step (List.filter p (seq (S a) n)) (step a doc)).
      destruct (IH (S a) (step a doc)) as [Hlen Hl].
      assert (Hlen1 : length (step a doc) = length doc).
      { destruct (doc !! a) as [x|] eqn:Hx.
        - rewrite (Hstep _ _ _ Hx). apply length_insert.
        - now rewrite (Hnone _ _ Hx). }
      assert (Hother : forall i, i <> a -> step a doc !! i = doc !! i).
      { intros i Hi. destruct (doc !! a) as [x|] eqn:Hx.
        - rewrite (Hstep _ _ _ Hx). now rewrite list_lookup_insert_ne by congruence.
        - now rewrite (Hnone _ _ Hx). }
      split; [congruence|]. intros j e He.
      destruct (decide (j = a)) as [-> | Hne].
      * assert (Ha : step a doc !! a = Some (G a doc e)).
        { rewrite (Hstep _ _ _ He).
          apply list_lookup_insert_eq. now apply lookup_lt_Some in He. }
        rewrite (Hl a _ Ha).
        replace ((S a <=? a)%nat) with false by (symmetry; apply Nat.leb_gt; lia).
        rewrite Nat.leb_refl, Hp.
        replace ((a <? a + S n)%nat) with true by (symmetry; apply Nat.ltb_lt; lia).
        simpl. do 2 f_equal.
        rewrite <- (take_drop a doc) at 1. f_equal.
        apply list_eq. intros i. rewrite !lookup_take.
        destruct (decide (i < a)%nat) as [Hi|]; [|reflexivity].
        destruct (doc !! i) as [x|] eqn:Hx.
        -- assert (Hx' : step a doc !! i = Some x)
             by (rewrite Hother by lia; exact Hx).
           rewrite (Hl i x Hx').
           replace ((S a <=? i)%nat) with false by (symmetry; apply Nat.leb_gt; lia).
           reflexivity.
        -- apply lookup_ge_None in Hx. apply lookup_lt_Some in He. lia.
      * assert (He' : step a doc !! j = Some e)
          by (rewrite Hother by congruence; exact He).
        rewrite (Hl j e He'), (Hrange a n j Hne).
        destruct ((S a <=? j)%nat && (j <? S a + n)%nat && p j) eqn:Hsel;
          [|reflexivity].
        do 3 f_equal.
        assert (Hlt : (a < j)%nat).
        { destruct (S a <=? j)%nat eqn:H1; [|discriminate Hsel].
          apply Nat.leb_le in H1. lia. }
        destruct (doc !! a) as [x|] eqn:Hx.
        -- rewrite (Hstep _ _ _ Hx). now apply drop_insert_lt.
        -- now rewrite (Hnone _ _ Hx).
    + destruct (IH (S a) doc) as [Hlen Hl]. split; [exact Hlen|].
      intros j e He. rewrite (Hl j e He).
      destruct (decide (j = a)) as [-> | Hne].
      * rewrite Hp, !andb_false_r. reflexivity.
      * now rewrite (Hrange a n j Hne).
Qed.

Lemma update_insert (k : nat) (f : Element -> Element) (d : Document) (e : Element) :
  d !! k = Some e -> update k f d = <[k := f e]> d.
Proof.
  intros He. unfold update. apply list_eq. intros j.
  destruct (decide (j = k)) as [-> | Hne].
  - rewrite list_lookup_alter_eq, He. simpl.
    now rewrite list_lookup_insert_eq by (now apply lookup_lt_Some in He).
  - rewrite list_lookup_alter_ne by congruence.
    now rewrite list_lookup_insert_ne by congruence.
Qed.

Lemma update_None (k : nat) (f : Element -> Element) (d : Document) :
  d !! k = None -> update k f d = d.
Proof.
  intros He. unfold update. apply list_eq. intros j.
  destruct (decide (j = k)) as [-> | Hne].
  - now rewrite list_lookup_alter_eq, He.
  - now rewrite list_lookup_alter_ne by congruence.
Qed.

Lemma insert_same (k : nat) (d : Document) (e : Element) :
  d !! k = Some e -> d = <[k := e]> d.
Proof. intros He. symmetry. now apply list_insert_id. Qed.

Lemma hideDetails_lookup (doc : Document) (j : nat) :
  hideDetails doc !! j =
  (fun e => if hasClass "details-row" e then setDisplay "none" e else e) <$> doc !! j.
Proof.
  unfold hideDetails.
  pose proof (forEach_class (fun e e' => e' = setDisplay "none" e) "details-row"
                (fun r d => update r (setDisplay "none") d) doc) as H.
  specialize (H ltac:(intros k d e He; eexists; split;
                      [apply (update_insert _ _ _ _ He) | reflexivity])
                ltac:(intros k d He; apply (update_None _ _ _ He)) j).
  destruct (doc !! j) as [e|]; [|exact H]. simpl.
  destruct H as (e' & -> & Hsel). f_equal.
  destruct (hasClass "details-row" e); exact Hsel.
Qed.

Lemma resetButtons_lookup (doc : Document) (j : nat) :
  resetButtons doc !! j =
  (fun e => if hasClass "expand-btn" e && negb (String.eqb (elementId e) "resetFilters")
            then setTextContent "+" e else e) <$> doc !! j.
Proof.
  unfold resetButtons.
  pose proof (forEach_class
                (fun e e' => e' = if negb (String.eqb (elementId e) "resetFilters")
                                  then setTextContent "+" e else e)
                "expand-btn"
                (fun b d =>
                   match d !! b with
                   | Some e =>
                       if negb (String.eqb (elementId e) "resetFilters")
                       then update b (setTextContent "+") d else d
                   | None => d
                   end) doc) as H.
  specialize (H ltac:(intros k d e He; cbv beta; rewrite He; eexists; split; [|reflexivity];
                      destruct (negb (String.eqb (elementId e) "resetFilters"));
                      [apply (update_insert _ _ _ _ He) | apply (insert_same _ _ _ He)])
                ltac:(intros k d He; cbv beta; now rewrite He) j).
  destruct (doc !! j) as [e|]; [|exact H]. simpl.
  destruct H as (e' & -> & Hsel). f_equal.
  destruct (hasClass "expand-btn" e); simpl; exact Hsel.
Qed.

(** The two loops that open every call leave each element [collapsed]. *)
Lemma collapse_lookup (doc : Document) (j : nat) :
  resetButtons (hideDetails doc) !! j = collapsed <$> doc !! j.
Proof.
  rewrite resetButtons_lookup, hideDetails_lookup.
  destruct (doc !! j) as [e|]; reflexivity.
Qed.

Lemma collapsed_same (e : Element) : sameElement e (collapsed e).
Proof.
  unfold collapsed, sameElement.
  destruct (hasClass "details-row" e); simpl;
    match goal with |- context [if ?b then _ else _] => destruct b end; simpl; auto.
Qed.

Lemma collapsed_control (e : Element) : control (collapsed e) = control e.
Proof.
  unfold collapsed.
  destruct (hasClass "details-row" e); simpl;
    match goal with |- context [if ?b then _ else _] => destruct b end; reflexivity.
Qed.

Lemma collapsed_display (e : Element) :
  display (collapsed e) = if hasClass "details-row" e then "none" else display e.
Proof.
  unfold collapsed.
  destruct (hasClass "details-row" e); simpl;
    match goal with |- context [if ?b then _ else _] => destruct b end; reflexivity.
Qed.

Lemma collapsed_text (e : Element) :
  textContent (collapsed e) =
  if hasClass "expand-btn" e && negb (String.eqb (elementId e) "resetFilters")
  then "+" else textContent e.
Proof.
  unfold collapsed.
  destruct (hasClass "details-row" e); simpl; unfold hasClass; simpl;
    match goal with |- context [if ?b then _ else _] => destruct b end; reflexivity.
Qed.

Lemma firstWithId_Some (id : string) (doc : Document) :
  forall k0 k,
    firstWithId id k0 doc = Some k ->
    (k0 <= k)%nat /\ exists e, doc !! (k - k0)%nat = Some e /\ elementId e = id.
Proof.
  induction doc as [|e doc IH]; intros k0 k; simpl; [discriminate|].
  destruct (String.eqb (elementId e) id) eqn:He.
  - intros [= <-]. split; [lia|]. rewrite Nat.sub_diag. exists e.
    split; [reflexivity|]. now apply String.eqb_eq.
  - intros Hk. apply IH in Hk as (Hle & e' & Hl & Hid). split; [lia|].
    exists e'. split; [|exact Hid].
    replace (k - k0)%nat with (S (k - S k0)) by lia. exact Hl.
Qed.

Lemma getElementById_Some (doc : Document) (id : string) (k : nat) :
  getElementById doc id = Some k ->
  exists e, doc !! k = Some e /\ elementId e = id.
Proof.
  unfold getElementById. destruct (String.eqb id ""); [discriminate|].
  intros Hk. apply firstWithId_Some in Hk as (_ & e & Hl & Hid).
  rewrite Nat.sub_0_r in Hl. eauto.
Qed.

Lemma firstWithId_ids (id : string) (doc doc' : Document) :
  elementId <$> doc' = elementId <$> doc ->
  forall k0, firstWithId id k0 doc' = firstWithId id k0 doc.
Proof.
  revert doc'. induction doc as [|e doc IH]; intros [|e' doc'] Hids k0;
    try discriminate Hids; [reflexivity|].
  simpl in *. injection Hids as He Hids. rewrite He.
  destruct (String.eqb (elementId e) id); [reflexivity|]. now apply IH.
Qed.

Lemma getElementById_ids (id : string) (doc doc' : Document) :
  elementId <$> doc' = elementId <$> doc ->
  getElementById doc' id = getElementById doc id.
Proof.
  intros Hids. unfold getElementById.
  destruct (String.eqb id ""); [reflexivity|]. now apply firstWithId_ids.
Qed.

Lemma ids_pointwise (doc doc' : Document) :
  (forall j, match doc !! j with
             | None => doc' !! j = None
             | Some e => exists e', doc' !! j = Some e' /\ elementId e' = elementId e
             end) ->
  elementId <$> doc' = elementId <$> doc.
Proof.
  intros H. apply list_eq. intros j. rewrite !list_lookup_fmap.
  specialize (H j). destruct (doc !! j) as [e|].
  - destruct H as (e' & -> & Hid). simpl. now rewrite Hid.
  - now rewrite H.
Qed.

Lemma ids_collapse (doc : Document) :
  elementId <$> resetButtons (hideDetails doc) = elementId <$> doc.
Proof.
  apply ids_pointwise. intros j. rewrite collapse_lookup.
  destruct (doc !! j) as [e|]; [|reflexivity].
  exists (collapsed e). split; [reflexivity|]. apply collapsed_same.
Qed.

Lemma ids_update (k : nat) (f : Element -> Element) (doc : Document) :
  (forall e, elementId (f e) = elementId e) ->
  elementId <$> update k f doc = elementId <$> doc.
Proof.
  intros Hf. apply ids_pointwise. intros j. unfold update.
  rewrite list_lookup_alter.
  destruct (decide (k = j)) as [-> | Hne].
  - destruct (doc !! j) as [e|]; [|reflexivity]. simpl. eauto.
  - destruct (doc !! j) as [e|]; [|reflexivity]. eauto.
Qed.

Lemma update_lookup (k j : nat) (f : Element -> Element) (doc : Document) :
  update k f doc !! j = (if decide (k = j) then f else fun e => e) <$> doc !! j.
Proof.
  unfold update. rewrite list_lookup_alter.
  destruct (decide (k = j)) as [-> | Hne]; [reflexivity|].
  now destruct (doc !! j).
Qed.

(** X11.  Only one details row can be open.  When [toggleRow] returns,
    every element has kept its id, its classes, its attributes and its
    value.  The element of the given id is open when it was not open
    before; when it was open it is closed if it is a details row, and is
    left open if it is not.  Every other details row is closed, and the
    display of every other element is unchanged.  The button passed shows
    a minus sign when the element was just opened; otherwise every expand
    button other than the one with id resetFilters shows a plus sign, and
    the text of every other element is unchanged. *)
Theorem toggleRow_accordion (id : string) (btn : nat) (doc doc' : Document) :
  toggleRow id btn doc = (doc', Ok tt) ->
  exists row e,
    getElementById doc id = Some row /\ doc !! row = Some e /\
    length doc' = length doc /\
    forall j e0,
      doc !! j = Some e0 ->
      exists e',
        doc' !! j = Some e' /\ sameElement e0 e' /\ control e' = control e0 /\
        display e' =
          (if (j =? row)%nat && negb (String.eqb (display e) "table-row")
           then "table-row"
           else if hasClass "details-row" e0 then "none" else display e0) /\
        textContent e' =
          (if (j =? btn)%nat && negb (String.eqb (display e) "table-row")
           then minusSign
           else if hasClass "expand-btn" e0 &&
                   negb (String.eqb (elementId e0) "resetFilters")
                then "+" else textContent e0).
Proof.
  unfold toggleRow. destruct (getElementById doc id) as [row|] eqn:Hrow; [|discriminate].
  destruct (getElementById_Some _ _ _ Hrow) as (e & He & _). rewrite He.
  intros Hdoc. exists row, e. split; [reflexivity|]. split; [exact He|].
  destruct (String.eqb (display e) "table-row") eqn:Hopen; simpl in Hdoc;
    injection Hdoc as <-.
  - split.
    { transitivity (length (elementId <$> resetButtons (hideDetails doc)));
        [now rewrite length_fmap|]. now rewrite ids_collapse, length_fmap. }
    intros j e0 Hj. rewrite collapse_lookup, Hj. simpl.
    exists (collapsed e0). split; [reflexivity|].
    split; [apply collapsed_same|]. split; [apply collapsed_control|].
    rewrite !andb_false_r.
    split; [apply collapsed_display | apply collapsed_text].
  - split.
    { unfold update. rewrite !length_alter.
      transitivity (length (elementId <$> resetButtons (hideDetails doc)));
        [now rewrite length_fmap|]. now rewrite ids_collapse, length_fmap. }
    intros j e0 Hj. rewrite !update_lookup, collapse_lookup, Hj. simpl.
    eexists. split; [reflexivity|]. rewrite !andb_true_r.
    destruct (collapsed_same e0) as (Hid & Hcl & Hat).
    pose proof (collapsed_control e0) as Hc.
    pose proof (collapsed_display e0) as Hd.
    pose proof (collapsed_text e0) as Ht.
    destruct (Nat.eqb_spec j btn) as [Hjb | Hjb], (Nat.eqb_spec j row) as [Hjr | Hjr];
      repeat match goal with
             | |- context [decide (?a = ?b)] =>
                 destruct (decide (a = b)); try congruence
             end;
      unfold sameElement; simpl; auto.
Qed.

Lemma element_eq (e e' : Element) :
  elementId e = elementId e' -> classList e = classList e' ->
  attributes e = attributes e' -> display e = display e' ->
  textContent e = textContent e' -> control e = control e' -> e = e'.
Proof. destruct e, e'; simpl; intros; subst; reflexivity. Qed.

Lemma collapsed_absorb (e : Element) (reopened marked : bool) :
  (reopened = true -> hasClass "details-row" e = true) ->
  (marked = true ->
   hasClass "expand-btn" e = true /\ String.eqb (elementId e) "resetFilters" = false) ->
  collapsed ((if marked then setTextContent minusSign else fun x => x)
               ((if reopened then setDisplay "table-row" else fun x => x)
                  (collapsed e))) = collapsed e.
Proof.
  intros Hr Hm.
  set (y := (if marked then setTextContent minusSign else fun x => x)
              ((if reopened then setDisplay "table-row" else fun x => x)
                 (collapsed e))).
  destruct (collapsed_same e) as (Hid & Hcl & Hat).
  assert (Hy : sameElement e y /\ control y = control e /\
               display y = (if reopened then "table-row" else display (collapsed e)) /\
               textContent y = (if marked then minusSign else textContent (collapsed e))).
  { unfold y, sameElement. pose proof (collapsed_control e) as Hc.
    destruct marked, reopened; cbn [setTextContent setDisplay elementId classList
      attributes display textContent control]; auto 10. }
  destruct Hy as ((Hyid & Hycl & Hyat) & Hyc & Hyd & Hyt).
  destruct (collapsed_same y) as (Hid' & Hcl' & Hat').
  assert (Hclass : forall cls, hasClass cls y = hasClass cls e)
    by (intros cls; unfold hasClass; now rewrite Hycl).
  apply element_eq.
  - congruence.
  - congruence.
  - congruence.
  - rewrite !collapsed_display, Hclass, Hyd.
    destruct (hasClass "details-row" e) eqn:Hd; [reflexivity|].
    destruct reopened; [specialize (Hr eq_refl); discriminate Hr|].
    now rewrite collapsed_display, Hd.
  - rewrite !collapsed_text, Hclass, Hyid, Hyt.
    destruct (hasClass "expand-btn" e && negb (String.eqb (elementId e) "resetFilters"))
      eqn:Hb; [reflexivity|].
    destruct marked.
    + destruct (Hm eq_refl) as [Ha Hb']. rewrite Ha, Hb' in Hb. discriminate Hb.
    + now rewrite collapsed_text, Hb.
  - rewrite !collapsed_control. exact Hyc.
Qed.

(** X12.  Opening a details row and toggling it again with the same button
    leaves the page as a single pass of the two resetting loops would:
    every details row closed, every expand button showing a plus sign. *)
Theorem toggleRow_twice_closes (id : string) (btn row : nat) (doc : Document)
  (e b : Element) :
  getElementById doc id = Some row ->
  doc !! row = Some e ->
  hasClass "details-row" e = true ->
  display e <> "table-row" ->
  doc !! btn = Some b ->
  hasClass "expand-btn" b = true ->
  elementId b <> "resetFilters" ->
  exists doc1,
    toggleRow id btn doc = (doc1, Ok tt) /\
    (exists e1, doc1 !! row = Some e1 /\ display e1 = "table-row") /\
    toggleRow id btn doc1 = (resetButtons (hideDetails doc), Ok tt).
Proof.
  intros Hrow He Hd Hclosed Hb Hbtn Hbid.
  apply String.eqb_neq in Hclosed. apply String.eqb_neq in Hbid.
  set (doc1 := update btn (setTextContent minusSign)
                 (update row (setDisplay "table-row") (resetButtons (hideDetails doc)))).
  assert (Hl : forall j,
             doc1 !! j =
             (fun x => (if decide (btn = j) then setTextContent minusSign else fun y => y)
                         ((if decide (row = j) then setDisplay "table-row" else fun y => y)
                            (collapsed x))) <$> doc !! j).
  { intros j. unfold doc1. rewrite !update_lookup, collapse_lookup.
    now destruct (doc !! j). }
  exists doc1. split; [|split].
  - unfold toggleRow. rewrite Hrow, He, Hclosed. reflexivity.
  - rewrite Hl, He. simpl. eexists. split; [reflexivity|].
    destruct (decide (btn = row)), (decide (row = row)); simpl;
      try reflexivity; contradiction.
  - assert (Hids : elementId <$> doc1 = elementId <$> doc).
    { unfold doc1. rewrite !ids_update by reflexivity. apply ids_collapse. }
    unfold toggleRow. rewrite (getElementById_ids _ _ _ Hids), Hrow.
    rewrite Hl, He. simpl.
    assert (Hopen : String.eqb
                      (display
                         ((if decide (btn = row) then setTextContent minusSign
                           else fun y => y)
                            ((if decide (row = row) then setDisplay "table-row"
                              else fun y => y) (collapsed e)))) "table-row" = true).
    { destruct (decide (btn = row)), (decide (row = row)); simpl;
        try reflexivity; contradiction. }
    rewrite Hopen. simpl. f_equal.
    apply list_eq. intros j. rewrite !collapse_lookup, Hl.
    destruct (doc !! j) as [x|] eqn:Hx; [|reflexivity]. simpl. f_equal.
    destruct (decide (btn = j)) as [Hbj | Hbj], (decide (row = j)) as [Hrj | Hrj].
    + apply (collapsed_absorb x true true); intros _; subst; [congruence|].
      assert (x = b) by congruence. subst x. auto.
    + apply (collapsed_absorb x false true); [discriminate|]. intros _. subst.
      assert (x = b) by congruence. subst x. auto.
    + apply (collapsed_absorb x true false); [|discriminate]. intros _. subst.
      congruence.
    + apply (collapsed_absorb x false false); discriminate.
Qed.

Section PageProperties.

Variable roundDouble : Q -> number.
Variable innerText : Document -> nat -> string.

Lemma rowMatches_attributes (s : string) (c m sec : option string)
  (e e' : Element) (text : string) :
  attributes e' = attributes e ->
  rowMatches roundDouble s c m sec e' text = rowMatches roundDouble s c m sec e text.
Proof. intros H. unfold rowMatches, getAttribute. now rewrite H. Qed.

Lemma filterRows_lookup (s : string) (c m sec : option string) (doc : Document)
  (j : nat) :
  match doc !! j with
  | None =>
      forEach (filterRow roundDouble innerText s c m sec)
              (querySelectorAll doc "row-tool") doc !! j = None
  | Some e =>
      exists e',
        forEach (filterRow roundDouble innerText s c m sec)
                (querySelectorAll doc "row-tool") doc !! j = Some e' /\
        (if hasClass "row-tool" e
         then exists text,
             e' = setDisplay (if rowMatches roundDouble s c m sec e text
                              then "" else "none") e
         else e' = e)
  end.
Proof.
  apply (forEach_class
           (fun e e' => exists text,
                e' = setDisplay (if rowMatches roundDouble s c m sec e text
                                 then "" else "none") e)).
  - intros k d e He. unfold filterRow. rewrite He. eexists. split.
    + apply (update_insert _ _ _ _ He).
    + eexists. reflexivity.
  - intros k d He. unfold filterRow. now rewrite He.
Qed.

(** What [applyFilters] makes of each element. *)
Lemma applyFilters_pointwise (doc doc' : Document) :
  applyFilters roundDouble innerText doc = (doc', Ok tt) ->
  exists s c m sec,
    readFilters doc = Ok (s, c, m, sec) /\
    length doc' = length doc /\
    forall j e,
      doc !! j = Some e ->
      exists e',
        doc' !! j = Some e' /\
        (if hasClass "row-tool" e
         then exists text,
             e' = setDisplay (if rowMatches roundDouble s c m sec e text
                              then "" else "none") (collapsed e)
         else e' = collapsed e).
Proof.
  unfold applyFilters.
  destruct (readFilters doc) as [[[[s c] m] sec]|] eqn:Hread; [|discriminate].
  intros [= <-]. exists s, c, m, sec. split; [reflexivity|].
  set (doc1 := resetButtons (hideDetails doc)).
  assert (Hpoint : forall j e,
             doc !! j = Some e ->
             exists e',
               forEach (filterRow roundDouble innerText s c m sec)
                       (querySelectorAll doc1 "row-tool") doc1 !! j = Some e' /\
               (if hasClass "row-tool" e
                then exists text,
                    e' = setDisplay (if rowMatches roundDouble s c m sec e text
                                     then "" else "none") (collapsed e)
                else e' = collapsed e)).
  { intros j e He. pose proof (filterRows_lookup s c m sec doc1 j) as H.
    unfold doc1 in H at 1. rewrite collapse_lookup, He in H. simpl in H.
    destruct H as (e' & Hl & Hsel). exists e'. split; [exact Hl|].
    destruct (collapsed_same e) as (_ & Hcl & Hat).
    unfold hasClass in Hsel |- *. rewrite Hcl in Hsel.
    destruct (existsb (String.eqb "row-tool") (classList e)); [|exact Hsel].
    destruct Hsel as (text & ->). exists text.
    now rewrite (rowMatches_attributes _ _ _ _ _ _ _ Hat). }
  split; [|exact Hpoint].
  apply Nat.le_antisymm.
  - apply Nat.nlt_ge. intros Hlt.
    destruct (lookup_lt_is_Some_2 _ _ Hlt) as [e' He'].
    pose proof (filterRows_lookup s c m sec doc1 (length doc)) as H.
    unfold doc1 in H at 1. rewrite collapse_lookup in H.
    rewrite (lookup_ge_None_2 doc (length doc)) in H by lia. simpl in H.
    fold doc1 in He'. congruence.
  - apply Nat.nlt_ge. intros Hlt.
    destruct (lookup_lt_is_Some_2 _ _ Hlt) as [e He].
    destruct (Hpoint _ _ He) as (e' & Hl & _).
    apply lookup_lt_Some in Hl. fold doc1 in Hlt. lia.
Qed.

(** Each tool row is tested on the page as it is when its turn comes. *)
Lemma filterRows_states (s : string) (c m sec : option string) (doc : Document)
  (j : nat) (e : Element) :
  doc !! j = Some e ->
  hasClass "row-tool" e = true ->
  forEach (filterRow roundDouble innerText s c m sec)
          (querySelectorAll doc "row-tool") doc !! j =
  Some (setDisplay
          (if rowMatches roundDouble s c m sec e
                (innerText
                   (take j (forEach (filterRow roundDouble innerText s c m sec)
                                    (querySelectorAll doc "row-tool") doc)
                    ++ drop j doc)%list j)
           then "" else "none") e).
Proof.
  intros He Hcls. unfold querySelectorAll.
  destruct (forEach_states
              (fun k d x =>
                 setDisplay (if rowMatches roundDouble s c m sec x (innerText d k)
                             then "" else "none") x)
              (fun k => match doc !! k with
                        | Some x => hasClass "row-tool" x
                        | None => false
                        end)
              (filterRow roundDouble innerText s c m sec))
    with (n := length doc) (a := 0%nat) (doc := doc) as [_ Hl].
  - intros k d x Hx. unfold filterRow. rewrite Hx. apply (update_insert _ _ _ _ Hx).
  - intros k d Hx. unfold filterRow. now rewrite Hx.
  - rewrite (Hl j e He), He, Hcls.
    replace ((j <? 0 + length doc)%nat) with true
      by (symmetry; apply Nat.ltb_lt; apply lookup_lt_Some in He; lia).
    reflexivity.
Qed.

(** X13.  When [applyFilters] returns, every element has kept its id, its
    classes, its attributes and its value; every details row is closed and
    the expand buttons other than the one with id resetFilters show a plus
    sign; and a tool row is shown or hidden according to its attributes,
    the four controls and its [innerText], the text the browser reports
    for it on the page as it is when the row is tested: the rows before it
    already shown or hidden, the rest of the page as the two resetting
    loops left it. *)
Theorem applyFilters_effect (doc doc' : Document) :
  applyFilters roundDouble innerText doc = (doc', Ok tt) ->
  exists s c m sec,
    readFilters doc = Ok (s, c, m, sec) /\
    length doc' = length doc /\
    forall j e,
      doc !! j = Some e ->
      exists e',
        doc' !! j = Some e' /\ sameElement e e' /\ control e' = control e /\
        textContent e' = textContent (collapsed e) /\
        (hasClass "row-tool" e = true ->
         display e' =
         if rowMatches roundDouble s c m sec e
              (innerText (take j doc' ++ drop j (resetButtons (hideDetails doc)))%list j)
         then "" else "none") /\
        (hasClass "row-tool" e = false -> display e' = display (collapsed e)).
Proof.
  intros Happly.
  destruct (applyFilters_pointwise _ _ Happly) as (s & c & m & sec & Hread & Hlen & Hp).
  exists s, c, m, sec. split; [exact Hread|]. split; [exact Hlen|].
  intros j e He. destruct (Hp j e He) as (e' & Hl & Hsel).
  exists e'. split; [exact Hl|].
  destruct (collapsed_same e) as (Hid & Hcl & Hat).
  destruct (hasClass "row-tool" e) eqn:Hcls.
  - assert (Hstate : doc' !! j =
              Some (setDisplay
                      (if rowMatches roundDouble s c m sec e
                            (innerText
                               (take j doc' ++ drop j (resetButtons (hideDetails doc)))%list j)
                       then "" else "none") (collapsed e))).
    { unfold applyFilters in Happly. rewrite Hread in Happly.
      pose proof (f_equal fst Happly) as Hdoc. cbn [fst] in Hdoc. subst doc'.
      rewrite (filterRows_states s c m sec _ j (collapsed e)).
      - now rewrite (rowMatches_attributes _ _ _ _ _ _ _ Hat).
      - now rewrite collapse_lookup, He.
      - unfold hasClass in Hcls |- *. now rewrite Hcl. }
    rewrite Hl in Hstate. injection Hstate as ->. simpl.
    split; [unfold sameElement; simpl; auto|].
    split; [apply collapsed_control|]. split; [reflexivity|].
    split; [reflexivity | discriminate].
  - subst e'. split; [apply collapsed_same|].
    split; [apply collapsed_control|]. split; [reflexivity|].
    split; [discriminate | reflexivity].
Qed.

Lemma controlValue_pointwise (doc doc' : Document) (id : string) :
  length doc' = length doc ->
  (forall j e, doc !! j = Some e ->
               exists e', doc' !! j = Some e' /\ elementId e' = elementId e /\
                          control e' = control e) ->
  controlValue doc' id = controlValue doc id.
Proof.
  intros Hlen H.
  assert (Hids : elementId <$> doc' = elementId <$> doc).
  { apply ids_pointwise. intros j. destruct (doc !! j) as [e|] eqn:He.
    - destruct (H j e He) as (e' & Hl & Hid & _). eauto.
    - apply lookup_ge_None. apply lookup_ge_None in He. lia. }
  unfold controlValue. rewrite (getElementById_ids _ _ _ Hids).
  destruct (getElementById doc id) as [k|] eqn:Hk; [|reflexivity].
  destruct (getElementById_Some _ _ _ Hk) as (e & He & _).
  destruct (H k e He) as (e' & -> & _ & ->). now rewrite He.
Qed.

Lemma readFilters_pointwise (doc doc' : Document) :
  length doc' = length doc ->
  (forall j e, doc !! j = Some e ->
               exists e', doc' !! j = Some e' /\ elementId e' = elementId e /\
                          control e' = control e) ->
  readFilters doc' = readFilters doc.
Proof.
  intros Hlen H. unfold readFilters.
  now rewrite !(controlValue_pointwise doc doc') by assumption.
Qed.

Lemma collapse_pointwise (doc : Document) :
  length (resetButtons (hideDetails doc)) = length doc /\
  forall j e, doc !! j = Some e ->
              exists e', resetButtons (hideDetails doc) !! j = Some e' /\
                         elementId e' = elementId e /\ control e' = control e.
Proof.
  split.
  - transitivity (length (elementId <$> resetButtons (hideDetails doc)));
      [now rewrite length_fmap|]. now rewrite ids_collapse, length_fmap.
  - intros j e He. rewrite collapse_lookup, He. simpl. eexists.
    split; [reflexivity|]. split; [apply collapsed_same | apply collapsed_control].
Qed.

Lemma controlValue_assigned (doc : Document) (id v : string) (k : nat) (e : Element) :
  getElementById doc id = Some k ->
  doc !! k = Some e ->
  controlValue (update k (setValue v) doc) id = Ok (valueOf (assign v (control e))).
Proof.
  intros Hk He. unfold controlValue.
  rewrite (getElementById_ids id doc) by (now apply ids_update).
  rewrite Hk, update_lookup, He. simpl.
  destruct (decide (k = k)); [reflexivity | contradiction].
Qed.

Lemma controlValue_other (doc : Document) (id id' v : string) (k' : nat) :
  getElementById doc id' = Some k' ->
  id <> id' ->
  controlValue (update k' (setValue v) doc) id = controlValue doc id.
Proof.
  intros Hk' Hne. unfold controlValue.
  rewrite (getElementById_ids id doc) by (now apply ids_update).
  destruct (getElementById doc id) as [k|] eqn:Hk; [|reflexivity].
  destruct (getElementById_Some _ _ _ Hk) as (e & He & Hid).
  destruct (getElementById_Some _ _ _ Hk') as (e' & He' & Hid').
  rewrite update_lookup, He. simpl.
  destruct (decide (k' = k)) as [-> | _]; [|reflexivity]. congruence.
Qed.

Lemma accepted_value (doc : Document) (id v : string) :
  controlAccepts doc id v ->
  exists k, getElementById doc id = Some k /\
            controlValue (update k (setValue v) doc) id = Ok (Some v).
Proof.
  intros (k & e & Hk & He & Hacc). exists k. split; [exact Hk|].
  rewrite (controlValue_assigned _ _ _ _ _ Hk He). now rewrite Hacc.
Qed.

Lemma controlAccepts_other (doc : Document) (id id' v v' : string) (k' : nat) :
  getElementById doc id' = Some k' ->
  id <> id' ->
  controlAccepts doc id v ->
  controlAccepts (update k' (setValue v') doc) id v.
Proof.
  intros Hk' Hne (k & e & Hk & He & Hacc).
  destruct (getElementById_Some _ _ _ Hk) as (e0 & He0 & Hid).
  destruct (getElementById_Some _ _ _ Hk') as (e' & He' & Hid').
  exists k, e. split; [|split; [|exact Hacc]].
  - now rewrite (getElementById_ids id doc) by (now apply ids_update).
  - rewrite update_lookup, He. simpl.
    destruct (decide (k' = k)) as [-> | _]; [|reflexivity]. congruence.
Qed.

Lemma rowMatches_unfiltered (e : Element) (text : string) :
  rowMatches roundDouble "" (Some "all") (Some "all") (Some "all") e text = true.
Proof.
  unfold rowMatches. replace (includes "" (toUpperCase text)) with true; [reflexivity|].
  now destruct (toUpperCase text).
Qed.

(** X14.  On a page whose search box can be emptied and whose three selects
    offer the option all, [resetFilters] returns, leaves the four controls
    at the empty search and all, shows every tool row and closes every
    other details row. *)
Theorem resetFilters_shows_every_row (doc : Document) :
  controlAccepts doc "toolSearch" "" ->
  controlAccepts doc "categoryFilter" "all" ->
  controlAccepts doc "maintenanceFilter" "all" ->
  controlAccepts doc "securityFilter" "all" ->
  exists doc',
    resetFilters roundDouble innerText doc = (doc', Ok tt) /\
    length doc' = length doc /\
    readFilters doc' = Ok ("", Some "all", Some "all", Some "all") /\
    forall j e',
      doc' !! j = Some e' ->
      (hasClass "row-tool" e' = true -> display e' = "") /\
      (hasClass "row-tool" e' = false -> hasClass "details-row" e' = true ->
       display e' = "none").
Proof.
  intros H1 H2 H3 H4.
  destruct (accepted_value _ _ _ H1) as (k1 & Hk1 & Hv1).
  set (doc1 := update k1 (setValue "") doc) in *.
  assert (H2a : controlAccepts doc1 "categoryFilter" "all")
    by (apply (controlAccepts_other _ _ _ _ _ _ Hk1); [discriminate | exact H2]).
  assert (H3a : controlAccepts doc1 "maintenanceFilter" "all")
    by (apply (controlAccepts_other _ _ _ _ _ _ Hk1); [discriminate | exact H3]).
  assert (H4a : controlAccepts doc1 "securityFilter" "all")
    by (apply (controlAccepts_other _ _ _ _ _ _ Hk1); [discriminate | exact H4]).
  destruct (accepted_value _ _ _ H2a) as (k2 & Hk2 & Hv2).
  set (doc2 := update k2 (setValue "all") doc1) in *.
  assert (H3b : controlAccepts doc2 "maintenanceFilter" "all")
    by (apply (controlAccepts_other _ _ _ _ _ _ Hk2); [discriminate | exact H3a]).
  assert (H4b : controlAccepts doc2 "securityFilter" "all")
    by (apply (controlAccepts_other _ _ _ _ _ _ Hk2); [discriminate | exact H4a]).
  destruct (accepted_value _ _ _ H3b) as (k3 & Hk3 & Hv3).
  set (doc3 := update k3 (setValue "all") doc2) in *.
  assert (H4c : controlAccepts doc3 "securityFilter" "all")
    by (apply (controlAccepts_other _ _ _ _ _ _ Hk3); [discriminate | exact H4b]).
  destruct (accepted_value _ _ _ H4c) as (k4 & Hk4 & Hv4).
  set (doc4 := update k4 (setValue "all") doc3) in *.
  assert (Hs : controlValue doc4 "toolSearch" = Ok (Some "")).
  { unfold doc4. rewrite (controlValue_other _ _ _ _ _ Hk4) by discriminate.
    unfold doc3. rewrite (controlValue_other _ _ _ _ _ Hk3) by discriminate.
    unfold doc2. rewrite (controlValue_other _ _ _ _ _ Hk2) by discriminate.
    exact Hv1. }
  assert (Hc : controlValue doc4 "categoryFilter" = Ok (Some "all")).
  { unfold doc4. rewrite (controlValue_other _ _ _ _ _ Hk4) by discriminate.
    unfold doc3. rewrite (controlValue_other _ _ _ _ _ Hk3) by discriminate.
    exact Hv2. }
  assert (Hm : controlValue doc4 "maintenanceFilter" = Ok (Some "all")).
  { unfold doc4. rewrite (controlValue_other _ _ _ _ _ Hk4) by discriminate.
    exact Hv3. }
  set (doc5 := resetButtons (hideDetails doc4)).
  assert (Hread : readFilters doc5 = Ok ("", Some "all", Some "all", Some "all")).
  { unfold doc5. destruct (collapse_pointwise doc4) as [Hlen Hp].
    rewrite (readFilters_pointwise _ _ Hlen Hp). unfold readFilters.
    rewrite Hs, Hc, Hm, Hv4. reflexivity. }
  destruct (applyFilters roundDouble innerText doc5) as [doc' r] eqn:Happly.
  assert (Hr : r = Ok tt).
  { unfold applyFilters in Happly. rewrite Hread in Happly.
    pose proof (f_equal snd Happly) as Hsnd. cbn [snd] in Hsnd.
    symmetry. exact Hsnd. }
  subst r. exists doc'.
  destruct (applyFilters_pointwise _ _ Happly) as (s & c & m & sec & Hread' & Hlen & Hp).
  rewrite Hread in Hread'. injection Hread' as <- <- <- <-.
  split; [|split; [|split]].
  - unfold resetFilters, assignValue, andThen. rewrite Hk1. fold doc1.
    rewrite Hk2. fold doc2. rewrite Hk3. fold doc3. rewrite Hk4. fold doc4.
    exact Happly.
  - rewrite Hlen. unfold doc5. rewrite (proj1 (collapse_pointwise doc4)).
    unfold doc4, doc3, doc2, doc1, update. now rewrite !length_alter.
  - rewrite <- Hread. apply readFilters_pointwise; [exact Hlen|].
    intros j e He. destruct (Hp j e He) as (e' & Hl & Hsel).
    exists e'. split; [exact Hl|].
    destruct (collapsed_same e) as (Hid & _).
    destruct (hasClass "row-tool" e).
    + destruct Hsel as (text & ->). simpl. split; [exact Hid | apply collapsed_control].
    + subst e'. split; [exact Hid | apply collapsed_control].
  - intros j e' He'.
    assert (Hlt : (j < length doc5)%nat)
      by (rewrite <- Hlen; now apply lookup_lt_Some in He').
    destruct (lookup_lt_is_Some_2 _ _ Hlt) as [e He].
    destruct (Hp j e He) as (e'' & Hl & Hsel).
    assert (e'' = e') by congruence. subst e''.
    destruct (collapsed_same e) as (_ & Hcl & _).
    destruct (hasClass "row-tool" e) eqn:Ht.
    + destruct Hsel as (text & ->). rewrite rowMatches_unfiltered.
      split; [reflexivity|]. intros Hf. exfalso.
      assert (Hsame : hasClass "row-tool" (setDisplay "" (collapsed e))
                      = hasClass "row-tool" e)
        by (unfold hasClass; cbn [classList setDisplay]; now rewrite Hcl).
      congruence.
    + subst e'.
      assert (Hclass : forall cls, hasClass cls (collapsed e) = hasClass cls e)
        by (intros cls; unfold hasClass; now rewrite Hcl).
      rewrite !Hclass. split; [congruence|]. intros _ Hd.
      now rewrite collapsed_display, Hd.
Qed.

End PageProperties.
(** *** Reading numbers back *)

Lemma spanDigits_uint (u : Decimal.uint) :
  spanDigits 10 (NilEmpty.string_of_uint u) = (uintDigits u, "").
Proof. induction u; simpl; rewrite ?IHu; reflexivity. Qed.

Lemma digits_of_uint_acc (u : Decimal.uint) :
  forall acc : positive,
    fold_left (fun a d => 10 * a + d) (uintDigits u) (Zpos acc)
    = Zpos (Pos.of_uint_acc u acc).
Proof.
  induction u; intros acc; simpl uintDigits; simpl fold_left;
    [reflexivity | ..]; cbn [Pos.of_uint_acc];
    match goal with
    | |- fold_left _ _ ?z = _ =>
        match goal with
        | |- _ = Zpos (Pos.of_uint_acc _ ?a) =>
            replace z with (Zpos a) by lia
        end
    end; apply IHu.
Qed.

Lemma digits_of_uint (u : Decimal.uint) :
  digitsValue 10 (uintDigits u) = Z.of_N (Pos.of_uint u).
Proof.
  unfold digitsValue.
  induction u; simpl uintDigits; simpl fold_left; [reflexivity | exact IHu | ..];
    simpl Pos.of_uint; simpl Z.of_N; apply digits_of_uint_acc.
Qed.

Section ReadingNumbers.

Variable roundDouble : Q -> number.

Lemma parseIntDigits_uint (neg : bool) (u : Decimal.uint) :
  u <> Decimal.Nil ->
  parseIntDigits roundDouble neg (NilEmpty.string_of_uint u) =
  roundDouble (inject_Z (if neg then - Z.of_N (Pos.of_uint u) else Z.of_N (Pos.of_uint u))).
Proof.
  intros Hu. rewrite <- digits_of_uint. unfold parseIntDigits.
  assert (Hbase : radixPrefix (NilEmpty.string_of_uint u)
                  = (10%nat, NilEmpty.string_of_uint u)).
  { destruct u as [|u|u|u|u|u|u|u|u|u|u]; try reflexivity.
    destruct u; reflexivity. }
  rewrite Hbase, spanDigits_uint.
  destruct u; try contradiction; reflexivity.
Qed.

Lemma parseInt_printed (d : Z) :
  parseInt roundDouble (Some (Z_to_string d)) = roundDouble (inject_Z d).
Proof.
  unfold parseInt, parseIntString, Z_to_string.
  destruct d as [|p|p]; [reflexivity | |].
  - simpl Z.to_int. unfold NilZero.string_of_int, NilZero.string_of_uint.
    pose proof (DecimalPos.Unsigned.to_uint_nonnil p) as Hnil.
    pose proof (DecimalPos.Unsigned.of_to p) as Hval.
    pose proof (parseIntDigits_uint false (Pos.to_uint p) Hnil) as Hparse.
    rewrite Hval in Hparse. simpl Z.of_N in Hparse.
    destruct (Pos.to_uint p) as [|u|u|u|u|u|u|u|u|u|u]; try contradiction;
      exact Hparse.
  - simpl Z.to_int. unfold NilZero.string_of_int, NilZero.string_of_uint.
    pose proof (DecimalPos.Unsigned.to_uint_nonnil p) as Hnil.
    pose proof (DecimalPos.Unsigned.of_to p) as Hval.
    pose proof (parseIntDigits_uint true (Pos.to_uint p) Hnil) as Hparse.
    rewrite Hval in Hparse. simpl Z.of_N in Hparse.
    destruct (Pos.to_uint p) as [|u|u|u|u|u|u|u|u|u|u]; try contradiction;
      exact Hparse.
Qed.

(** X15.  [parseInt] reads back what line 232 writes as the day count: the
    decimal digits of an integer, with their sign, parse to that integer,
    rounded as the host rounds it; a missing attribute and the text NaN
    parse to NaN. *)
Theorem parseInt_reads_printed_integer :
  (forall d : Z, parseInt roundDouble (Some (Z_to_string d)) = roundDouble (inject_Z d)) /\
  parseInt roundDouble None = NaN /\
  parseInt roundDouble (Some "NaN") = NaN.
Proof. split; [exact parseInt_printed | split; reflexivity]. Qed.

(** *** The filters *)

Lemma numLe_mono (x : number) (a b : Q) :
  (a <= b)%Q -> numLe x a = true -> numLe x b = true.
Proof.
  intros Hab. destruct x as [|q| |]; simpl; try congruence.
  rewrite !Qle_bool_iff. intros Hq. now apply Qle_trans with a.
Qed.

(** X16.  The three maintenance windows are nested and exclude the tools at end
    of life: a row shown under 30 days is shown under 60, one shown under
    60 is shown under 90, one shown under 90 is hidden by the end-of-life
    filter, and a row shown under any maintenance filter is shown under
    all. *)
Theorem maintenance_windows_nested (s : string) (c sec : option string)
  (row : Element) (text : string) :
  (rowMatches roundDouble s c (Some "30") sec row text = true ->
   rowMatches roundDouble s c (Some "60") sec row text = true) /\
  (rowMatches roundDouble s c (Some "60") sec row text = true ->
   rowMatches roundDouble s c (Some "90") sec row text = true) /\
  (rowMatches roundDouble s c (Some "90") sec row text = true ->
   rowMatches roundDouble s c (Some "eol") sec row text = false) /\
  (forall m, rowMatches roundDouble s c m sec row text = true ->
             rowMatches roundDouble s c (Some "all") sec row text = true).
Proof.
  unfold rowMatches, matchesMaintenance. simpl isStr. cbv iota.
  pose proof (numLe_mono (parseInt roundDouble (getAttribute row "data-days")) 30 60
                ltac:(discriminate)) as H36.
  pose proof (numLe_mono (parseInt roundDouble (getAttribute row "data-days")) 60 90
                ltac:(discriminate)) as H69.
  destruct (includes s (toUpperCase text)),
           (matchesCategory c (getAttribute row "data-category")),
           (matchesSecurity sec (isStr (getAttribute row "data-has-vulns") "true")),
           (isStr (getAttribute row "data-eol") "true"),
           (numLe (parseInt roundDouble (getAttribute row "data-days")) 30),
           (numLe (parseInt roundDouble (getAttribute row "data-days")) 60),
           (numLe (parseInt roundDouble (getAttribute row "data-days")) 90);
    simpl in *;
    (split; [|split; [|split]]);
    try (intros; reflexivity); try (intros; discriminate);
    try (intros m Hm; rewrite ?andb_false_r in Hm; discriminate Hm);
    try (specialize (H36 eq_refl); discriminate H36);
    try (specialize (H69 eq_refl); discriminate H69).
Qed.

(** X17.  The two security filters split the rows: with the other controls
    unchanged, a row is shown under exactly one of vulnerable and secure
    when it is shown under all, and under neither when it is not. *)
Theorem security_filters_split_rows (s : string) (c m : option string)
  (row : Element) (text : string) :
  xorb (rowMatches roundDouble s c m (Some "vulnerable") row text)
       (rowMatches roundDouble s c m (Some "secure") row text)
  = rowMatches roundDouble s c m (Some "all") row text.
Proof.
  unfold rowMatches, matchesSecurity. simpl.
  destruct (includes s (toUpperCase text)); simpl; [|reflexivity].
  destruct (matchesCategory c (getAttribute row "data-category")); simpl; [|reflexivity].
  destruct (matchesMaintenance m _ _); simpl; [|reflexivity].
  destruct (isStr (getAttribute row "data-has-vulns") "true"); reflexivity.
Qed.

End ReadingNumbers.


(** *** Rows and filters *)

Lemma falsy_not_true (fracToString : Q -> string) (v : value) (s : string) :
  truthy v = false -> toStringV fracToString v = Ok s -> String.eqb s "true" = false.
Proof.
  destruct v as [| |b|n|str|l|fs|f]; simpl; try discriminate.
  - intros _ [= <-]. reflexivity.
  - intros _ [= <-]. reflexivity.
  - intros -> [= <-]. reflexivity.
  - destruct n as [|q| |]; try discriminate.
    + intros _ [= <-]. reflexivity.
    + intros Hq [= <-]. apply negb_false_iff, Qeq_bool_iff in Hq.
      unfold numberToString, isInteger. destruct q as [n d].
      unfold Qeq in Hq. simpl in Hq. assert (n = 0) as -> by lia.
      reflexivity.
  - intros Hs [= <-]. apply negb_false_iff, String.eqb_eq in Hs. now subst.
Qed.

Lemma falsy_no_date (v : value) : truthy v = false -> optGet v "eolFrom" = VUndef.
Proof.
  destruct v as [| |b|n|str|l|fs|f]; simpl; try discriminate; try reflexivity.
Qed.

(** *** The markup of a row *)

Lemma string_app_assoc (a b c : string) : (a ++ b) ++ c = a ++ b ++ c.
Proof. induction a as [|x a IH]; simpl; [reflexivity | now rewrite IH]. Qed.

Lemma string_app_nil_r (a : string) : a ++ "" = a.
Proof. induction a as [|x a IH]; simpl; [reflexivity | now rewrite IH]. Qed.

Lemma allChars_app (ok : ascii -> bool) (s t : string) :
  allChars ok (s ++ t) = allChars ok s && allChars ok t.
Proof.
  induction s as [|c s IH]; simpl; [reflexivity|].
  now rewrite IH, andb_assoc.
Qed.

Lemma plainChar_codes (c : ascii) :
  plainChar c = true ->
  isCode c 34 = false /\ isCode c 38 = false /\ isCode c 0 = false /\
  isCode c 13 = false.
Proof.
  unfold plainChar. rewrite negb_true_iff, !orb_false_iff. tauto.
Qed.

Lemma plain_noReturn (s : string) : plain s = true -> noReturn s = true.
Proof.
  unfold plain, noReturn. induction s as [|c s IH]; simpl; [reflexivity|].
  intros H. apply andb_true_iff in H as [Hc Hs].
  destruct (plainChar_codes _ Hc) as (_ & _ & _ & ->). now apply IH.
Qed.

Lemma normalizeNewlines_noReturn (s t : string) :
  noReturn s = true -> normalizeNewlines (s ++ t) = s ++ normalizeNewlines t.
Proof.
  unfold noReturn. induction s as [|c s IH]; simpl; [reflexivity|].
  intros H. apply andb_true_iff in H as [Hc Hs].
  apply negb_true_iff in Hc. rewrite Hc. now rewrite IH.
Qed.

Lemma plain_uint (u : Decimal.uint) : plain (NilEmpty.string_of_uint u) = true.
Proof. induction u; simpl; [reflexivity | exact IHu ..]. Qed.

Lemma plain_Z_to_string (d : Z) : plain (Z_to_string d) = true.
Proof.
  unfold Z_to_string, NilZero.string_of_int, NilZero.string_of_uint.
  destruct d as [|p|p]; [reflexivity | |]; simpl Z.to_int; cbv iota.
  - destruct (Pos.to_uint p) eqn:Hu; try reflexivity; rewrite <- Hu; apply plain_uint.
  - change (plain (String "-" (match Pos.to_uint p with
                               | Decimal.Nil => "0"
                               | _ => NilEmpty.string_of_uint (Pos.to_uint p)
                               end)) = true).
    destruct (Pos.to_uint p) eqn:Hu; try reflexivity; rewrite <- Hu;
      apply (plain_uint (Pos.to_uint p)).
Qed.

Lemma falsy_plain (fracToString : Q -> string) (v : value) (s : string) :
  truthy v = false -> toStringV fracToString v = Ok s -> plain s = true.
Proof.
  destruct v as [| |b|n|str|l|fs|f]; simpl; try discriminate.
  - intros _ [= <-]. reflexivity.
  - intros _ [= <-]. reflexivity.
  - intros -> [= <-]. reflexivity.
  - destruct n as [|q| |]; try discriminate.
    + intros _ [= <-]. reflexivity.
    + intros Hq [= <-]. apply negb_false_iff, Qeq_bool_iff in Hq.
      unfold numberToString, isInteger. destruct q as [n d].
      unfold Qeq in Hq. simpl in Hq. assert (n = 0) as -> by lia.
      reflexivity.
  - intros Hs [= <-]. apply negb_false_iff, String.eqb_eq in Hs. now subst.
Qed.

Section MarkupProperties.

Variable characterReference : string -> string * nat.

(** A plain text between double quotes is the value of the attribute. *)
Lemma tokenizeTag_plain (n : string) (done : list (string * string)) (a s t : string) :
  plain s = true ->
  forall v,
    tokenizeTag characterReference InDoubleQuoted (mkDraft n done (Some (a, v))) (s ++ t) =
    tokenizeTag characterReference InDoubleQuoted (mkDraft n done (Some (a, v ++ s))) t.
Proof.
  unfold plain. induction s as [|c s IH]; intros H v.
  - now rewrite string_app_nil_r.
  - simpl in H. apply andb_true_iff in H as [Hc Hs].
    destruct (plainChar_codes _ Hc) as (H34 & H38 & H0 & _).
    cbn [append tokenizeTag step]. unfold inQuoted, valueText.
    rewrite H34, H38, H0. cbn [toValue reading draftName complete].
    rewrite (IH Hs). now rewrite string_app_assoc.
Qed.

Lemma rowStartTag_shape (row : Row) (rest : string) :
  rowStartTag row ++ rest =
  "<tr class=" ++ quoted "row-tool" ++ " data-eol=" ++
  String doubleQuote
    (dataEol row ++
     String doubleQuote
       (" data-category=" ++
        String doubleQuote
          (category row ++
           String doubleQuote
             (" data-days=" ++
              String doubleQuote
                (dataDays row ++
                 String doubleQuote
                   (" data-has-vulns=" ++
                    String doubleQuote
                      ((if hasAnyVulns row then "true" else "false") ++
                       String doubleQuote (String ">" rest)))))))).
Proof.
  unfold rowStartTag, quoted.
  repeat (rewrite ?string_app_assoc; cbn [append]). reflexivity.
Qed.

Lemma rowStartTag_noReturn (row : Row) :
  plain (dataEol row) = true ->
  plain (category row) = true ->
  plain (dataDays row) = true ->
  noReturn (rowStartTag row) = true.
Proof.
  intros Heol Hcat Hdays.
  apply plain_noReturn in Heol, Hcat, Hdays. unfold noReturn in *.
  unfold rowStartTag, quoted.
  repeat (rewrite ?allChars_app; cbn [allChars append]).
  rewrite Heol, Hcat, Hdays. now destruct (hasAnyVulns row).
Qed.

(** What the browser reads back from the start tag of a row whose
    interpolated texts are plain: the attributes as line 232 wrote
    them. *)
Lemma rowStartTag_read (row : Row) (rest : string) :
  plain (dataEol row) = true ->
  plain (category row) = true ->
  plain (dataDays row) = true ->
  startTag characterReference (rowStartTag row ++ rest) =
  Some (mkTag "tr"
          [("class", "row-tool"); ("data-eol", dataEol row);
           ("data-category", category row); ("data-days", dataDays row);
           ("data-has-vulns", if hasAnyVulns row then "true" else "false")]
          false).
Proof.
  intros Heol Hcat Hdays. unfold startTag.
  rewrite (normalizeNewlines_noReturn _ _ (rowStartTag_noReturn _ Heol Hcat Hdays)).
  rewrite rowStartTag_shape.
  change (tokenizeTag characterReference InDoubleQuoted
            (mkDraft "tr" [("class", "row-tool")] (Some ("data-eol", "")))
            (dataEol row ++
             String doubleQuote
               (" data-category=" ++
                String doubleQuote
                  (category row ++
                   String doubleQuote
                     (" data-days=" ++
                      String doubleQuote
                        (dataDays row ++
                         String doubleQuote
                           (" data-has-vulns=" ++
                            String doubleQuote
                              ((if hasAnyVulns row then "true" else "false") ++
                               String doubleQuote
                                 (String ">" (normalizeNewlines rest)))))))))
          = Some (mkTag "tr"
                    [("class", "row-tool"); ("data-eol", dataEol row);
                     ("data-category", category row); ("data-days", dataDays row);
                     ("data-has-vulns", if hasAnyVulns row then "true" else "false")]
                    false)).
  rewrite (tokenizeTag_plain _ _ _ _ _ Heol).
  change (tokenizeTag characterReference InDoubleQuoted
            (mkDraft "tr" [("class", "row-tool"); ("data-eol", dataEol row)]
               (Some ("data-category", "")))
            (category row ++
             String doubleQuote
               (" data-days=" ++
                String doubleQuote
                  (dataDays row ++
                   String doubleQuote
                     (" data-has-vulns=" ++
                      String doubleQuote
                        ((if hasAnyVulns row then "true" else "false") ++
                         String doubleQuote
                           (String ">" (normalizeNewlines rest)))))))
          = Some (mkTag "tr"
                    [("class", "row-tool"); ("data-eol", dataEol row);
                     ("data-category", category row); ("data-days", dataDays row);
                     ("data-has-vulns", if hasAnyVulns row then "true" else "false")]
                    false)).
  rewrite (tokenizeTag_plain _ _ _ _ _ Hcat).
  change (tokenizeTag characterReference InDoubleQuoted
            (mkDraft "tr"
               [("class", "row-tool"); ("data-eol", dataEol row);
                ("data-category", category row)]
               (Some ("data-days", "")))
            (dataDays row ++
             String doubleQuote
               (" data-has-vulns=" ++
                String doubleQuote
                  ((if hasAnyVulns row then "true" else "false") ++
                   String doubleQuote (String ">" (normalizeNewlines rest)))))
          = Some (mkTag "tr"
                    [("class", "row-tool"); ("data-eol", dataEol row);
                     ("data-category", category row); ("data-days", dataDays row);
                     ("data-has-vulns", if hasAnyVulns row then "true" else "false")]
                    false)).
  rewrite (tokenizeTag_plain _ _ _ _ _ Hdays).
  destruct (hasAnyVulns row); reflexivity.
Qed.

End MarkupProperties.

Section RowProperties.

Variable roundDouble : Q -> number.
Variable fracToString : Q -> string.
Variable Date_parse : string -> option Z.
Variable now : Z.
Variable characterReference : string -> string * nat.

Lemma calculateDaysRemaining_shape (dateStr v : value) :
  calculateDaysRemaining roundDouble fracToString Date_parse now dateStr = Ok v ->
  (truthy dateStr = false /\ v = VNull) \/
  (truthy dateStr = true /\
   (v = VNum NaN \/ exists d, v = VNum (Fin (inject_Z d)))).
Proof.
  unfold calculateDaysRemaining. destruct (truthy dateStr); simpl.
  - destruct (newDate roundDouble fracToString Date_parse dateStr) as [[eol|]|];
      simpl; [| |discriminate]; intros [= <-]; right; split; eauto.
  - intros [= <-]. left. auto.
Qed.

(** What the status of a tool records. *)
Lemma lifecycleStatus_shape (releases configItem : value) (st : Status) :
  lifecycleStatus roundDouble fracToString Date_parse now releases configItem = Ok st ->
  calculateDaysRemaining roundDouble fracToString Date_parse now
    (optGet (currentCycle st) "eolFrom") = Ok (daysUntilEol st) /\
  isEol st = (if truthy (currentCycle st) then prop (currentCycle st) "isEol" else VNull) /\
  statusClass st =
    (if truthy (currentCycle st) then
       if truthy (isEol st) then "status-eol"
       else if withinWarning (daysUntilEol st) then "status-warning"
            else "status-active"
     else "status-neutral").
Proof.
  unfold lifecycleStatus.
  destruct (callFind releases (isCurrent fracToString configItem)) as [cycle|];
    simpl; [|discriminate].
  destruct (calculateDaysRemaining roundDouble fracToString Date_parse now
              (optGet cycle "eolFrom")) as [days|] eqn:Hd; simpl; [|discriminate].
  destruct (truthy cycle) eqn:Hc.
  - destruct (truthy (prop cycle "isEol")) eqn:He; simpl.
    + intros [= <-]. simpl. rewrite Hc, He. auto.
    + destruct (withinWarning days) eqn:Hw.
      * destruct (toStringV fracToString days); simpl; [|discriminate].
        intros [= <-]. simpl. rewrite Hc, He, Hw. auto.
      * intros [= <-]. simpl. rewrite Hc, He, Hw. auto.
  - intros [= <-]. simpl. rewrite Hc. auto.
Qed.

Lemma processRow_attributes (i index : nat) (res : TaskResult) (row : Row) :
  processRow roundDouble fracToString Date_parse now i index res = Ok (Some row) ->
  (exists releases,
      lifecycleStatus roundDouble fracToString Date_parse now releases (configItem res)
      = Ok (status row)) /\
  render fracToString (isEol (status row)) = Ok (dataEol row) /\
  render fracToString
    (if nullish (daysUntilEol (status row)) then VNum (Fin 9999)
     else daysUntilEol (status row)) = Ok (dataDays row) /\
  (hasAnyVulns row = true <-> advisoriesA row <> [] \/ advisoriesB row <> []).
Proof.
  unfold processRow.
  head_bind err Eerr. destruct (truthy err); [discriminate|].
  head_bind product Eproduct. head_bind releases Ereleases.
  head_bind st Est. head_bind eols Eeols. head_bind cat Ecat.
  head_bind days Edays. head_bind lbl Elbl. head_bind current Ecurrent.
  head_bind cur Ecur. head_bind curDate EcurDate. head_bind latest Elatest.
  head_bind latests Elatests. head_bind latestDate ElatestDate.
  head_bind hist Ehist. head_bind advA EadvA. head_bind advB EadvB.
  intros [= <-]. cbn [status dataEol dataDays hasAnyVulns advisoriesA advisoriesB].
  split; [eauto|]. split; [assumption|]. split; [assumption|].
  assert (HA : found (osvVulns res) = true <-> advA <> []).
  { destruct (osvVulns res) as [| | | | |[|x xs]| |]; cbn [found elements] in *;
      try (injection EadvA as <-; split; [discriminate | congruence]).
    cbn [mapR] in EadvA.
    destruct (osvAdvisory roundDouble fracToString x); cbn [bind] in EadvA;
      [|discriminate].
    destruct (mapR (osvAdvisory roundDouble fracToString) xs); cbn [bind] in EadvA;
      [|discriminate].
    injection EadvA as <-. split; [discriminate | reflexivity]. }
  assert (HB : found (nvdVulns res) = true <-> advB <> []).
  { destruct (nvdVulns res) as [| | | | |[|x xs]| |]; cbn [found elements] in *;
      try (injection EadvB as <-; split; [discriminate | congruence]).
    cbn [mapR] in EadvB.
    destruct (nvdAdvisory roundDouble fracToString x); cbn [bind] in EadvB;
      [|discriminate].
    destruct (mapR (nvdAdvisory roundDouble fracToString) xs); cbn [bind] in EadvB;
      [|discriminate].
    injection EadvB as <-. split; [discriminate | reflexivity]. }
  rewrite orb_true_iff. tauto.
Qed.

(** What [applyFilters] reads back from the attributes line 232 writes:
    the end-of-life flag and the day count of the status. *)
Lemma attributes_read_back (i index : nat) (res : TaskResult) (row : Row) :
  processRow roundDouble fracToString Date_parse now i index res = Ok (Some row) ->
  (truthy (isEol (status row)) = true -> isEol (status row) = VBool true) ->
  (forall d, daysUntilEol (status row) = VNum (Fin (inject_Z d)) -> Z.abs d <= 2 ^ 53) ->
  exactOnIntegers roundDouble ->
  isStr (Some (dataEol row)) "true" = truthy (isEol (status row)) /\
  forall c : Z,
    Z.abs c <= 2 ^ 53 -> c < 9999 ->
    numLe (parseInt roundDouble (Some (dataDays row))) (inject_Z c)
    = match daysUntilEol (status row) with
      | VNum n => numLe n (inject_Z c)
      | _ => false
      end.
Proof.
  intros Hrow Hflag Hbound Hexact.
  destruct (processRow_attributes _ _ _ _ Hrow) as ((releases & Hst) & Heol & Hd & _).
  destruct (lifecycleStatus_shape _ _ _ Hst) as (Hcalc & _ & _).
  split.
  - simpl. destruct (truthy (isEol (status row))) eqn:Ht.
    + rewrite (Hflag eq_refl) in Heol. simpl in Heol. now injection Heol as <-.
    + exact (falsy_not_true _ _ _ Ht Heol).
  - intros c Hc Hlt.
    apply calculateDaysRemaining_shape in Hcalc
      as [[_ Hv] | [_ [Hv | (d & Hv)]]]; rewrite Hv in Hd |- *.
    + simpl in Hd. injection Hd as <-.
      change "9999" with (Z_to_string 9999).
      rewrite parseInt_printed, Hexact
        by (apply Z.leb_le; reflexivity).
      simpl. apply not_true_is_false. rewrite Qle_bool_iff, <- Zle_Qle.
      rewrite ?Z.div_1_r. lia.
    + simpl in Hd. injection Hd as <-. reflexivity.
    + specialize (Hbound d Hv). unfold render in Hd. cbn [nullish toStringV] in Hd.
      rewrite numberToString_integer in Hd
        by exact Hbound.
      injection Hd as <-.
      now rewrite parseInt_printed, Hexact.
Qed.

(** The texts line 232 writes for the end-of-life flag and the day count
    are plain. *)
Lemma attributes_plain (i index : nat) (res : TaskResult) (row : Row) :
  processRow roundDouble fracToString Date_parse now i index res = Ok (Some row) ->
  (truthy (isEol (status row)) = true -> isEol (status row) = VBool true) ->
  (forall d, daysUntilEol (status row) = VNum (Fin (inject_Z d)) -> Z.abs d <= 2 ^ 53) ->
  plain (dataEol row) = true /\ plain (dataDays row) = true.
Proof.
  intros Hrow Hflag Hbound.
  destruct (processRow_attributes _ _ _ _ Hrow) as ((releases & Hst) & Heol & Hd & _).
  destruct (lifecycleStatus_shape _ _ _ Hst) as (Hcalc & _ & _).
  split.
  - destruct (truthy (isEol (status row))) eqn:Ht.
    + rewrite (Hflag eq_refl) in Heol. simpl in Heol. now injection Heol as <-.
    + exact (falsy_plain _ _ _ Ht Heol).
  - apply calculateDaysRemaining_shape in Hcalc
      as [[_ Hv] | [_ [Hv | (d & Hv)]]]; rewrite Hv in Hd.
    + simpl in Hd. now injection Hd as <-.
    + simpl in Hd. now injection Hd as <-.
    + specialize (Hbound d Hv). unfold render in Hd. cbn [nullish toStringV] in Hd.
      rewrite numberToString_integer in Hd by exact Hbound.
      injection Hd as <-. apply plain_Z_to_string.
Qed.

(** X18.  The maintenance filter agrees with the status badge.  For a
    rendered row whose end-of-life flag is a boolean or is missing, whose
    category is plain text (no double quote, ampersand, NUL or carriage
    return), and on a host that rounds no integer it can hold: the
    markup of line 232, whatever follows it, opens with a tr tag of class
    row-tool, and on the attributes the browser reads from that tag the
    filter eol shows the row exactly when its badge is End of Life, the
    filter 90 exactly when its badge is the warning EOL in N Days, and
    the filters 30 and 60 only in that case. *)
Theorem maintenance_filter_follows_status (i index : nat) (res : TaskResult) (row : Row)
  (rest : string) :
  processRow roundDouble fracToString Date_parse now i index res = Ok (Some row) ->
  (truthy (isEol (status row)) = true -> isEol (status row) = VBool true) ->
  (forall d, daysUntilEol (status row) = VNum (Fin (inject_Z d)) -> Z.abs d <= 2 ^ 53) ->
  exactOnIntegers roundDouble ->
  plain (category row) = true ->
  exists tag,
    startTag characterReference (rowStartTag row ++ rest) = Some tag /\
    tagName tag = "tr" /\
    lookupAttribute "class" (tagAttributes tag) = Some "row-tool" /\
    let eol := isStr (lookupAttribute "data-eol" (tagAttributes tag)) "true" in
    let days := parseInt roundDouble (lookupAttribute "data-days" (tagAttributes tag)) in
    (matchesMaintenance (Some "eol") eol days = true <->
     statusClass (status row) = "status-eol") /\
    (matchesMaintenance (Some "90") eol days = true <->
     statusClass (status row) = "status-warning") /\
    (matchesMaintenance (Some "30") eol days = true \/
     matchesMaintenance (Some "60") eol days = true ->
     statusClass (status row) = "status-warning").
Proof.
  intros Hrow Hflag Hbound Hexact Hcat.
  destruct (attributes_plain _ _ _ _ Hrow Hflag Hbound) as [Hpe Hpd].
  eexists. split; [exact (rowStartTag_read characterReference row rest Hpe Hcat Hpd)|].
  split; [reflexivity|]. split; [reflexivity|].
  change (lookupAttribute "data-eol" _) with (Some (dataEol row)).
  change (lookupAttribute "data-days" _) with (Some (dataDays row)).
  intros eol days.
  destruct (attributes_read_back _ _ _ _ Hrow Hflag Hbound Hexact) as [Heol Hdays].
  destruct (processRow_attributes _ _ _ _ Hrow) as ((releases & Hst) & _).
  destruct (lifecycleStatus_shape _ _ _ Hst) as (Hcalc & HisEol & Hclass).
  assert (H90 : numLe days 90 = withinWarning (daysUntilEol (status row))).
  { unfold days, withinWarning. change 90%Q with (inject_Z 90).
    rewrite (Hdays 90); [reflexivity | apply Z.leb_le; reflexivity | reflexivity]. }
  assert (H60 : numLe days 60 = true -> numLe days 90 = true)
    by (apply numLe_mono; discriminate).
  assert (H30 : numLe days 30 = true -> numLe days 90 = true)
    by (apply numLe_mono; discriminate).
  assert (Hnone : truthy (currentCycle (status row)) = false ->
                  truthy (isEol (status row)) = false /\
                  withinWarning (daysUntilEol (status row)) = false).
  { intros Hc. rewrite Hc in HisEol. rewrite HisEol. split; [reflexivity|].
    rewrite (falsy_no_date _ Hc) in Hcalc.
    apply calculateDaysRemaining_shape in Hcalc as [[_ ->] | [Ht _]];
      [reflexivity | discriminate Ht]. }
  unfold matchesMaintenance. simpl isStr. cbv iota.
  fold eol in Heol. rewrite Heol. rewrite Hclass.
  destruct (truthy (currentCycle (status row))) eqn:Hc.
  - destruct (truthy (isEol (status row))); simpl.
    + split; [tauto|]. split; [split; discriminate|]. intros [H | H]; discriminate H.
    + rewrite H90 in *. destruct (withinWarning (daysUntilEol (status row))).
      * split; [split; discriminate|]. split; tauto.
      * split; [split; discriminate|]. split; [split; discriminate|].
        intros [H | H]; [apply H30 in H | apply H60 in H]; discriminate H.
  - destruct (Hnone eq_refl) as [-> Hw]. simpl. rewrite H90, Hw in *.
    split; [split; discriminate|]. split; [split; discriminate|].
    intros [H | H]; [apply H30 in H | apply H60 in H]; discriminate H.
Qed.

(** X19.  The security filter agrees with the advisories listed.  The flag
    of a rendered row is set exactly when the row lists at least one
    advisory of either source; and when the three texts line 232 writes
    before the flag (end-of-life flag, category, day count) are plain,
    the browser reads the flag back from the start tag of the row as it
    was written, so that the filter vulnerable shows the row exactly when
    it lists an advisory and the filter secure exactly when it lists
    none. *)
Theorem security_flag_follows_advisories (i index : nat) (res : TaskResult) (row : Row)
  (rest : string) :
  processRow roundDouble fracToString Date_parse now i index res = Ok (Some row) ->
  (hasAnyVulns row = true <-> advisoriesA row <> [] \/ advisoriesB row <> []) /\
  (plain (dataEol row) = true ->
   plain (category row) = true ->
   plain (dataDays row) = true ->
   exists tag,
     startTag characterReference (rowStartTag row ++ rest) = Some tag /\
     let hasVulns :=
       isStr (lookupAttribute "data-has-vulns" (tagAttributes tag)) "true" in
     (matchesSecurity (Some "vulnerable") hasVulns = true <->
      advisoriesA row <> [] \/ advisoriesB row <> []) /\
     (matchesSecurity (Some "secure") hasVulns = true <->
      advisoriesA row = [] /\ advisoriesB row = [])).
Proof.
  intros Hrow.
  destruct (processRow_attributes _ _ _ _ Hrow) as (_ & _ & _ & Hany).
  split; [exact Hany|]. intros Hpe Hcat Hpd.
  eexists. split; [exact (rowStartTag_read characterReference row rest Hpe Hcat Hpd)|].
  change (lookupAttribute "data-has-vulns" _)
    with (Some (if hasAnyVulns row then "true" else "false")).
  intros hasVulns. unfold hasVulns, matchesSecurity. simpl.
  destruct (hasAnyVulns row); simpl.
  - split; [tauto|]. split; [discriminate|].
    intros [Ha Hb]. destruct (proj1 Hany eq_refl); contradiction.
  - split.
    + split; [discriminate|]. intros H. apply Hany in H. discriminate H.
    + split; [|reflexivity]. intros _.
      destruct (advisoriesA row), (advisoriesB row); try (split; reflexivity);
        exfalso; assert (false = true) as Habs
          by (apply Hany; first [left; discriminate | right; discriminate]);
        discriminate Habs.
Qed.

(** X20.  The warning window is exactly ninety days: a release with an
    end-of-life date is within the warning when that date is at most
    ninety times twenty-four hours ahead, which includes every date in the
    past; and the day count is positive exactly for a date in the
    future. *)
Theorem warning_window (dateStr : value) (eol : Z) :
  truthy dateStr = true ->
  newDate roundDouble fracToString Date_parse dateStr = Ok (Some eol) ->
  exists d,
    calculateDaysRemaining roundDouble fracToString Date_parse now dateStr
      = Ok (VNum (Fin (inject_Z d))) /\
    (withinWarning (VNum (Fin (inject_Z d))) = true <-> eol - now <= 90 * msPerDay) /\
    (0 < d <-> now < eol).
Proof.
  intros Ht Hdate. exists (ceilDiv (eol - now) msPerDay).
  unfold calculateDaysRemaining. rewrite Ht, Hdate. simpl bind. cbv iota.
  split; [reflexivity|].
  pose proof (ceilDiv_ceiling (eol - now) msPerDay eq_refl) as Hc.
  assert (Hday : 0 < msPerDay) by reflexivity.
  unfold withinWarning, numLe. change 90%Q with (inject_Z 90).
  rewrite Qle_bool_iff, <- Zle_Qle. split; split; intros H; nia.
Qed.

(** X21.  A product whose list of releases is empty cannot be rendered: the row
    raises when it reads the latest release. *)
Theorem empty_release_list_raises (i index : nat) (res : TaskResult)
  (err product : value) :
  get (lifecycle res) "error" = Ok err ->
  truthy err = false ->
  get (lifecycle res) "result" = Ok product ->
  get product "releases" = Ok (VArr []) ->
  processRow roundDouble fracToString Date_parse now i index res = TypeError.
Proof.
  intros Herr Hfalsy Hproduct Hreleases.
  unfold processRow. rewrite Herr. cbn [bind]. rewrite Hfalsy, Hproduct. cbn [bind].
  rewrite Hreleases. cbn [bind].
  unfold lifecycleStatus. cbn [callFind findM bind optGet nullish].
  unfold calculateDaysRemaining. cbn [truthy negb bind isEol daysUntilEol currentCycle].
  repeat match goal with
         | |- bind (get (optIndex0 (VArr [])) "name") _ = TypeError => reflexivity
         | |- bind ?m _ = TypeError =>
             destruct m; cbn [bind isEol daysUntilEol currentCycle];
             [|reflexivity]
         end.
Qed.

(** X24.  What a rendered row shows of the releases: the product has at
    least one release; the latest version and its date are the name and
    the release date of the first one; and the history is the first ten
    releases, or all of them when there are fewer, in the order of the
    list, each with its name, its release date and its end-of-life date,
    the word Maintained standing for a date that is missing. *)
Theorem row_shows_latest_and_history (i index : nat) (res : TaskResult) (row : Row) :
  processRow roundDouble fracToString Date_parse now i index res = Ok (Some row) ->
  exists first rest,
    prop (prop (lifecycle res) "result") "releases" = VArr (first :: rest) /\
    render fracToString (prop first "name") = Ok (latestVersion row) /\
    render fracToString (prop first "releaseDate") = Ok (latestReleaseDate row) /\
    length (history row) = Nat.min 10 (S (length rest)) /\
    (forall j r,
        (j < 10)%nat ->
        (first :: rest) !! j = Some r ->
        exists name released eol,
          history row !! j = Some (name, released, eol) /\
          render fracToString (prop r "name") = Ok name /\
          render fracToString (prop r "releaseDate") = Ok released /\
          render fracToString (orElse (prop r "eolFrom") (VStr "Maintained")) = Ok eol).
Proof.
  unfold processRow.
  head_bind err Eerr. destruct (truthy err); [discriminate|].
  head_bind product Eproduct. head_bind releases Ereleases.
  head_bind st Est. head_bind eols Eeols. head_bind cat Ecat.
  head_bind days Edays. head_bind lbl Elbl. head_bind current Ecurrent.
  head_bind cur Ecur. head_bind curDate EcurDate. head_bind latest Elatest.
  head_bind latests Elatests. head_bind latestDate ElatestDate.
  head_bind hist Ehist. head_bind advA EadvA. head_bind advB EadvB.
  intros [= <-]. cbn [latestVersion latestReleaseDate history].
  apply get_prop in Eproduct, Ereleases. subst product.
  assert (Harr : exists l, releases = VArr l).
  { unfold lifecycleStatus in Est.
    destruct releases; try discriminate Est. eauto. }
  destruct Harr as (l & ->).
  destruct l as [|first rest]; [discriminate Elatest|].
  exists first, rest. split; [now symmetry|].
  cbn [optIndex0] in Elatest, ElatestDate. apply get_prop in Elatest. subst latest.
  split; [exact Elatests|]. split; [exact ElatestDate|].
  cbn [elements] in Ehist. split.
  - apply mapR_length in Ehist. rewrite Ehist. now rewrite length_take.
  - intros j r Hj Hr.
    assert (Hr' : take 10 (first :: rest) !! j = Some r)
      by (rewrite lookup_take_lt by exact Hj; exact Hr).
    destruct (mapR_lookup _ _ _ _ _ Ehist Hr') as ([[name released] eol] & Hline & Hrow).
    exists name, released, eol. split; [exact Hline|].
    revert Hrow. unfold historyRow.
    head_bind n En. head_bind names Enames. head_bind rel Erel. head_bind e Ee.
    intros [= <- <- <-]. apply get_prop in En. subst n. auto.
Qed.

End RowProperties.

(** *** The category filter *)

Lemma newSet_strings_acc (l : list string) :
  forall acc,
    fold_left (fun seen x =>
                 if existsb (sameValueZero x) seen then seen else (seen ++ [x])%list)
              (List.map VStr l) (List.map VStr acc)
    = List.map VStr
        (fold_left (fun seen x =>
                      if existsb (String.eqb x) seen then seen else (seen ++ [x])%list)
                   l acc).
Proof.
  induction l as [|x l IH]; intros acc; simpl; [reflexivity|].
  assert (He : existsb (sameValueZero (VStr x)) (List.map VStr acc)
               = existsb (String.eqb x) acc).
  { clear. induction acc as [|a acc IH]; simpl; [reflexivity|]. now rewrite IH. }
  rewrite He. destruct (existsb (String.eqb x) acc).
  - apply IH.
  - rewrite <- IH. f_equal. now rewrite List.map_app.
Qed.

Lemma newSet_strings (l : list string) :
  newSet (List.map VStr l) = List.map VStr (distinctStrings l).
Proof. exact (newSet_strings_acc l []). Qed.

Lemma distinct_acc (l : list string) :
  forall acc,
    NoDup acc ->
    NoDup (fold_left (fun seen x =>
                        if existsb (String.eqb x) seen then seen else (seen ++ [x])%list)
                     l acc) /\
    forall s,
      In s (fold_left (fun seen x =>
                         if existsb (String.eqb x) seen then seen
                         else (seen ++ [x])%list) l acc)
      <-> In s acc \/ In s l.
Proof.
  induction l as [|x l IH]; intros acc Hacc; simpl.
  - split; [exact Hacc | tauto].
  - destruct (existsb (String.eqb x) acc) eqn:Hx.
    + destruct (IH acc Hacc) as [Hn Hin]. split; [exact Hn|].
      intros s. rewrite Hin. apply existsb_exists in Hx as (y & Hy & Hxy).
      apply String.eqb_eq in Hxy. subst y. intuition (subst; auto).
    + assert (Hnot : ~ In x acc).
      { intros Hin. apply not_true_iff_false in Hx. apply Hx.
        apply existsb_exists. exists x. split; [exact Hin | apply String.eqb_refl]. }
      destruct (IH (acc ++ [x])%list) as [Hn Hin].
      { apply NoDup_app. split; [exact Hacc|]. split; [|apply NoDup_singleton].
        intros y Hy Hy'. apply list_elem_of_singleton in Hy'. subst y.
        apply Hnot. now apply list_elem_of_In. }
      split; [exact Hn|]. intros s. rewrite Hin, in_app_iff. simpl. tauto.
Qed.

Lemma distinctStrings_spec (l : list string) :
  NoDup (distinctStrings l) /\ forall s, In s (distinctStrings l) <-> In s l.
Proof.
  destruct (distinct_acc l [] (NoDup_nil_2)) as [Hn Hin]. split; [exact Hn|].
  intros s. rewrite Hin. simpl. tauto.
Qed.

Lemma insertByKey_perm (x : string * value) (l : list (string * value)) :
  Permutation (insertByKey x l) (x :: l).
Proof.
  induction l as [|y l IH]; simpl; [reflexivity|].
  destruct (String.leb (fst x) (fst y)); [reflexivity|].
  rewrite IH. apply perm_swap.
Qed.

Lemma insertByKey_sorted (x : string * value) (l : list (string * value)) :
  Sorted (fun a b => String.leb (fst a) (fst b) = true) l ->
  Sorted (fun a b => String.leb (fst a) (fst b) = true) (insertByKey x l).
Proof.
  induction 1 as [|y l Hl IH Hhd]; simpl.
  - constructor; constructor.
  - destruct (String.leb (fst x) (fst y)) eqn:Hxy.
    + constructor; [constructor; assumption|]. constructor. exact Hxy.
    + constructor; [exact IH|].
      assert (Hyx : String.leb (fst y) (fst x) = true).
      { destruct (String.leb_total (fst x) (fst y)); congruence. }
      destruct Hhd as [|z l' Hyz]; simpl.
      * constructor. exact Hyx.
      * destruct (String.leb (fst x) (fst z)); constructor; assumption.
Qed.

Lemma sortStrings_spec (l : list string) :
  Sorted (fun a b => String.leb a b = true) (sortStrings l) /\
  Permutation (sortStrings l) l.
Proof.
  unfold sortStrings. split.
  - assert (Hs : Sorted (fun a b => String.leb (fst a) (fst b) = true)
                   (fold_right insertByKey [] (List.map (fun s => (s, VStr s)) l))).
    { induction l as [|x l IH]; simpl; [constructor|]. now apply insertByKey_sorted. }
    induction Hs as [|y k Hk IH Hhd]; simpl; [constructor|].
    constructor; [exact IH|]. destruct Hhd; simpl; constructor. assumption.
  - induction l as [|x l IH]; simpl; [reflexivity|].
    rewrite insertByKey_perm. simpl. now rewrite IH.
Qed.

Lemma sorted_strict (l : list string) :
  Sorted (fun a b => String.leb a b = true) l ->
  NoDup l ->
  Sorted (fun a b => String.ltb a b = true) l.
Proof.
  induction 1 as [|x l Hl IH Hhd]; intros Hn; [constructor|].
  apply NoDup_cons in Hn as [Hx Hn].
  constructor; [now apply IH|].
  destruct Hhd as [|y l' Hxy]; constructor.
  unfold String.leb in Hxy. unfold String.ltb.
  destruct (String.compare x y) eqn:Hc; try reflexivity; try discriminate.
  apply String.compare_eq_iff in Hc. subst y. exfalso. apply Hx. left.
Qed.

Section CategoryProperties.

Variable fracToString : Q -> string.

Lemma sort_strings (l : list string) :
  sort fracToString (List.map VStr l) = Ok (List.map VStr (sortStrings l)).
Proof.
  unfold sort.
  assert (Hd : List.filter (fun v => negb (isUndef v)) (List.map VStr l) = List.map VStr l).
  { induction l as [|x l IH]; simpl; [reflexivity|]. now rewrite IH. }
  assert (Hu : List.filter isUndef (List.map VStr l) = []).
  { clear. induction l as [|x l IH]; simpl; [reflexivity | exact IH]. }
  rewrite Hd, Hu.
  assert (Hk : mapR (fun v => k <- toStringV fracToString v ;; Ok (k, v)) (List.map VStr l)
               = Ok (List.map (fun s => (s, VStr s)) l)).
  { clear. induction l as [|x l IH]; simpl; [reflexivity|]. now rewrite IH. }
  assert (Hv : forall k : list (string * value),
             Forall (fun p => snd p = VStr (fst p)) k ->
             List.map snd k = List.map VStr (List.map fst k)).
  { induction 1 as [|p k Hp _ IH]; simpl; [reflexivity|]. now rewrite Hp, IH. }
  assert (Hall : Forall (fun p => snd p = VStr (fst p))
                   (fold_right insertByKey [] (List.map (fun s => (s, VStr s)) l))).
  { apply Forall_forall. intros p Hp. apply list_elem_of_In in Hp.
    assert (Hperm : Permutation
                      (fold_right insertByKey [] (List.map (fun s => (s, VStr s)) l))
                      (List.map (fun s => (s, VStr s)) l)).
    { clear. induction l as [|x l IH]; simpl; [reflexivity|].
      rewrite insertByKey_perm. now rewrite IH. }
    apply (Permutation_in _ Hperm) in Hp. apply in_map_iff in Hp as (s & <- & _).
    reflexivity. }
  destruct l as [|x [|y l]]; [reflexivity | reflexivity |].
  unfold sortStrings. simpl List.map in *. cbv iota.
  rewrite Hk. cbn [bind]. rewrite app_nil_r.
  now rewrite (Hv _ Hall).
Qed.

(** X22.  The options of the category filter are the categories of the
    products, each once and in increasing order, when the categories are
    strings; the text of every option is its value. *)
Theorem category_options_sorted (productsList : value) (ps : list value) :
  get productsList "result" = Ok (VArr ps) ->
  Forall (fun p => exists s, hasCategory s p) ps ->
  exists names,
    categoryOptions fracToString productsList
    = Ok (List.map (fun s => (s, s)) names) /\
    Sorted (fun a b => String.ltb a b = true) names /\
    forall s, In s names <-> exists p, In p ps /\ hasCategory s p.
Proof.
  intros Hres Hall.
  assert (Hcats : exists ss,
             mapR (fun p => get p "category") ps = Ok (List.map VStr ss) /\
             forall s, In s ss <-> exists p, In p ps /\ hasCategory s p).
  { clear Hres. induction Hall as [|p ps (s0 & Hp) _ (ss & Hm & Hin)].
    - exists []. split; [reflexivity|]. intros s. simpl. split; [tauto|].
      intros (p & [] & _).
    - exists (s0 :: ss). split.
      + simpl. unfold hasCategory in Hp. rewrite Hp. simpl. now rewrite Hm.
      + intros s. simpl. rewrite Hin. split.
        * intros [<- | (q & Hq & Hs)]; [exists p; auto | exists q; auto].
        * intros (q & [<- | Hq] & Hs).
          -- left. unfold hasCategory in *. congruence.
          -- right. eauto. }
  destruct Hcats as (ss & Hm & Hin).
  destruct (distinctStrings_spec ss) as [Hnodup Hmem].
  destruct (sortStrings_spec (distinctStrings ss)) as [Hsorted Hperm].
  exists (sortStrings (distinctStrings ss)). split; [|split].
  - unfold categoryOptions. rewrite Hres. cbn [bind]. rewrite Hm. cbn [bind].
    rewrite newSet_strings, sort_strings. cbn [bind].
    generalize (sortStrings (distinctStrings ss)). clear.
    induction l as [|x l IH]; simpl; [reflexivity|]. now rewrite IH.
  - apply sorted_strict; [exact Hsorted|]. now rewrite Hperm.
  - intros s. rewrite <- Hin, <- Hmem. split; apply Permutation_in;
      [exact Hperm | symmetry; exact Hperm].
Qed.

End CategoryProperties.

(** *** Examples *)

Lemma exampleRound_exact : exactOnIntegers exampleRound.
Proof.
  intros z _. unfold exampleRound, Qred, inject_Z. f_equal.
  pose proof (Z.ggcd_gcd z 1) as Hg.
  pose proof (Z.ggcd_correct_divisors z 1) as Hd.
  destruct (Z.ggcd z 1) as [g [a b]]. simpl in Hg, Hd.
  rewrite Z.gcd_1_r in Hg. subst g. destruct Hd as [Ha Hb].
  assert (a = z) as -> by lia. assert (b = 1) as -> by lia. reflexivity.
Qed.

Lemma getSeverityLabel_range_witness :
  getSeverityLabel exampleRound exampleFrac osvScore95 = Ok "Critical" /\
  In "Critical" severityLabels.
Proof.
  split; [reflexivity|].
  apply (getSeverityLabel_range exampleRound exampleFrac osvScore95 "Critical").
  reflexivity.
Defined.

Lemma getNVDSeverity_label_witness :
  getNVDSeverity exampleRound exampleFrac nvdLabelHigh = Ok "High".
Proof.
  apply (getNVDSeverity_label exampleRound exampleFrac nvdLabelHigh
           (VObj [("cvssData",
                   VObj [("baseSeverity", VStr "HIGH"); ("baseScore", VNum (Fin 2))])])
           "HIGH" "high").
  - reflexivity.
  - reflexivity.
  - simpl. tauto.
  - reflexivity.
Defined.

Lemma getNVDSeverity_newest_scheme_only_witness :
  getNVDSeverity exampleRound exampleFrac nvdEmptyNewest =
  getNVDSeverity exampleRound exampleFrac (onlyV31 (VObj [])) /\
  getNVDSeverity exampleRound exampleFrac (onlyV31 (VObj [])) = Ok "Unknown".
Proof.
  split; [|reflexivity].
  apply (getNVDSeverity_newest_scheme_only exampleRound exampleFrac nvdEmptyNewest
           (VObj [])); reflexivity.
Defined.

Lemma run_batches_are_slices_witness :
  [exampleTool; exampleTool] = take BATCH_SIZE (drop (BATCH_SIZE * 1) (exampleConfig 7)) /\
  (1 <= length [exampleTool; exampleTool] <= BATCH_SIZE)%nat /\
  (forall k item,
      [exampleTool; exampleTool] !! k = Some item ->
      exampleConfig 7 !! (BATCH_SIZE * 1 + k)%nat = Some item).
Proof.
  apply (run_batches_are_slices exampleRound exampleFrac exampleDate exampleNow
           worldOsvDown lastFirst (exampleConfig 7) 1 [exampleTool; exampleTool]).
  vm_compute. reflexivity.
Defined.

Lemma run_progress_counts_witness :
  7%nat = length (exampleConfig 7) /\
  7%nat = Nat.min (BATCH_SIZE * (1 + 1)) (length (exampleConfig 7)) /\
  (0 < 7 <= 7)%nat /\
  (1 < length (batches (initDashboard exampleRound exampleFrac exampleDate exampleNow
                          worldOsvDown lastFirst (exampleConfig 7))))%nat.
Proof.
  apply (run_progress_counts exampleRound exampleFrac exampleDate exampleNow
           worldOsvDown lastFirst (exampleConfig 7) 1 7 7).
  vm_compute. reflexivity.
Defined.

Lemma completed_run_counts_witness :
  length (batches (initDashboard exampleRound exampleFrac exampleDate exampleNow
                     worldOsvDown lastFirst (exampleConfig 7))) = ((7 + 4) / 5)%nat /\
  last (progress (initDashboard exampleRound exampleFrac exampleDate exampleNow
                    worldOsvDown lastFirst (exampleConfig 7))) = Some (7%nat, 7%nat).
Proof.
  destruct (completed_run_counts exampleRound exampleFrac exampleDate exampleNow
              worldOsvDown lastFirst (exampleConfig 7)) as (Hb & _ & Hlast).
  - vm_compute. reflexivity.
  - split; [exact Hb|]. apply Hlast. discriminate.
Defined.

Lemma rejected_request_discards_batch_witness :
  ending (initDashboard exampleRound exampleFrac exampleDate exampleNow
            worldSeventhDown lastFirst (exampleConfig 7)) <> Completed /\
  forall row,
    In row (rows (initDashboard exampleRound exampleFrac exampleDate exampleNow
                    worldSeventhDown lastFirst (exampleConfig 7))) ->
    (globalIndex row < BATCH_SIZE * 1)%nat.
Proof.
  apply (rejected_request_discards_batch exampleRound exampleFrac exampleDate exampleNow
           worldSeventhDown lastFirst (exampleConfig 7) 1 1 exampleTool).
  - unfold BATCH_SIZE. lia.
  - reflexivity.
  - reflexivity.
Defined.

Lemma failed_tool_ends_run_witness :
  ending (initDashboard exampleRound exampleFrac exampleDate exampleNow
            worldSeventhEmpty lastFirst (exampleConfig 7)) <> Completed /\
  forall row,
    In row (rows (initDashboard exampleRound exampleFrac exampleDate exampleNow
                    worldSeventhEmpty lastFirst (exampleConfig 7))) ->
    (globalIndex row < 6)%nat.
Proof.
  apply (failed_tool_ends_run exampleRound exampleFrac exampleDate exampleNow
           worldSeventhEmpty lastFirst (exampleConfig 7) 6 exampleTool).
  - reflexivity.
  - vm_compute. reflexivity.
Defined.

Lemma no_version_no_advisories_witness :
  exists row,
    toolOutcome exampleRound exampleFrac exampleDate exampleNow worldOsvDown 0
      unversionedTool = Ok (Some row) /\
    hasAnyVulns row = false /\ advisoriesA row = [] /\ advisoriesB row = [].
Proof.
  destruct (toolOutcome exampleRound exampleFrac exampleDate exampleNow worldOsvDown 0
              unversionedTool) as [[row|]|] eqn:Hrow.
  - exists row. split; [reflexivity|].
    apply (no_version_no_advisories exampleRound exampleFrac exampleDate exampleNow
             worldOsvDown 0 unversionedTool row Hrow).
    reflexivity.
  - vm_compute in Hrow. discriminate Hrow.
  - vm_compute in Hrow. discriminate Hrow.
Defined.

Lemma toggleRow_accordion_witness :
  exists row e,
    getElementById examplePage "details-1" = Some row /\
    examplePage !! row = Some e /\
    length (fst (toggleRow "details-1" 9 examplePage)) = length examplePage /\
    forall j e0,
      examplePage !! j = Some e0 ->
      exists e',
        fst (toggleRow "details-1" 9 examplePage) !! j = Some e' /\
        sameElement e0 e' /\ control e' = control e0 /\
        display e' =
          (if (j =? row)%nat && negb (String.eqb (display e) "table-row")
           then "table-row"
           else if hasClass "details-row" e0 then "none" else display e0) /\
        textContent e' =
          (if (j =? 9)%nat && negb (String.eqb (display e) "table-row")
           then minusSign
           else if hasClass "expand-btn" e0 &&
                   negb (String.eqb (elementId e0) "resetFilters")
                then "+" else textContent e0).
Proof.
  exact (toggleRow_accordion "details-1" 9 examplePage
           (fst (toggleRow "details-1" 9 examplePage)) eq_refl).
Defined.

Lemma toggleRow_twice_closes_witness :
  exists doc1,
    toggleRow "details-1" 9 examplePage = (doc1, Ok tt) /\
    (exists e1, doc1 !! 10%nat = Some e1 /\ display e1 = "table-row") /\
    toggleRow "details-1" 9 doc1 = (resetButtons (hideDetails examplePage), Ok tt).
Proof.
  apply (toggleRow_twice_closes "details-1" 9 10 examplePage
           (mkElement "details-1" ["details-row"] [] "none" "" NoValue)
           (mkElement "" ["expand-btn"] [] "" "+" NoValue));
    try reflexivity; discriminate.
Defined.

Lemma applyFilters_effect_witness :
  exists s c m sec,
    readFilters examplePage = Ok (s, c, m, sec) /\
    length (fst (applyFilters exampleRound exampleInnerText examplePage))
    = length examplePage /\
    forall j e,
      examplePage !! j = Some e ->
      exists e',
        fst (applyFilters exampleRound exampleInnerText examplePage) !! j = Some e' /\
        sameElement e e' /\ control e' = control e /\
        textContent e' = textContent (collapsed e) /\
        (hasClass "row-tool" e = true ->
         display e' =
         if rowMatches exampleRound s c m sec e
              (exampleInnerText
                 (take j (fst (applyFilters exampleRound exampleInnerText examplePage))
                  ++ drop j (resetButtons (hideDetails examplePage)))%list j)
         then "" else "none") /\
        (hasClass "row-tool" e = false -> display e' = display (collapsed e)).
Proof.
  exact (applyFilters_effect exampleRound exampleInnerText examplePage
           (fst (applyFilters exampleRound exampleInnerText examplePage)) eq_refl).
Defined.

Lemma resetFilters_shows_every_row_witness :
  exists doc',
    resetFilters exampleRound exampleInnerText examplePage = (doc', Ok tt) /\
    length doc' = length examplePage /\
    readFilters doc' = Ok ("", Some "all", Some "all", Some "all") /\
    forall j e',
      doc' !! j = Some e' ->
      (hasClass "row-tool" e' = true -> display e' = "") /\
      (hasClass "row-tool" e' = false -> hasClass "details-row" e' = true ->
       display e' = "none").
Proof.
  apply (resetFilters_shows_every_row exampleRound exampleInnerText examplePage).
  - exists 0%nat. eexists. split; [reflexivity|]. split; reflexivity.
  - exists 1%nat. eexists. split; [reflexivity|]. split; reflexivity.
  - exists 2%nat. eexists. split; [reflexivity|]. split; reflexivity.
  - exists 3%nat. eexists. split; [reflexivity|]. split; reflexivity.
Defined.

Lemma maintenance_filter_follows_status_witness :
  exists row tag,
    processRow exampleRound exampleFrac exampleDate exampleNow 0 0 exampleResult
    = Ok (Some row) /\
    startTag noReference (rowStartTag row ++ "<td>") = Some tag /\
    statusClass (status row) = "status-warning" /\
    matchesMaintenance (Some "90")
      (isStr (lookupAttribute "data-eol" (tagAttributes tag)) "true")
      (parseInt exampleRound (lookupAttribute "data-days" (tagAttributes tag))) = true.
Proof.
  destruct (processRow exampleRound exampleFrac exampleDate exampleNow 0 0 exampleResult)
    as [[row|]|] eqn:Hrow;
    [|vm_compute in Hrow; discriminate Hrow..].
  pose proof Hrow as Hc. vm_compute in Hc. injection Hc as Hc.
  assert (Hclass : statusClass (status row) = "status-warning")
    by (rewrite <- Hc; reflexivity).
  destruct (maintenance_filter_follows_status exampleRound exampleFrac exampleDate
              exampleNow noReference 0 0 exampleResult row "<td>" Hrow)
    as (tag & Htag & _ & _ & _ & H90 & _).
  - rewrite <- Hc. simpl. discriminate.
  - rewrite <- Hc. simpl. intros d Hd. injection Hd as <-.
    apply Z.leb_le. reflexivity.
  - exact exampleRound_exact.
  - rewrite <- Hc. reflexivity.
  - exists row, tag. split; [reflexivity|]. split; [exact Htag|].
    split; [exact Hclass|]. apply H90. exact Hclass.
Defined.

(** The condition on the category cannot be dropped: a category that
    closes its own attribute and writes a day count of 5 makes the filter
    30 show a row whose badge is Maintained. *)
Lemma quote_in_category_misleads_filter :
  exists row tag,
    processRow exampleRound exampleFrac exampleDate exampleNow 0 0 quoteInCategory
    = Ok (Some row) /\
    statusClass (status row) = "status-active" /\
    dataDays row = "9999" /\
    startTag noReference (rowStartTag row ++ "<td>") = Some tag /\
    lookupAttribute "data-days" (tagAttributes tag) = Some "5" /\
    matchesMaintenance (Some "30")
      (isStr (lookupAttribute "data-eol" (tagAttributes tag)) "true")
      (parseInt exampleRound (lookupAttribute "data-days" (tagAttributes tag))) = true.
Proof.
  eexists. eexists. split; [vm_compute; reflexivity|].
  split; [reflexivity|]. split; [reflexivity|].
  split; [vm_compute; reflexivity|]. split; reflexivity.
Qed.

Lemma security_flag_follows_advisories_witness :
  exists row tag,
    processRow exampleRound exampleFrac exampleDate exampleNow 0 0 exampleResult
    = Ok (Some row) /\
    (hasAnyVulns row = true <-> advisoriesA row <> [] \/ advisoriesB row <> []) /\
    startTag noReference (rowStartTag row ++ "<td>") = Some tag /\
    matchesSecurity (Some "vulnerable")
      (isStr (lookupAttribute "data-has-vulns" (tagAttributes tag)) "true") = true.
Proof.
  destruct (processRow exampleRound exampleFrac exampleDate exampleNow 0 0 exampleResult)
    as [[row|]|] eqn:Hrow;
    [|vm_compute in Hrow; discriminate Hrow..].
  pose proof Hrow as Hc. vm_compute in Hc. injection Hc as Hc.
  destruct (security_flag_follows_advisories exampleRound exampleFrac exampleDate
              exampleNow noReference 0 0 exampleResult row "<td>" Hrow)
    as (Hany & Hread).
  destruct Hread as (tag & Htag & Hvulnerable & _);
    [rewrite <- Hc; reflexivity ..|].
  exists row, tag. split; [reflexivity|]. split; [exact Hany|].
  split; [exact Htag|]. apply Hvulnerable. right. rewrite <- Hc. discriminate.
Defined.

Lemma warning_window_witness :
  exists d,
    calculateDaysRemaining exampleRound exampleFrac exampleDate exampleNow
      (VStr "2030-01-01") = Ok (VNum (Fin (inject_Z d))) /\
    (withinWarning (VNum (Fin (inject_Z d))) = true <->
     1893456000000 - exampleNow <= 90 * msPerDay) /\
    (0 < d <-> exampleNow < 1893456000000).
Proof.
  apply (warning_window exampleRound exampleFrac exampleDate exampleNow
           (VStr "2030-01-01") 1893456000000); reflexivity.
Defined.

Lemma empty_release_list_raises_witness :
  processRow exampleRound exampleFrac exampleDate exampleNow 5 1
    (mkTaskResult noReleases (VArr []) (VArr []) exampleTool) = TypeError.
Proof.
  apply (empty_release_list_raises exampleRound exampleFrac exampleDate exampleNow 5 1
           (mkTaskResult noReleases (VArr []) (VArr []) exampleTool)
           VUndef
           (VObj [("label", VStr "Tool"); ("category", VStr "lang");
                  ("releases", VArr [])]));
    reflexivity.
Defined.

Lemma category_options_sorted_witness :
  exists names,
    categoryOptions exampleFrac exampleProducts = Ok (List.map (fun s => (s, s)) names) /\
    Sorted (fun a b => String.ltb a b = true) names /\
    forall s,
      In s names <->
      exists p,
        In p [VObj [("name", VStr "python"); ("category", VStr "lang")];
              VObj [("name", VStr "redis"); ("category", VStr "db")];
              VObj [("name", VStr "go"); ("category", VStr "lang")];
              VObj [("name", VStr "nginx"); ("category", VStr "app")]] /\
        hasCategory s p.
Proof.
  apply (category_options_sorted exampleFrac exampleProducts).
  - reflexivity.
  - repeat constructor; eexists; reflexivity.
Defined.

Lemma unsettled_request_blocks_run_witness :
  ending (initDashboard exampleRound exampleFrac exampleDate exampleNow
            worldOsvDown thirdNeverSettles (exampleConfig 7)) <> Completed /\
  forall row,
    In row (rows (initDashboard exampleRound exampleFrac exampleDate exampleNow
                    worldOsvDown thirdNeverSettles (exampleConfig 7))) ->
    (globalIndex row < BATCH_SIZE * 0)%nat.
Proof.
  apply (unsettled_request_blocks_run exampleRound exampleFrac exampleDate exampleNow
           worldOsvDown thirdNeverSettles (exampleConfig 7) 0 2 exampleTool).
  - unfold BATCH_SIZE. lia.
  - reflexivity.
  - unfold thirdNeverSettles. simpl. lia.
Defined.

Lemma row_shows_latest_and_history_witness :
  exists row first rest,
    processRow exampleRound exampleFrac exampleDate exampleNow 0 0 exampleResult
    = Ok (Some row) /\
    prop (prop (lifecycle exampleResult) "result") "releases" = VArr (first :: rest) /\
    render exampleFrac (prop first "name") = Ok (latestVersion row) /\
    render exampleFrac (prop first "releaseDate") = Ok (latestReleaseDate row) /\
    length (history row) = Nat.min 10 (S (length rest)) /\
    (forall j r,
        (j < 10)%nat ->
        (first :: rest) !! j = Some r ->
        exists name released eol,
          history row !! j = Some (name, released, eol) /\
          render exampleFrac (prop r "name") = Ok name /\
          render exampleFrac (prop r "releaseDate") = Ok released /\
          render exampleFrac (orElse (prop r "eolFrom") (VStr "Maintained")) = Ok eol).
Proof.
  destruct (processRow exampleRound exampleFrac exampleDate exampleNow 0 0 exampleResult)
    as [[row|]|] eqn:Hrow;
    [|vm_compute in Hrow; discriminate Hrow..].
  destruct (row_shows_latest_and_history exampleRound exampleFrac exampleDate exampleNow
              0 0 exampleResult row Hrow) as (first & rest & H).
  exists row, first, rest. split; [reflexivity | exact H].
Defined.
